(** * Agent Backlink Network: matching, link verification, bids

    A shallow embedding of the JavaScript sources of the Agent Backlink
    Network (ABN) and the properties its specification states about them.

    - [Config], [Query]: the industry table and [findMatches] (src/config.js,
      src/query.js);
    - [Verify]: [fetchPage], [extractLinks], [verifyBacklink] and
      [batchVerify] (src/verify.js);
    - [Watch], [Bid], [Abn]: [queryBids], [postBid] and [createBid]
      (src/watch.js, src/bid.js, src/abn.js);
    - [Deal]: the negotiation state machine of the specification.

    Conventions.  A JavaScript string is a [string] of code units below 256
    (Latin-1); a JavaScript number that the code uses as an integer (scores,
    satoshis, timestamps, status codes) is a [Z]; a property that may be
    absent ([undefined] or [null]) is an [option]. *)

From Stdlib Require Import ZArith List String Ascii Bool Lia.
From Stdlib Require Import Decimal DecimalString DecimalFacts DecimalPos DecimalN DecimalZ.
From Stdlib Require Import Permutation Sorted.
Import ListNotations.

Open Scope string_scope.
Open Scope Z_scope.

(* ================================================================== *)
(** * JavaScript values used by every module *)

Module Js.

(** Truthiness of an optional string property: [undefined] and the empty
    string are falsy. *)
Definition truthy_str (o : option string) : bool :=
  match o with
  | Some s => negb (s =? EmptyString)%string
  | None => false
  end.

(** Truthiness of an optional number: [undefined] and [0] are falsy. *)
Definition truthy_num (o : option Z) : bool :=
  match o with
  | Some z => negb (z =? 0)
  | None => false
  end.

(** Truthiness of [true | false | undefined]. *)
Definition truthy_bool (o : option bool) : bool :=
  match o with
  | Some b => b
  | None => false
  end.

(** [x || y] on [true | false | undefined]. *)
Definition or_else (x y : option bool) : option bool :=
  if truthy_bool x then x else y.

(** [Array.prototype.includes] on an array of strings. *)
Definition includes (l : list string) (x : string) : bool :=
  existsb (String.eqb x) l.

(** [n >= k] where [n] may be [undefined] or [null]: the comparison with
    [NaN] is false, and [null] converts to [0], below every threshold used
    here. *)
Definition num_ge (o : option Z) (k : Z) : bool :=
  match o with
  | Some z => k <=? z
  | None => false
  end.

(** A settled promise: fulfilled with a value, or rejected with an [Error]
    of the given message. *)
Inductive Settled (A : Type) :=
| Resolved (a : A)
| Rejected (message : string).
Arguments Resolved {A} a.
Arguments Rejected {A} message.

(** [Array.prototype.sort(cmp)]: a stable sort (ECMAScript 2019); [x] is
    placed after [y] exactly when [cmp x y > 0]. *)
Section Sort.
Context {A : Type} (cmp : A -> A -> Z).

Fixpoint insert (x : A) (l : list A) : list A :=
  match l with
  | [] => [x]
  | y :: l' => if 0 <? cmp x y then y :: insert x l' else x :: l
  end.

Definition sort (l : list A) : list A := fold_right insert [] l.
End Sort.

End Js.

(* ================================================================== *)
(** * src/config.js *)

Module Config.

(** [RELATED_INDUSTRIES], read as the table of its ten own entries: an
    industry is an ordinary name, never the name of a member that every
    object inherits, such as [constructor]. *)
Definition RELATED_INDUSTRIES : list (string * list string) :=
  [ ("plumbing", ["hvac"; "electrical"; "construction"; "roofing"; "home-services"]);
    ("hvac", ["plumbing"; "electrical"; "construction"; "home-services"]);
    ("roofing", ["construction"; "plumbing"; "gutters"; "siding"]);
    ("electrical", ["plumbing"; "hvac"; "construction"; "solar"]);
    ("construction", ["roofing"; "plumbing"; "hvac"; "electrical"; "concrete"]);
    ("landscaping", ["tree-service"; "lawn-care"; "irrigation"; "hardscaping"]);
    ("real-estate", ["mortgage"; "home-inspection"; "title"; "moving"]);
    ("dental", ["orthodontics"; "oral-surgery"; "healthcare"]);
    ("legal", ["accounting"; "financial"; "insurance"]);
    ("restaurant", ["catering"; "food-service"; "hospitality"]) ].

(** [RELATED_INDUSTRIES[a]]. *)
Fixpoint lookup (t : list (string * list string)) (a : string)
  : option (list string) :=
  match t with
  | [] => None
  | (k, v) :: t' => if (k =? a)%string then Some v else lookup t' a
  end.

(** [RELATED_INDUSTRIES[a]?.includes(b)]. *)
Definition includes_opt (a b : string) : option bool :=
  option_map (fun l => Js.includes l b) (lookup RELATED_INDUSTRIES a).

Definition isRelatedIndustry (a b : string) : option bool :=
  Js.or_else (includes_opt a b) (includes_opt b a).

End Config.

(* ================================================================== *)
(** * src/query.js *)

Module Query.

(** The content of a site registration (src/register.js): [da] is a number
    or [null]. *)
Record Site := mkSite {
  url : string;
  name : string;
  city : string;
  state : string;
  industry : string;
  da : option Z
}.

(** [{ ...site, matchScore: score }]. *)
Record Match := mkMatch {
  site : Site;
  matchScore : Z
}.

(** The body of the [map] callback of [findMatches]: [score] starts at 0
    and is increased by each test that holds. *)
Definition score (yourSite site : Site) : Z :=
  let score := 0 in
  let score := if (state yourSite =? state site)%string then score + 30 else score in
  let score := if negb (city yourSite =? city site)%string then score + 20 else score in
  let score :=
    if (industry yourSite =? industry site)%string then score + 25
    else if Js.truthy_bool (Config.isRelatedIndustry (industry yourSite) (industry site))
         then score + 20 else score in
  let score := if Js.num_ge (da site) 30 then score + 15 else score in
  let score := if Js.num_ge (da site) 40 then score + 10 else score in
  score.

Definition findMatches (yourSite : Site) (allSites : list Site) : list Match :=
  Js.sort (fun a b => matchScore b - matchScore a)
    (filter (fun s => 30 <? matchScore s)
       (map (fun site => mkMatch site (score yourSite site))
          (filter (fun s => negb (url s =? url yourSite)%string) allSites))).

End Query.

(* ================================================================== *)
(** * Strings: the [String.prototype] methods and regular expressions used *)

Module Str.

Definition code (c : ascii) : N := N_of_ascii c.

(** [\s], and the characters removed by [trim], below 256: tab, line feed,
    vertical tab, form feed, carriage return, space, no-break space. *)
Definition isSpace (c : ascii) : bool :=
  let n := code c in
  ((9 <=? n) && (n <=? 13) || (n =? 32) || (n =? 160))%N.

Definition lowerChar (c : ascii) : ascii :=
  let n := code c in
  if ((65 <=? n) && (n <=? 90)
      || (192 <=? n) && (n <=? 222) && negb (n =? 215))%N
  then ascii_of_N (n + 32) else c.

Fixpoint toLowerCase (s : string) : string :=
  match s with
  | EmptyString => EmptyString
  | String c s' => String (lowerChar c) (toLowerCase s')
  end.

Fixpoint trimStart (s : string) : string :=
  match s with
  | String c s' => if isSpace c then trimStart s' else s
  | EmptyString => EmptyString
  end.

Fixpoint trimEnd (s : string) : string :=
  match s with
  | String c s' =>
      match trimEnd s' with
      | EmptyString => if isSpace c then EmptyString else String c EmptyString
      | t => String c t
      end
  | EmptyString => EmptyString
  end.

Definition trim (s : string) : string := trimEnd (trimStart s).

Definition startsWith (s t : string) : bool := String.prefix t s.

(** [s.includes(t)]. *)
Fixpoint includes (s t : string) : bool :=
  String.prefix t s ||
  match s with
  | String _ s' => includes s' t
  | EmptyString => false
  end.

(** [String(n)] for an integer [n]. *)
Definition ofZ (n : Z) : string :=
  NilEmpty.string_of_int (Z.to_int n).

Definition ofNat (n : nat) : string := ofZ (Z.of_nat n).

(** ** Regular expressions

    The two patterns of [extractLinks] are sequences of single characters
    and of greedy repetitions of one character class; their groups are
    ranges of that sequence. *)
Inductive item :=
| One (p : ascii -> bool)      (* a character or a class *)
| Many0 (p : ascii -> bool)    (* [p*] *)
| Many1 (p : ascii -> bool).   (* [p+] *)

Definition lit (c : ascii) : ascii -> bool := Ascii.eqb c.
(** A letter under the [i] flag; [c] is the lower-case letter. *)
Definition ci (c : ascii) : ascii -> bool := fun x => Ascii.eqb (lowerChar x) c.
Definition dquote : ascii := "034"%char.
Definition squote : ascii := "039"%char.
Definition isQuote (x : ascii) : bool := Ascii.eqb x dquote || Ascii.eqb x squote.
(** [s] between double quotes. *)
Definition quoted (s : string) : string :=
  String dquote s ++ String dquote EmptyString.

Definition non (p : ascii -> bool) : ascii -> bool := fun x => negb (p x).

(** Greedy repetition with backtracking: the longest run of [p] after which
    the rest of the pattern [k] matches. *)
Fixpoint star {R : Type} (p : ascii -> bool) (k : string -> option R)
    (s : string) : option (string * R) :=
  match s with
  | String c s' =>
      if p c then
        match star p k s' with
        | Some (seg, r) => Some (String c seg, r)
        | None => option_map (pair EmptyString) (k s)
        end
      else option_map (pair EmptyString) (k s)
  | EmptyString => option_map (pair EmptyString) (k s)
  end.

Definition cons_seg (x : string * (list string * string)) : list string * string :=
  let '(seg, (segs, rest)) := x in (seg :: segs, rest).

(** [run r s]: the match of [r] at the start of [s], as the text consumed
    by each item of [r] and the text left. *)
Fixpoint run (r : list item) (s : string) : option (list string * string) :=
  match r with
  | [] => Some ([], s)
  | One p :: r' =>
      match s with
      | String c s' =>
          if p c then option_map (fun x => cons_seg (String c EmptyString, x)) (run r' s')
          else None
      | EmptyString => None
      end
  | Many0 p :: r' => option_map cons_seg (star p (run r') s)
  | Many1 p :: r' =>
      match s with
      | String c s' =>
          if p c then
            option_map (fun x => let '(seg, y) := x in cons_seg (String c seg, y))
              (star p (run r') s')
          else None
      | EmptyString => None
      end
  end.

(** [s.match(r)] without the [g] flag: the leftmost match. *)
Fixpoint search (r : list item) (s : string) : option (list string) :=
  match run r s with
  | Some (segs, _) => Some segs
  | None =>
      match s with
      | String _ s' => search r s'
      | EmptyString => None
      end
  end.

Definition matchLength (segs : list string) : nat :=
  fold_right (fun seg n => (String.length seg + n)%nat) 0%nat segs.

(** The loop [while ((match = r.exec(s)) !== null)] of a [g] pattern:
    [skip] is the distance from the current position to [lastIndex]. *)
Fixpoint execAll (r : list item) (s : string) (skip : nat) : list (list string) :=
  match skip with
  | S skip' =>
      match s with
      | String _ s' => execAll r s' skip'
      | EmptyString => []
      end
  | O =>
      match run r s with
      | Some (segs, _) =>
          segs ::
          match s with
          | String _ s' => execAll r s' (pred (matchLength segs))
          | EmptyString => []
          end
      | None =>
          match s with
          | String _ s' => execAll r s' 0
          | EmptyString => []
          end
      end
  end.

(** The text of a group: the items [from], ..., [from + len - 1]. *)
Definition group (from len : nat) (segs : list string) : string :=
  String.concat EmptyString (firstn len (skipn from segs)).

End Str.

(* ================================================================== *)
(** * src/verify.js *)

Module Verify.

(** ** The outside world

    A run is observed as the sequence of its effects.  The network answers
    a request for a URL as a function of everything that happened before,
    and so does the clock. *)
Inductive Effect :=
| Request (url : string)
| Sleep (ms : Z).

Definition World := list Effect.

(** What [protocol.get] delivers: an ['error'] event, a ['timeout'] event,
    or a response with its status code, its [location] header and the body
    collected until ['end']. *)
Inductive NetReply :=
| NetError (message : string)
| NetTimeout
| NetResponse (statusCode : Z) (location : option string) (body : string).

Import Js.

(** An asynchronous computation: from a world to a settled promise and the
    world after it, or [None] while it has not settled. *)
Definition Async (A : Type) : Type := World -> option (Settled A * World).

Definition ret {A} (a : A) : Async A := fun w => Some (Resolved a, w).

Definition throw {A} (message : string) : Async A :=
  fun w => Some (Rejected message, w).

(** [await m], then [f]. *)
Definition bind {A B} (m : Async A) (f : A -> Async B) : Async B :=
  fun w =>
    match m w with
    | Some (Resolved a, w') => f a w'
    | Some (Rejected e, w') => Some (Rejected e, w')
    | None => None
    end.

(** [try { m } catch (err) { h err.message }]. *)
Definition try_catch {A} (m : Async A) (h : string -> Async A) : Async A :=
  fun w =>
    match m w with
    | Some (Rejected e, w') => h e w'
    | r => r
    end.

Definition emit (e : Effect) : Async unit := fun w => Some (Resolved tt, (w ++ [e])%list).

Notation "x <- m ;; f" := (bind m (fun x => f))
  (at level 61, m at next level, right associativity).

(** ** Link records *)

Record Link := mkLink {
  href : string;
  anchor : string;
  rel : string;
  isDoFollow : bool;
  isSponsored : bool;
  isUGC : bool
}.

(** The pattern [linkRegex] of [extractLinks], with flags [g] and [i]; it
    reads, piece by piece, with [Q] the class of the two quote characters:
    [<a], [\s+], group 1 open, [[^>]* ], [href], [\s* ], [=], [\s* ], [Q],
    group 2 [[^Q]+], [Q], [[^>]* ], group 1 close, [>], group 3 [[^<]* ],
    [</a>]. *)
Definition linkRegex : list Str.item :=
  [ Str.One (Str.lit "<"); Str.One (Str.ci "a"); Str.Many1 Str.isSpace;
    (* group 1: items 3 to 14 *)
    Str.Many0 (Str.non (Str.lit ">"));
    Str.One (Str.ci "h"); Str.One (Str.ci "r"); Str.One (Str.ci "e"); Str.One (Str.ci "f");
    Str.Many0 Str.isSpace; Str.One (Str.lit "="); Str.Many0 Str.isSpace;
    Str.One Str.isQuote;
    (* group 2: item 12 *)
    Str.Many1 (Str.non Str.isQuote);
    Str.One Str.isQuote;
    Str.Many0 (Str.non (Str.lit ">"));
    Str.One (Str.lit ">");
    (* group 3: item 16 *)
    Str.Many0 (Str.non (Str.lit "<"));
    Str.One (Str.lit "<"); Str.One (Str.lit "/"); Str.One (Str.ci "a"); Str.One (Str.lit ">") ].

(** The pattern of the [rel] attribute, with flag [i]:
    [rel], [\s* ], [=], [\s* ], [Q], group 1 [[^Q]+], [Q]. *)
Definition relRegex : list Str.item :=
  [ Str.One (Str.ci "r"); Str.One (Str.ci "e"); Str.One (Str.ci "l");
    Str.Many0 Str.isSpace; Str.One (Str.lit "="); Str.Many0 Str.isSpace;
    Str.One Str.isQuote;
    (* group 1: item 7 *)
    Str.Many1 (Str.non Str.isQuote);
    Str.One Str.isQuote ].

(** The body of the loop of [extractLinks], for one match. *)
Definition linkOfMatch (segs : list string) : Link :=
  let attrs := Str.group 3 12 segs in
  let href := Str.group 12 1 segs in
  let anchor := Str.group 16 1 segs in
  let rel :=
    match Str.search relRegex attrs with
    | Some m => Str.group 7 1 m
    | None => EmptyString
    end in
  {| href := Str.trim href;
     anchor := Str.trim anchor;
     rel := Str.toLowerCase rel;
     isDoFollow := negb (Str.includes rel "nofollow");
     isSponsored := Str.includes rel "sponsored";
     isUGC := Str.includes rel "ugc" |}.

Definition extractLinks (html : string) : list Link :=
  map linkOfMatch (Str.execAll linkRegex html 0).

(** ** Verification results *)

Record Options := mkOptions {
  opt_anchor : option string;
  dofollow : bool;
  exactUrl : option string
}.

Record Result := mkResult {
  verified : bool;
  pageUrl : string;
  targetDomain : string;
  linksFound : option (list Link);
  bestMatch : option Link;
  error : option string;
  message : string;
  checkedAt : string
}.

Record Check := mkCheck {
  check_pageUrl : string;
  check_targetDomain : string;
  check_options : Options
}.

Section Run.

(** [net w url]: the answer to a request for [url] made after [w]. *)
Variable net : World -> string -> NetReply.
(** [clock w]: [new Date().toISOString()] after [w]. *)
Variable clock : World -> string.
(** [urlHref loc base]: [new URL(loc, base).href], or [None] where the
    constructor throws. *)
Variable urlHref : string -> string -> option string.
(** [urlHostname href base]: [new URL(href, base).hostname], or [None]
    where the constructor throws. *)
Variable urlHostname : string -> string -> option string.

Definition now : Async string := fun w => Some (Resolved (clock w), w).

(** [fetchPage(url)]; [fuel] bounds the number of requests, that is, of
    redirects followed.  The request headers and the delay of the
    time-out belong to the network.  A relative [location] that is not a
    URL makes the response callback throw: the promise is never settled. *)
Fixpoint fetchPage (fuel : nat) (url : string) : Async string :=
  fun w =>
    match fuel with
    | O => None
    | S fuel' =>
        let w1 := (w ++ [Request url])%list in
        match net w url with
        | NetResponse statusCode location body =>
            if (300 <=? statusCode) && (statusCode <? 400) && Js.truthy_str location
            then
              let loc := match location with Some l => l | None => EmptyString end in
              match (if Str.startsWith loc "http" then Some loc else urlHref loc url) with
              | Some redirectUrl => fetchPage fuel' redirectUrl w1
              | None => None
              end
            else if negb (statusCode =? 200)
            then Some (Rejected ("HTTP " ++ Str.ofZ statusCode), w1)
            else Some (Resolved body, w1)
        | NetError m => Some (Rejected m, w1)
        | NetTimeout => Some (Rejected "Request timed out", w1)
        end
    end.

(** The callback of [links.filter] in [verifyBacklink]. *)
Definition pointsTo (pageUrl targetDomain : string) (link : Link) : bool :=
  match urlHostname (href link) pageUrl with
  | Some hostname =>
      Str.includes hostname targetDomain || Str.includes (href link) targetDomain
  | None => Str.includes (href link) targetDomain
  end.

Definition anchorMatches (a : string) (l : Link) : bool :=
  Str.includes (Str.toLowerCase (anchor l)) (Str.toLowerCase a).

Definition verifyBacklink (fuel : nat) (pageUrl targetDomain : string)
    (options : Options) : Async Result :=
  try_catch
    (html <- fetchPage fuel pageUrl ;;
     let links := extractLinks html in
     let matchingLinks := filter (pointsTo pageUrl targetDomain) links in
     match matchingLinks with
     | [] =>
         t <- now ;;
         ret {| verified := false; pageUrl := pageUrl; targetDomain := targetDomain;
                linksFound := None; bestMatch := None; error := None;
                message := "No links found to target domain";
                checkedAt := t |}
     | first :: _ =>
         let bestMatch := first in
         let dofollowLinks := filter isDoFollow matchingLinks in
         if dofollow options && Nat.eqb (List.length dofollowLinks) 0 then
           t <- now ;;
           ret {| verified := false; pageUrl := pageUrl; targetDomain := targetDomain;
                  linksFound := Some matchingLinks; bestMatch := None; error := None;
                  message := "Links found but all are nofollow";
                  checkedAt := t |}
         else
           let bestMatch :=
             if dofollow options then hd first dofollowLinks else bestMatch in
           if Js.truthy_str (opt_anchor options)
              && negb (existsb
                         (anchorMatches
                            (match opt_anchor options with Some a => a | None => EmptyString end))
                         matchingLinks)
           then
             t <- now ;;
             ret {| verified := false; pageUrl := pageUrl; targetDomain := targetDomain;
                    linksFound := Some matchingLinks; bestMatch := None; error := None;
                    message :=
                      "Links found but anchor text " ++ Str.quoted
                           (match opt_anchor options with Some a => a | None => EmptyString end)
                      ++ " not matched";
                    checkedAt := t |}
           else if Js.truthy_str (exactUrl options)
                   && negb (existsb
                              (fun l => match exactUrl options with
                                        | Some u => (href l =? u)%string
                                        | None => false
                                        end)
                              matchingLinks)
           then
             t <- now ;;
             ret {| verified := false; pageUrl := pageUrl; targetDomain := targetDomain;
                    linksFound := Some matchingLinks; bestMatch := None; error := None;
                    message :=
                      "Links found but exact URL " ++ Str.quoted
                           (match exactUrl options with Some u => u | None => EmptyString end)
                      ++ " not matched";
                    checkedAt := t |}
           else
             t <- now ;;
             ret {| verified := true; pageUrl := pageUrl; targetDomain := targetDomain;
                    linksFound := Some matchingLinks; bestMatch := Some bestMatch;
                    error := None;
                    message :=
                      "Found " ++ Str.ofNat (List.length matchingLinks)
                      ++ " link(s) to " ++ targetDomain;
                    checkedAt := t |}
     end)
    (fun err =>
       t <- now ;;
       ret {| verified := false; pageUrl := pageUrl; targetDomain := targetDomain;
              linksFound := None; bestMatch := None; error := Some err;
              message := "Failed to fetch page: " ++ err;
              checkedAt := t |}).

(** The loop of [batchVerify], with the results pushed so far. *)
Fixpoint batchLoop (fuel : nat) (checks : list Check) (results : list Result)
  : Async (list Result) :=
  match checks with
  | [] => ret results
  | check :: checks' =>
      result <- verifyBacklink fuel (check_pageUrl check) (check_targetDomain check)
                  (check_options check) ;;
      let results := (results ++ [result])%list in
      _ <- emit (Sleep 500) ;;
      batchLoop fuel checks' results
  end.

Definition batchVerify (fuel : nat) (checks : list Check) : Async (list Result) :=
  batchLoop fuel checks [].

End Run.

End Verify.

(* ================================================================== *)
(** * Nostr events, as the relay pool delivers them *)

Module Nostr.

Record Event := mkEvent {
  id : string;
  pubkey : string;
  kind : Z;
  created_at : Z;
  tags : list (list string);
  content : string
}.

(** A query filter: [kinds], [#t] and [#l]. *)
Record Filter := mkFilter {
  kinds : list Z;
  tag_t : list string;
  tag_l : list string
}.

(** [KINDS.LINK_BID] of src/config.js. *)
Definition LINK_BID : Z := 30079.

(** [RELAYS] of src/config.js. *)
Definition RELAYS : list string :=
  [ "wss://relay.damus.io"; "wss://nos.lol"; "wss://relay.nostr.band";
    "wss://nostr.wine"; "wss://relay.snort.social" ].

End Nostr.

(* ================================================================== *)
(** * [parseInt] *)

Module ParseInt.

(** The value of [c] as a digit of the given radix. *)
Definition digitVal (radix : N) (c : ascii) : option N :=
  let n := Str.code c in
  let v :=
    if ((48 <=? n) && (n <=? 57))%N then Some (n - 48)%N
    else if ((97 <=? n) && (n <=? 122))%N then Some (n - 87)%N
    else if ((65 <=? n) && (n <=? 90))%N then Some (n - 55)%N
    else None in
  match v with
  | Some d => if (d <? radix)%N then Some d else None
  | None => None
  end.

(** The longest prefix of digits, read from the left; [acc] is [None] until
    a digit has been read. *)
Fixpoint digits (radix : N) (s : string) (acc : option N) : option N :=
  match s with
  | String c s' =>
      match digitVal radix c with
      | Some d =>
          digits radix s'
            (Some (match acc with Some a => a * radix + d | None => d end)%N)
      | None => acc
      end
  | EmptyString => acc
  end.

(** [parseInt(x)] with no radix; [None] is [NaN].  The argument is
    converted to a string first, [undefined] to ["undefined"]. *)
Definition parseInt (x : option string) : option Z :=
  let s := Str.trimStart (match x with Some s => s | None => "undefined" end) in
  let '(sign, s) :=
    match s with
    | String c s' =>
        if Ascii.eqb c "-" then (-1, s')
        else if Ascii.eqb c "+" then (1, s')
        else (1, s)
    | EmptyString => (1, s)
    end in
  let '(radix, s) :=
    match s with
    | String c0 (String c1 s') =>
        if Ascii.eqb c0 "0" && (Ascii.eqb c1 "x" || Ascii.eqb c1 "X")
        then (16%N, s') else (10%N, s)
    | _ => (10%N, s)
    end in
  option_map (fun n => sign * Z.of_N n) (digits radix s None).

End ParseInt.

(* ================================================================== *)
(** * src/watch.js *)

Module Watch.
Import Js Nostr.


(** The callback [t => t[0] === 'expiry'] of [e.tags.find]. *)
Definition isExpiryTag (t : list string) : bool :=
  match nth_error t 0 with
  | Some k => (k =? "expiry")%string
  | None => false
  end.

(** The callback of [events.filter]. *)
Definition notExpired (now : Z) (e : Event) : bool :=
  match find isExpiryTag (tags e) with
  | None => true
  | Some expiryTag =>
      match ParseInt.parseInt (nth_error expiryTag 1) with
      | Some expiry => now <? expiry
      | None => false
      end
  end.

Definition activeBids (events : list Event) (now : Z) : list Event :=
  filter (notExpired now) events.


Section Query.

(** [querySync store filter]: what the pool answers from the events the
    relays hold. *)
Variable querySync : list Event -> Filter -> list Event.
(** [contentError c]: the message of the error thrown when the printing
    loop reads the bid [JSON.parse(c)] (a syntax error, or a [null]
    value), if any. *)
Variable contentError : string -> option string.



End Query.

End Watch.

(* ================================================================== *)
(** * src/bid.js *)

Module Bid.
Import Js Nostr.

(** The properties of a bid that the code reads. *)
Record Bid := mkBid {
  type : option string;
  industry : option string;
  sats : option Z;
  expiryDays : option Z
}.

(** One [relay.publish(event)] on the relay [url]. *)
Record Attempt := mkAttempt {
  relay : string;
  event : Event
}.

Definition strOr (o : option string) : string :=
  match o with Some s => s | None => "undefined" end.

Section Post.

(** [Date.now()]. *)
Variable nowMs : Z.
(** [parsePrivateKey(loadPrivateKey())]: the key, or the error thrown. *)
Variable privKey : Settled string.
(** [finalizeEvent(template, privKey)] fills in the identifier, the public
    key and the signature. *)
Variable finalizeEvent : Z -> Z -> list (list string) -> string -> string -> Event.
(** [JSON.stringify(bid)]. *)
Variable stringify : Bid -> string.

(** [postBid(bid)]: the settled promise and the publications attempted,
    in order.  A relay that fails is reported and skipped. *)
Definition postBid (bid : Bid) (log : list Attempt) : Settled unit * list Attempt :=
  match privKey with
  | Rejected e => (Rejected e, log)
  | Resolved key =>
      let bidId := "bid-" ++ Str.ofZ nowMs in
      let expiryDays :=
        if truthy_num (expiryDays bid)
        then match expiryDays bid with Some d => d | None => 7 end
        else 7 in
      let expiry := nowMs / 1000 + 86400 * expiryDays in
      let event :=
        finalizeEvent LINK_BID (nowMs / 1000)
          [ ["d"; bidId];
            ["t"; "abn-bid"];
            ["t"; strOr (type bid)];
            ["t"; strOr (industry bid)];
            ["L"; "abn"];
            ["l"; "link-bid"; "abn"];
            ["amount"; match sats bid with Some n => Str.ofZ n | None => "undefined" end];
            ["expiry"; Str.ofZ expiry] ]
          (stringify bid) key in
      (Resolved tt, (log ++ map (fun url => mkAttempt url event) RELAYS)%list)
  end.

End Post.

End Bid.

(* ================================================================== *)
(** * src/abn.js *)

Module Abn.
Import Js Bid.

Section Create.

Variable nowMs : Z.
Variable privKey : Settled string.
Variable finalizeEvent : Z -> Z -> list (list string) -> string -> string -> Nostr.Event.
Variable stringify : Bid -> string.

(** [ABN.createBid(bid)]. *)
Definition createBid (bid : Bid) (log : list Attempt) : Settled unit * list Attempt :=
  if negb (truthy_str (type bid))
     || negb (match type bid with
              | Some t => Js.includes ["seeking"; "offering"] t
              | None => false
              end)
  then (Rejected ("Bid must have type: " ++ Str.quoted "seeking" ++ " or "
                  ++ Str.quoted "offering"), log)
  else if negb (truthy_str (industry bid))
  then (Rejected "Bid must have an industry", log)
  else if negb (truthy_num (sats bid))
          && (match type bid with
              | Some t => (t =? "seeking")%string
              | None => false
              end)
  then (Rejected "Seeking bids must have sats amount", log)
  else postBid nowMs privKey finalizeEvent stringify bid log.

End Create.

End Abn.

(* ================================================================== *)
(** * The negotiation state machine *)

Module Deal.

(** Modelled from the spec: the statuses of a deal (section 4.4); the
    module that keeps deals, lib/state.js, is not among the sources. *)
Inductive Status :=
| INITIATED | PROPOSED | COUNTERED | ACCEPTED | PAID | PLACED
| VERIFYING | COMPLETED | FAILED.

(** Modelled from the spec: the variants of a negotiation message
    (section 3), which src/dm.js builds in [MessageTypes]. *)
Inductive Variant :=
| inquiry (regardingBidId text : string)
| counter (sats : Z) (terms : string)
| accept (paymentReference : string)
| paid (proof linkDetails : string)
| placed (liveUrl proofRef : string)
| verified (confirmed : bool) (notes : string).

Record Message := mkMessage {
  timestamp : Z;
  variant : Variant
}.

(** Modelled from the spec: what drives a deal, messages and the other
    rows of the transition table. *)
Inductive Event :=
| Msg (m : Message)
| PaymentSent
| VerifierResult (ok : bool) (reason : string)
| Reject
| Timeout.

(** Modelled from the spec: the state of one negotiation (section 3). *)
Record Deal := mkDeal {
  initiator : string;
  counterparty : string;
  status : Status;
  agreedSats : option Z;
  messageLog : list Message;
  verificationReason : option string
}.

Definition terminal (s : Status) : bool :=
  match s with
  | COMPLETED | FAILED => true
  | _ => false
  end.

(** Modelled from the spec: the transition table of the negotiation state
    machine; the module that keeps deals (lib/state.js, with
    [updateProposalStatus]) is not among the sources, only its type
    declarations ([LocalState]) and its exports are.  [transition s e] is
    the next status when [e] is a valid transition from [s], and [None]
    when it is not. *)
Definition transition (s : Status) (e : Event) : option Status :=
  match e with
  | Msg m =>
      match s, variant m with
      | INITIATED, counter _ _ => Some PROPOSED
      | (PROPOSED | COUNTERED), counter _ _ => Some COUNTERED
      | (PROPOSED | COUNTERED), accept _ => Some ACCEPTED
      | PAID, paid _ _ => Some PLACED
      | (PLACED | FAILED), placed _ _ => Some VERIFYING
      | _, _ => None
      end
  | PaymentSent =>
      match s with
      | ACCEPTED => Some PAID
      | _ => None
      end
  | VerifierResult ok _ =>
      match s with
      | VERIFYING => Some (if ok then COMPLETED else FAILED)
      | _ => None
      end
  | Reject | Timeout => if terminal s then None else Some FAILED
  end.

(** Modelled from the spec: a deal is created, [INITIATED], by the first
    message of a negotiation, an [inquiry]. *)
Definition create (initiator counterparty : string) (m : Message) : option Deal :=
  match variant m with
  | inquiry _ _ =>
      Some {| initiator := initiator; counterparty := counterparty;
              status := INITIATED; agreedSats := None;
              messageLog := [m]; verificationReason := None |}
  | _ => None
  end.

(** Modelled from the spec: one step of a deal.  Every message, sent or
    received, is appended to [messageLog]; the status moves only along a
    valid transition; a failed verification records its reason. *)
Definition step (d : Deal) (e : Event) : Deal :=
  let status' :=
    match transition (status d) e with
    | Some s => s
    | None => status d
    end in
  {| initiator := initiator d;
     counterparty := counterparty d;
     status := status';
     agreedSats :=
       match e with
       | Msg m =>
           match variant m, transition (status d) e with
           | counter sats _, Some _ => Some sats
           | _, _ => agreedSats d
           end
       | _ => agreedSats d
       end;
     messageLog :=
       match e with
       | Msg m => (messageLog d ++ [m])%list
       | _ => messageLog d
       end;
     verificationReason :=
       match e, transition (status d) e with
       | VerifierResult false reason, Some _ => Some reason
       | _, _ => verificationReason d
       end |}.

Definition run (d : Deal) (es : list Event) : Deal := fold_left step es d.

End Deal.

(* ================================================================== *)
(** * verify.js: the command line *)

Module Cli.
Import Js Verify.

(** [s.split(sep)] for a separator of one character: the pieces of [s]
    between the separators, at least one. *)
Fixpoint split (sep : ascii) (s : string) : list string :=
  match s with
  | EmptyString => [EmptyString]
  | String c s' =>
      if Ascii.eqb c sep then EmptyString :: split sep s'
      else match split sep s' with
           | piece :: pieces => String c piece :: pieces
           | [] => [String c EmptyString]
           end
  end.

(** [s.replace(/Q/g, '')] with [Q] the double quote. *)
Fixpoint removeQuotes (s : string) : string :=
  match s with
  | EmptyString => EmptyString
  | String c s' =>
      if Ascii.eqb c Str.dquote then removeQuotes s' else String c (removeQuotes s')
  end.

(** [flag.split('=')[1].replace(/Q/g, '')]; [None] where the second piece
    is [undefined] and the call of [replace] throws. *)
Definition flagValue (flag : string) : option string :=
  match nth_error (split "=" flag) 1 with
  | Some v => Some (removeQuotes v)
  | None => None
  end.

(** The body of the loop over the flags, for one flag; [None] where it
    throws. *)
Definition readFlag (options : Options) (flag : string) : option Options :=
  let options :=
    if (flag =? "--dofollow")%string
    then {| opt_anchor := opt_anchor options; dofollow := true;
            exactUrl := exactUrl options |}
    else options in
  match
    (if Str.startsWith flag "--anchor="
     then match flagValue flag with
          | Some v => Some {| opt_anchor := Some v; dofollow := dofollow options;
                              exactUrl := exactUrl options |}
          | None => None
          end
     else Some options)
  with
  | Some options =>
      if Str.startsWith flag "--exact="
      then match flagValue flag with
           | Some v => Some {| opt_anchor := opt_anchor options;
                               dofollow := dofollow options; exactUrl := Some v |}
           | None => None
           end
      else Some options
  | None => None
  end.

Fixpoint readFlags (options : Options) (flags : list string) : option Options :=
  match flags with
  | [] => Some options
  | flag :: flags' =>
      match readFlag options flag with
      | Some options' => readFlags options' flags'
      | None => None
      end
  end.

(** The options the command line passes to [verifyBacklink]: the empty
    object, updated by each flag in turn.  A [dofollow] that was never set
    is [undefined], which the verification reads like [false]. *)
Definition cliOptions (flags : list string) : option Options :=
  readFlags {| opt_anchor := None; dofollow := false; exactUrl := None |} flags.

End Cli.

(* ================================================================== *)
(** * Private keys in hexadecimal: register.js, bid.js, dm.js, keygen.js,
      test.ts *)

Module Hex.
Import Js.

(** [parseInt(s, 16)]; [None] is [NaN].  After the white space and the
    sign, a prefix [0x] or [0X] is skipped. *)
Definition parseInt16 (s : string) : option Z :=
  let s := Str.trimStart s in
  let '(sign, s) :=
    match s with
    | String c s' =>
        if Ascii.eqb c "-" then (-1, s')
        else if Ascii.eqb c "+" then (1, s')
        else (1, s)
    | EmptyString => (1, s)
    end in
  let s :=
    match s with
    | String c0 (String c1 s') =>
        if Ascii.eqb c0 "0" && (Ascii.eqb c1 "x" || Ascii.eqb c1 "X") then s' else s
    | _ => s
    end in
  option_map (fun n => sign * Z.of_N n) (ParseInt.digits 16 s None).

(** The element a [Uint8Array] stores for a number: [NaN] is stored as 0,
    an integer modulo 256. *)
Definition toUint8 (x : option Z) : Z :=
  match x with
  | Some n => n mod 256
  | None => 0
  end.

(** The line terminators below 256, which [.] does not match. *)
Definition isLineTerminator (c : ascii) : bool :=
  Ascii.eqb c "010" || Ascii.eqb c "013".

(** [key.match(/.{1,2}/g)]: the matches from left to right, two
    characters each where two can be had; the empty list stands for
    [null]. *)
Fixpoint chunks (s : string) : list string :=
  match s with
  | EmptyString => []
  | String a s' =>
      if isLineTerminator a then chunks s'
      else match s' with
           | EmptyString => [String a EmptyString]
           | String b s'' =>
               if isLineTerminator b then String a EmptyString :: chunks s'
               else String a (String b EmptyString) :: chunks s''
           end
  end.

Section Keys.

(** [nip19.decode(key).data], or the error thrown. *)
Variable decode : string -> Settled (list Z).

(** [parsePrivateKey(key)]: the bytes of the [Uint8Array], or the error
    thrown; [null.map] is a [TypeError]. *)
Definition parsePrivateKey (key : string) : Settled (list Z) :=
  if Str.startsWith key "nsec" then decode key
  else match chunks key with
       | [] => Rejected "Cannot read properties of null (reading 'map')"
       | matches => Resolved (map (fun b => toUint8 (parseInt16 b)) matches)
       end.

End Keys.

(** [hexToBytes(hex)] of src/test.ts: the array has [hex.length / 2]
    elements, rounded down, and the loop stores one byte for every two
    characters; the store for a last single character is out of range and
    ignored. *)
Fixpoint hexToBytes (hex : string) : list Z :=
  match hex with
  | String a (String b hex') =>
      toUint8 (parseInt16 (String a (String b EmptyString))) :: hexToBytes hex'
  | _ => []
  end.

(** One digit of [Buffer.prototype.toString('hex')]. *)
Definition hexDigit (n : Z) : ascii :=
  ascii_of_N (Z.to_N (if n <? 10 then 48 + n else 87 + n)).

(** [Buffer.from(bytes).toString('hex')] of src/keygen.js: two lower-case
    digits for each byte. *)
Fixpoint toHex (bytes : list Z) : string :=
  match bytes with
  | [] => EmptyString
  | b :: bytes' => String (hexDigit (b / 16)) (String (hexDigit (b mod 16)) (toHex bytes'))
  end.

End Hex.

(* ================================================================== *)
(** * src/dm.js *)

Module Dm.
Import Js Nostr.

(** [KINDS.ENCRYPTED_DM] of src/config.js. *)
Definition ENCRYPTED_DM : Z := 4.

(** The values of the properties of a message, as far as the code reads
    them: a number (an integer here), a string, a boolean, anything
    else. *)
Inductive Value :=
| VNum (n : Z)
| VStr (s : string)
| VBool (b : bool)
| VOther.

(** An object: its own properties, in order. *)
Definition Obj := list (string * Value).

(** [obj[k]]. *)
Fixpoint get (k : string) (obj : Obj) : option Value :=
  match obj with
  | [] => None
  | (k', v) :: obj' => if (k' =? k)%string then Some v else get k obj'
  end.

(** [obj[k] = v]: a property that exists keeps its place. *)
Fixpoint set (k : string) (v : Value) (obj : Obj) : Obj :=
  match obj with
  | [] => [(k, v)]
  | (k', v') :: obj' =>
      if (k' =? k)%string then (k, v) :: obj' else (k', v') :: set k v obj'
  end.

(** [{ ...base, ...more }]: the properties of [more] are set one after the
    other. *)
Definition spread (base more : Obj) : Obj :=
  fold_left (fun obj kv => set (fst kv) (snd kv) obj) more base.

(** The filter of [readDMs]. *)
Record DmFilter := mkDmFilter {
  f_kinds : list Z;
  f_p : list string;
  f_since : Z;
  f_authors : option (list string)
}.

(** The options of [readDMs]. *)
Record ReadOptions := mkReadOptions {
  opt_since : option Z;
  opt_from : option string
}.

(** One turn of the loop over the relays: the relay, the event, and
    whether connecting and publishing went through. *)
Record Delivery := mkDelivery {
  d_relay : string;
  d_event : Event;
  d_ok : bool
}.

Section Run.

(** [Date.now()]. *)
Variable nowMs : Z.
(** [parsePrivateKey(loadPrivateKey())]: the key, or the error thrown. *)
Variable privKey : Settled (list Z).
(** [getPublicKey(privKey)]. *)
Variable getPublicKey : list Z -> Settled string.
(** [nip19.decode(key).data] for a public key. *)
Variable decodeNpub : string -> Settled string.
(** [nip19.npubEncode(hex)]. *)
Variable npubEncode : string -> Settled string.
(** [nip04.encrypt(privKey, pubkey, plaintext)] and [nip04.decrypt]. *)
Variable encrypt : list Z -> string -> string -> Settled string.
Variable decrypt : list Z -> string -> string -> Settled string.
(** [finalizeEvent({kind, created_at, tags, content}, privKey)]. *)
Variable finalizeEvent : Z -> Z -> list (list string) -> string -> list Z -> Event.
(** [JSON.stringify(message)]. *)
Variable stringify : Obj -> string.
(** [JSON.parse(plaintext)], as the properties that a spread copies from
    the value, or the error thrown. *)
Variable parse : string -> Settled Obj.
(** [new Date(ms).toISOString()], which throws out of the range of dates. *)
Variable toISOString : Z -> Settled string.
(** Whether connecting to the relay and publishing the event go through. *)
Variable accepts : string -> Event -> bool.
(** [pool.querySync(relays, filter)]. *)
Variable querySync : list string -> DmFilter -> list Event.
(** The number a value converts to in a subtraction; [None] is [NaN]. *)
Variable toNumber : Value -> option Z.

Definition parsePublicKey (key : string) : Settled string :=
  if Str.startsWith key "npub" then decodeNpub key else Resolved key.

(** The loop of [sendDM] over the relays: [success] counts the relays that
    accepted, [log] records every turn. *)
Fixpoint publish (urls : list string) (event : Event) (success : Z)
    (log : list Delivery) : Z * list Delivery :=
  match urls with
  | [] => (success, log)
  | url :: urls' =>
      let ok := accepts url event in
      publish urls' event (if ok then success + 1 else success)
        (log ++ [mkDelivery url event ok])%list
  end.

(** [sendDM(recipientPubkey, message)]: the settled promise and the turns
    of the loop over the relays. *)
Definition sendDM (recipientPubkey : string) (message : Obj)
  : Settled Event * list Delivery :=
  match privKey with
  | Rejected e => (Rejected e, [])
  | Resolved key =>
      match getPublicKey key with
      | Rejected e => (Rejected e, [])
      | Resolved pubkey =>
          match parsePublicKey recipientPubkey with
          | Rejected e => (Rejected e, [])
          | Resolved recipientHex =>
              let plaintext := stringify message in
              match encrypt key recipientHex plaintext with
              | Rejected e => (Rejected e, [])
              | Resolved ciphertext =>
                  let event :=
                    finalizeEvent ENCRYPTED_DM (nowMs / 1000)
                      [["p"; recipientHex]] ciphertext key in
                  let '(success, log) := publish (firstn 3 RELAYS) event 0 [] in
                  if success =? 0
                  then (Rejected "Failed to publish to any relay", log)
                  else (Resolved event, log)
              end
          end
      end
  end.

(** The body of the [try] in the loop of [readDMs]: the message pushed
    for an event, or the error caught. *)
Definition envelope (key : list Z) (event : Event) : Settled Obj :=
  match decrypt key (pubkey event) (content event) with
  | Rejected e => Rejected e
  | Resolved plaintext =>
      match parse plaintext with
      | Rejected e => Rejected e
      | Resolved parsed =>
          match npubEncode (pubkey event) with
          | Rejected e => Rejected e
          | Resolved from =>
              match toISOString (created_at event * 1000) with
              | Rejected e => Rejected e
              | Resolved date =>
                  Resolved
                    (spread
                       [ ("id", VStr (id event));
                         ("from", VStr from);
                         ("fromHex", VStr (pubkey event));
                         ("timestamp", VNum (created_at event));
                         ("date", VStr date) ]
                       parsed)
              end
          end
      end
  end.

(** The loop of [readDMs]: an event whose message cannot be built is
    skipped. *)
Fixpoint collect (key : list Z) (events : list Event) (messages : list Obj)
  : list Obj :=
  match events with
  | [] => messages
  | event :: events' =>
      match envelope key event with
      | Resolved message => collect key events' (messages ++ [message])%list
      | Rejected _ => collect key events' messages
      end
  end.

(** [x.timestamp] as a number. *)
Definition timestampOf (x : Obj) : option Z :=
  match get "timestamp" x with
  | Some v => toNumber v
  | None => None
  end.

(** The comparator [(a, b) => b.timestamp - a.timestamp]; the sort reads a
    result of [NaN] as 0. *)
Definition byTimestamp (a b : Obj) : Z :=
  match timestampOf b, timestampOf a with
  | Some tb, Some ta => tb - ta
  | _, _ => 0
  end.

(** [readDMs(options)]. *)
Definition readDMs (options : ReadOptions) : Settled (list Obj) :=
  match privKey with
  | Rejected e => Rejected e
  | Resolved key =>
      match getPublicKey key with
      | Rejected e => Rejected e
      | Resolved pubkey =>
          let since :=
            if truthy_num (opt_since options)
            then match opt_since options with Some s => s | None => 0 end
            else nowMs / 1000 - 86400 * 7 in
          let authors :=
            if truthy_str (opt_from options)
            then match opt_from options with
                 | Some f => Some (parsePublicKey f)
                 | None => None
                 end
            else None in
          match authors with
          | Some (Rejected e) => Rejected e
          | _ =>
              let filter :=
                {| f_kinds := [ENCRYPTED_DM]; f_p := [pubkey]; f_since := since;
                   f_authors := match authors with
                                | Some (Resolved a) => Some [a]
                                | _ => None
                                end |} in
              let events := querySync (firstn 3 RELAYS) filter in
              let messages := collect key events [] in
              Resolved (Js.sort byTimestamp messages)
          end
      end
  end.

End Run.

End Dm.

(** [MessageTypes] of src/dm.js: every message carries its type, its
    fields, and the time of its making as an ISO string. *)
Module MessageTypes.
Import Dm.

Section Make.

(** [new Date().toISOString()]. *)
Variable isoNow : string.

Definition inquiry (bidId message : Value) : Obj :=
  [ ("type", VStr "inquiry"); ("regarding", bidId); ("message", message);
    ("timestamp", VStr isoNow) ].

Definition counter (sats terms : Value) : Obj :=
  [ ("type", VStr "counter"); ("sats", sats); ("terms", terms);
    ("timestamp", VStr isoNow) ].

Definition accept (invoice : Value) : Obj :=
  [ ("type", VStr "accept"); ("invoice", invoice); ("timestamp", VStr isoNow) ].

Definition paid (preimage linkDetails : Value) : Obj :=
  [ ("type", VStr "paid"); ("preimage", preimage); ("linkDetails", linkDetails);
    ("timestamp", VStr isoNow) ].

Definition placed (liveUrl proof : Value) : Obj :=
  [ ("type", VStr "placed"); ("liveUrl", liveUrl); ("proof", proof);
    ("timestamp", VStr isoNow) ].

Definition verified (confirmed notes : Value) : Obj :=
  [ ("type", VStr "verified"); ("confirmed", confirmed); ("notes", notes);
    ("timestamp", VStr isoNow) ].

End Make.

End MessageTypes.

(* ================================================================== *)
(** * src/abn.js: [executeDeal] *)

Module Exec.
Import Js Dm.

(** The properties of a deal that [executeDeal] reads. *)
Record DealConfig := mkDealConfig {
  inquiry : option string;
  partner : string;
  bidId : Value;
  invoice : option string;
  role : option string;
  linkDetails : Value;
  sats : option Z;
  verifyUrl : option string;
  targetDomain : option string;
  requireDofollow : option bool
}.

(** What [payInvoice] and [createInvoice] resolve to, as far as it is
    read. *)
Record Payment := mkPayment { preimage : Value }.
Record Invoice := mkInvoice { paymentRequest : Value; paymentHash : Value }.

(** The operations on the network, in the order they are started. *)
Inductive Op :=
| SentDM (npub : string) (message : Obj)
| Paid (bolt11 : string)
| Invoiced (sats : Z) (dealId : Value)
| Slept (ms : Z)
| Checked (pageUrl targetDomain : string) (options : Verify.Options).

(** What [executeDeal] returns. *)
Record Outcome := mkOutcome {
  o_invoice : option Invoice;
  o_verification : option Verify.Result;
  o_steps : list string
}.

(** A computation that starts operations and may throw. *)
Definition M (A : Type) : Type := list Op -> Settled A * list Op.

Definition ret {A} (a : A) : M A := fun t => (Resolved a, t).

Definition bind {A B} (m : M A) (f : A -> M B) : M B :=
  fun t =>
    match m t with
    | (Resolved a, t') => f a t'
    | (Rejected e, t') => (Rejected e, t')
    end.

Notation "x <- m ;; f" := (bind m (fun x => f))
  (at level 61, m at next level, right associativity).

Section Run.

(** [new Date().toISOString()] after the given operations. *)
Variable isoNow : list Op -> string.
(** [sendDM(npub, message)] after the given operations: the message of
    the error it is rejected with, if it is. *)
Variable dmError : list Op -> string -> Obj -> option string.
(** [payInvoice(bolt11)] and [createInvoice(sats, dealId)] of
    src/lightning.js. *)
Variable pay : list Op -> string -> Settled Payment.
Variable makeInvoice : list Op -> Z -> Value -> Settled Invoice.
(** [verifyBacklink(pageUrl, targetDomain, options)], whose promise is
    never rejected. *)
Variable verify : list Op -> string -> string -> Verify.Options -> Verify.Result.

(** [sendDM(npub, make(...))] for a message of [MessageTypes], which is
    made, with the time of its making, before it is sent. *)
Definition send (npub : string) (make : string -> Obj) : M unit :=
  fun t =>
    let message := make (isoNow t) in
    let t' := (t ++ [SentDM npub message])%list in
    match dmError t npub message with
    | Some e => (Rejected e, t')
    | None => (Resolved tt, t')
    end.

Definition payInvoice (bolt11 : string) : M Payment :=
  fun t => (pay t bolt11, (t ++ [Paid bolt11])%list).

Definition createInvoice (sats : Z) (dealId : Value) : M Invoice :=
  fun t => (makeInvoice t sats dealId, (t ++ [Invoiced sats dealId])%list).

Definition sleep (ms : Z) : M unit :=
  fun t => (Resolved tt, (t ++ [Slept ms])%list).

Definition verifyLink (pageUrl targetDomain : string) (options : Verify.Options)
  : M Verify.Result :=
  fun t => (Resolved (verify t pageUrl targetDomain options),
            (t ++ [Checked pageUrl targetDomain options])%list).

Definition strOf (o : option string) : string :=
  match o with Some s => s | None => EmptyString end.

(** [executeDeal(deal)]. *)
Definition executeDeal (deal : DealConfig) : M Outcome :=
  let steps := [] in
  (* Step 1: inquiry *)
  steps <-
    (if truthy_str (inquiry deal)
     then
       _ <- send (partner deal)
              (fun iso => MessageTypes.inquiry iso (bidId deal)
                            (VStr (strOf (inquiry deal)))) ;;
       ret (steps ++ ["inquiry_sent"])%list
     else ret steps) ;;
  (* Step 2: the buyer pays the invoice *)
  steps <-
    (if truthy_str (invoice deal)
        && match role deal with Some r => (r =? "buyer")%string | None => false end
     then
       payment <- payInvoice (strOf (invoice deal)) ;;
       let steps := (steps ++ ["payment_sent"])%list in
       _ <- send (partner deal)
              (fun iso => MessageTypes.paid iso (preimage payment) (linkDetails deal)) ;;
       ret (steps ++ ["payment_confirmed"])%list
     else ret steps) ;;
  (* Step 3: the seller sends an invoice *)
  if truthy_num (sats deal)
     && match role deal with Some r => (r =? "seller")%string | None => false end
  then
    invoice <- createInvoice (match sats deal with Some n => n | None => 0 end)
                 (bidId deal) ;;
    _ <- send (partner deal)
           (fun iso => MessageTypes.accept iso (paymentRequest invoice)) ;;
    let steps := (steps ++ ["invoice_sent"])%list in
    ret {| o_invoice := Some invoice; o_verification := None; o_steps := steps |}
  else
    (* Step 4: the link is verified *)
    if truthy_str (verifyUrl deal) && truthy_str (targetDomain deal)
    then
      _ <- sleep 5000 ;;
      verification <-
        verifyLink (strOf (verifyUrl deal)) (strOf (targetDomain deal))
          {| Verify.opt_anchor := None;
             Verify.dofollow := truthy_bool (requireDofollow deal);
             Verify.exactUrl := None |} ;;
      let steps := (steps ++ ["link_verified"])%list in
      _ <- send (partner deal)
             (fun iso =>
                MessageTypes.verified iso (VBool (Verify.verified verification))
                  (VStr (if Verify.verified verification then "Link verified!"
                         else Verify.message verification))) ;;
      let steps := (steps ++ ["deal_complete"])%list in
      ret {| o_invoice := None; o_verification := Some verification;
             o_steps := steps |}
    else
      ret {| o_invoice := None; o_verification := None; o_steps := steps |}.

End Run.

End Exec.

(* ================================================================== *)
(** * src/query.js: [querySites]; src/abn.js: [findExchangePartners] *)

Module Sites.
Import Js Nostr Query.

(** [KINDS.SITE_REGISTRATION] of src/config.js. *)
Definition SITE_REGISTRATION : Z := 30078.

Record SiteFilters := mkSiteFilters {
  filters_industry : option string;
  filters_state : option string
}.

(** The filter that [querySites] sends: [filters.industry], when given, is
    pushed onto [#t]. *)
Definition siteFilter (filters : SiteFilters) : Filter :=
  {| kinds := [SITE_REGISTRATION];
     tag_t := (["abn-site"] ++
               (if truthy_str (filters_industry filters)
                then match filters_industry filters with
                     | Some i => [i]
                     | None => []
                     end
                else []))%list;
     tag_l := ["site-registration"] |}.

(** The object that the callback of [events.map] builds for an event, as
    far as it is read afterwards: the properties of a site, and [npub],
    which is the encoded key of the event unless the content of the event
    sets it. *)
Record Listed := mkListed {
  l_site : Site;
  l_npub : Dm.Value
}.

Section Run.

(** [querySync store filter]: what the pool answers from the events the
    relays hold. *)
Variable querySync : list Event -> Filter -> list Event.
(** The callback of [events.map] at an event: the object built, or the
    error thrown by [JSON.parse] or by [nip19.npubEncode]. *)
Variable readSite : Event -> Settled Listed.
(** The message of the error thrown by [site.npub.slice(0, 20)], if any:
    none for a string. *)
Variable sliceError : Dm.Value -> option string.

(** [events.map(...)]: the first error thrown ends it. *)
Fixpoint readAll (events : list Event) : Settled (list Listed) :=
  match events with
  | [] => Resolved []
  | e :: events' =>
      match readSite e with
      | Rejected m => Rejected m
      | Resolved s =>
          match readAll events' with
          | Rejected m => Rejected m
          | Resolved sites => Resolved (s :: sites)
          end
      end
  end.

(** [s.da || 0]. *)
Definition daOrZero (s : Listed) : Z :=
  match da (l_site s) with
  | Some d => d
  | None => 0
  end.

(** The loop that prints the sites. *)
Fixpoint printSites (sites : list Listed) : Settled unit :=
  match sites with
  | [] => Resolved tt
  | s :: sites' =>
      match sliceError (l_npub s) with
      | Some m => Rejected m
      | None => printSites sites'
      end
  end.

(** [querySites(filters)] against the events [store] held by the
    relays. *)
Definition querySites (filters : SiteFilters) (store : list Event)
  : Settled (list Listed) :=
  let events := querySync store (siteFilter filters) in
  match readAll events with
  | Rejected m => Rejected m
  | Resolved sites =>
      let filtered :=
        if truthy_str (filters_state filters)
        then filter
               (fun s =>
                  match filters_state filters with
                  | Some st => (state (l_site s) =? st)%string
                  | None => false
                  end)
               sites
        else sites in
      let filtered := Js.sort (fun a b => daOrZero b - daOrZero a) filtered in
      match printSites filtered with
      | Rejected m => Rejected m
      | Resolved _ => Resolved filtered
      end
  end.

(** [ABN.findExchangePartners(yourSite, filters)]. *)
Definition findExchangePartners (yourSite : Site) (filters : SiteFilters)
    (store : list Event) : Settled (list Match) :=
  match querySites filters store with
  | Rejected m => Rejected m
  | Resolved allSites => Resolved (findMatches yourSite (map l_site allSites))
  end.

End Run.

End Sites.

(* ================================================================== *)
(** * src/register.js, and [ABN.registerSite] of src/abn.js *)

Module Register.
Import Js Nostr.

(** The properties of a site that the registration reads. *)
Record SiteInput := mkSiteInput {
  s_name : option string;
  s_url : option string;
  s_city : option string;
  s_state : option string;
  s_industry : option string;
  s_type : option string;
  s_da : option Z;
  s_wantLinks : option (list string);
  s_canOffer : option (list string)
}.

(** The object that is written as the content of the event; a [da] of
    [None] is [null]. *)
Record Content := mkContent {
  c_name : option string;
  c_url : option string;
  c_city : option string;
  c_state : option string;
  c_industry : option string;
  c_da : option Z;
  c_wantLinks : list string;
  c_canOffer : list string;
  c_registeredAt : string
}.

Section Run.

(** [Date.now()] and [new Date().toISOString()]. *)
Variable nowMs : Z.
Variable isoNow : string.
(** [parsePrivateKey(loadPrivateKey())], checked by [getPublicKey]: the
    key, or the error thrown. *)
Variable privKey : Settled (list Z).
Variable finalizeEvent : Z -> Z -> list (list string) -> string -> list Z -> Event.
(** [JSON.stringify] of the content. *)
Variable stringify : Content -> string.
(** Whether connecting to the relay and publishing the event go through. *)
Variable accepts : string -> Event -> bool.

Definition contentOf (site : SiteInput) : Content :=
  {| c_name := s_name site;
     c_url := s_url site;
     c_city := s_city site;
     c_state := s_state site;
     c_industry := s_industry site;
     c_da := if truthy_num (s_da site) then s_da site else None;
     c_wantLinks := match s_wantLinks site with Some l => l | None => ["homepage"] end;
     c_canOffer := match s_canOffer site with
                   | Some l => l
                   | None => ["footer"; "partners-page"]
                   end;
     c_registeredAt := isoNow |}.

(** The loop over the relays: an error of a relay is printed, and the loop
    goes on. *)
Fixpoint publish (urls : list string) (event : Event) (log : list Dm.Delivery)
  : list Dm.Delivery :=
  match urls with
  | [] => log
  | url :: urls' =>
      publish urls' event (log ++ [Dm.mkDelivery url event (accepts url event)])%list
  end.

(** [registerSite(site)] of src/register.js: the settled promise and the
    turns of the loop over the relays. *)
Definition registerSite (site : SiteInput) : Settled unit * list Dm.Delivery :=
  match privKey with
  | Rejected e => (Rejected e, [])
  | Resolved key =>
      let event :=
        finalizeEvent Sites.SITE_REGISTRATION (nowMs / 1000)
          [ ["d"; Bid.strOr (s_url site)];
            ["t"; "abn-site"];
            ["t"; Bid.strOr (s_industry site)];
            ["t"; if truthy_str (s_type site) then Bid.strOr (s_type site)
                  else "local-business"];
            ["L"; "abn"];
            ["l"; "site-registration"; "abn"] ]
          (stringify (contentOf site)) key in
      (Resolved tt, publish RELAYS event [])
  end.

(** [site[field]] for the names in [required]. *)
Definition required (site : SiteInput) : list (string * option string) :=
  [ ("name", s_name site); ("url", s_url site); ("city", s_city site);
    ("state", s_state site); ("industry", s_industry site) ].

(** The loop over [required]: the error thrown, if any. *)
Fixpoint checkRequired (fields : list (string * option string)) : option string :=
  match fields with
  | [] => None
  | (field, value) :: fields' =>
      if negb (truthy_str value)
      then Some ("Missing required field: " ++ field)
      else checkRequired fields'
  end.

(** [ABN.registerSite(site)] of src/abn.js. *)
Definition abnRegisterSite (site : SiteInput) : Settled unit * list Dm.Delivery :=
  match checkRequired (required site) with
  | Some message => (Rejected message, [])
  | None => registerSite site
  end.

End Run.

End Register.

(* ================================================================== *)
(** * Vocabulary of the properties *)

Module Spec.
Import Query.







(** The candidates that [rank] keeps, in input order: not the requester's
    own url, and a score above 30. *)
Definition kept (requester : Site) (candidates : list Site) : list Site :=
  filter (fun c => negb (url c =? url requester)%string && (30 <? score requester c))
    candidates.

Definition annotate (requester : Site) (c : Site) : Match :=
  mkMatch c (score requester c).

(** Decreasing order of a key. *)
Definition desc {A : Type} (key : A -> Z) (a b : A) : Prop := key b <= key a.

End Spec.

(** ** Vocabulary of the link verifier *)

Module VSpec.
Import Js Verify.

(** Every character of [s] is in the class [p]. *)
Fixpoint every (p : ascii -> bool) (s : string) : bool :=
  match s with
  | EmptyString => true
  | String c s' => p c && every p s'
  end.


(** The texts an item of a pattern matches. *)
Inductive Matches : Str.item -> string -> Prop :=
| matches_one : forall p c, p c = true -> Matches (Str.One p) (String c EmptyString)
| matches_many0 : forall p s, every p s = true -> Matches (Str.Many0 p) s
| matches_many1 : forall p c s,
    p c = true -> every p s = true -> Matches (Str.Many1 p) (String c s).

(** [html] contains an anchor element whose opening tag carries the quoted
    href [value] and whose body [body], up to the closing tag, has no ['<']:
    the opening [<a], white space, attribute text without ['>'] around
    [href = Q value Q], then ['>'], the body and [</a>]. *)
Definition AnchorMarkup (html value body : string) : Prop :=
  exists pre opening ws attrs1 hrefWord ws1 ws2 q1 q2 attrs2 closing post,
    html = pre ++ opening ++ ws ++ attrs1 ++ hrefWord ++ ws1 ++ "=" ++ ws2
           ++ String q1 value ++ String q2 attrs2 ++ ">" ++ body ++ closing ++ post
    /\ Str.toLowerCase opening = "<a"
    /\ ws <> EmptyString /\ every Str.isSpace ws = true
    /\ every (Str.non (Str.lit ">")) attrs1 = true
    /\ Str.toLowerCase hrefWord = "href"
    /\ every Str.isSpace ws1 = true /\ every Str.isSpace ws2 = true
    /\ Str.isQuote q1 = true /\ Str.isQuote q2 = true
    /\ value <> EmptyString /\ every (Str.non Str.isQuote) value = true
    /\ every (Str.non (Str.lit ">")) attrs2 = true
    /\ every (Str.non (Str.lit "<")) body = true
    /\ Str.toLowerCase closing = "</a>".

(** The failure a terminal reply stands for, if any. *)
Definition failure (r : NetReply) : option string :=
  match r with
  | NetError m => Some m
  | NetTimeout => Some "Request timed out"
  | NetResponse statusCode _ _ =>
      if statusCode =? 200 then None else Some ("HTTP " ++ Str.ofZ statusCode)
  end.

(** The location a reply redirects to, if it is a redirect. *)
Definition redirects (r : NetReply) : option string :=
  match r with
  | NetResponse statusCode (Some loc) _ =>
      if (300 <=? statusCode) && (statusCode <? 400) && negb (loc =? EmptyString)%string
      then Some loc else None
  | _ => None
  end.

(** What [fetchPage] settles to on a terminal reply. *)
Definition outcome (r : NetReply) : Settled string :=
  match failure r with
  | Some m => Rejected m
  | None =>
      match r with
      | NetResponse _ _ body => Resolved body
      | _ => Rejected EmptyString
      end
  end.

(** The result of a verification whose fetch failed with [err]. *)
Definition fetchFailed (pageUrl targetDomain err t : string) : Result :=
  {| verified := false; pageUrl := pageUrl; targetDomain := targetDomain;
     linksFound := None; bestMatch := None; error := Some err;
     message := "Failed to fetch page: " ++ err;
     checkedAt := t |}.

(** The result of a verification that found no link to the target. *)
Definition noLinks (pageUrl targetDomain t : string) : Result :=
  {| verified := false; pageUrl := pageUrl; targetDomain := targetDomain;
     linksFound := None; bestMatch := None; error := None;
     message := "No links found to target domain";
     checkedAt := t |}.

Section Run.
Variable net : World -> string -> NetReply.
Variable clock : World -> string.
Variable urlHref : string -> string -> option string.
Variable urlHostname : string -> string -> option string.

(** [Terminal url w reply w']: the requests that start with [url] after [w]
    follow redirects up to the terminal reply [reply], and leave [w']. *)
Inductive Terminal : string -> World -> NetReply -> World -> Prop :=
| terminal_reply : forall url w,
    redirects (net w url) = None ->
    Terminal url w (net w url) (w ++ [Request url])%list
| terminal_follow : forall url w loc next reply w',
    redirects (net w url) = Some loc ->
    (if Str.startsWith loc "http" then Some loc else urlHref loc url) = Some next ->
    Terminal next (w ++ [Request url])%list reply w' ->
    Terminal url w reply w'.

(** A link satisfies all the active constraints: the target domain, and
    each of dofollow, anchor text and exact href that is set. *)
Definition satisfiesAll (pageUrl targetDomain : string) (options : Options)
    (l : Link) : bool :=
  pointsTo urlHostname pageUrl targetDomain l
  && (if dofollow options then isDoFollow l else true)
  && (match opt_anchor options with
      | Some a => if (a =? EmptyString)%string then true else anchorMatches a l
      | None => true
      end)
  && (match exactUrl options with
      | Some u => if (u =? EmptyString)%string then true else (href l =? u)%string
      | None => true
      end).

(** The constraints that select [bestMatch]: the target domain, and
    dofollow when it is set. *)
Definition selects (pageUrl targetDomain : string) (options : Options)
    (l : Link) : bool :=
  pointsTo urlHostname pageUrl targetDomain l
  && (if dofollow options then isDoFollow l else true).


(** The effects of one fetch: the request for [url], then the requests
    for the pages it was redirected to. *)
Definition FetchTrace (url : string) (t : list Effect) : Prop :=
  exists redirected,
    t = (Request url :: map Request redirected)%list.



End Run.

End VSpec.

(** ** Pages used as examples *)

Module Pages.
Import Js Verify.

(** A site that answers every request with the same page. *)
Definition serves (body : string) : World -> string -> NetReply :=
  fun _ _ => NetResponse 200 None body.

(** Two plain links to the target, with different anchor texts. *)
Definition twoLinks : string :=
  "<a href=" ++ Str.quoted "https://target.example/a" ++ ">first</a>"
  ++ "<a href=" ++ Str.quoted "https://target.example/b" ++ ">second</a>".

Definition firstLink : Link :=
  {| href := "https://target.example/a"; anchor := "first"; rel := EmptyString;
     isDoFollow := true; isSponsored := false; isUGC := false |}.

Definition secondLink : Link :=
  {| href := "https://target.example/b"; anchor := "second"; rel := EmptyString;
     isDoFollow := true; isSponsored := false; isUGC := false |}.

(** The anchor text ["second"] is required. *)
Definition wantSecond : Options :=
  {| opt_anchor := Some "second"; dofollow := false; exactUrl := None |}.

Definition noOptions : Options :=
  {| opt_anchor := None; dofollow := false; exactUrl := None |}.



(** A site whose first page is missing and whose other pages carry a plain
    link to the target. *)
Definition missingThenLinked : World -> string -> NetReply :=
  fun _ url =>
    if (url =? "https://a.example/gone")%string
    then NetResponse 404 None "Not Found"
    else NetResponse 200 None twoLinks.

(** A site that moved [/old] to [/new], which is missing; relative
    locations are resolved against the site. *)
Definition moved : World -> string -> NetReply :=
  fun _ url =>
    if (url =? "https://a.example/old")%string
    then NetResponse 301 (Some "/new") EmptyString
    else NetResponse 404 None "Not Found".

Definition onSite (loc base : string) : option string :=
  Some ("https://a.example" ++ loc).

Definition twoChecks : list Check :=
  [ mkCheck "https://a.example/gone" "target.example" noOptions;
    mkCheck "https://b.example/partners" "target.example" noOptions ].

End Pages.

(** ** Vocabulary of bids *)

Module BSpec.
Import Js Nostr Bid.


(** The event carries the expiry timestamp [expiry]: its first [expiry] tag
    holds a value that reads as the integer [expiry]. *)
Definition hasExpiry (e : Event) (expiry : Z) : Prop :=
  exists expiryTag,
    find Watch.isExpiryTag (tags e) = Some expiryTag
    /\ ParseInt.parseInt (nth_error expiryTag 1) = Some expiry.


(** The bid is refused by the checks of [createBid]: its type is neither
    [seeking] nor [offering], or its industry is missing or empty, or it is
    a seeking bid whose [sats] is missing or zero. *)
Definition Refused (bid : Bid) : Prop :=
  ~ (type bid = Some "seeking" \/ type bid = Some "offering")
  \/ (industry bid = None \/ industry bid = Some EmptyString)
  \/ (type bid = Some "seeking" /\ (sats bid = None \/ sats bid = Some 0)).

(** The bid lacks a positive [sats] offer. *)
Definition lacksPositiveSats (bid : Bid) : Prop :=
  ~ exists n, sats bid = Some n /\ 0 < n.

(** A signer for examples: the identifier and the signature are left
    empty. *)
Definition plainEvent (kind created_at : Z) (tags : list (list string))
    (content key : string) : Event :=
  {| id := EmptyString; pubkey := key; kind := kind; created_at := created_at;
     tags := tags; content := content |}.

Definition noContent (b : Bid) : string := EmptyString.

(** A seeking bid that offers a negative amount. *)
Definition negativeOffer : Bid :=
  {| type := Some "seeking"; industry := Some "plumbing"; sats := Some (-5);
     expiryDays := None |}.

(** A seeking bid that offers 5000 sats. *)
Definition goodOffer : Bid :=
  {| type := Some "seeking"; industry := Some "plumbing"; sats := Some 5000;
     expiryDays := None |}.

(** A bid event that expires at 1700000000, and one that never does. *)
Definition expiring : Event :=
  plainEvent LINK_BID 1699000000
    [["d"; "bid-1"]; ["t"; "abn-bid"]; ["expiry"; "1700000000"]] EmptyString "k".

Definition unlimited : Event :=
  plainEvent LINK_BID 1699000000 [["d"; "bid-2"]; ["t"; "abn-bid"]] EmptyString "k".

End BSpec.

(** ** Deals used as examples *)

Module DSpec.
Import Deal.

Definition msg (ts : Z) (v : Variant) : Event := Msg (mkMessage ts v).

(** A deal opened by an inquiry. *)
Definition opened : Deal :=
  {| initiator := "npub-buyer"; counterparty := "npub-seller";
     status := INITIATED; agreedSats := None;
     messageLog := [mkMessage 1 (inquiry "bid-1" "Interested in a link")];
     verificationReason := None |}.

(** The deal after a counter-offer and its acceptance. *)
Definition accepted : Deal :=
  run opened [msg 2 (counter 4000 "footer link"); msg 3 (accept "lnbc40u")].

(** A second [accept]. *)
Definition acceptAgain : Message := mkMessage 4 (accept "lnbc40u").

(** The events after the acceptance, up to a failed verification. *)
Definition toFailedCheck : list Event :=
  [ PaymentSent; msg 5 (paid "preimage" "https://buyer.example");
    msg 6 (placed "https://seller.example/partners" "shot-1");
    VerifierResult false "No links found to target domain" ].

(** The seller places the link again, and the verification succeeds. *)
Definition retry : list Event :=
  [ msg 8 (placed "https://seller.example/partners" "shot-2");
    VerifierResult true EmptyString ].

End DSpec.


(* ================================================================== *)
(** * Vocabulary of the further properties *)

Module LSpec.
Import Js Verify.

(** [s] without its first [n] characters. *)
Fixpoint dropStr (n : nat) (s : string) : string :=
  match n, s with
  | O, _ => s
  | S n', String _ s' => dropStr n' s'
  | S _, EmptyString => EmptyString
  end.

(** The texts [ms] occur in [s] one after the other, without overlap. *)
Fixpoint InOrder (ms : list string) (s : string) : Prop :=
  match ms with
  | [] => True
  | m :: ms' => exists pre post, s = (pre ++ m ++ post)%string /\ InOrder ms' post
  end.

(** A text that does not start with white space. *)
Definition startsClean (s : string) : Prop :=
  match s with
  | String c _ => Str.isSpace c = false
  | EmptyString => True
  end.

End LSpec.

Module MorePages.
Import Js Verify.

(** A link to the target whose [rel] is written with capitals. *)
Definition capitals : string :=
  "<a href=" ++ Str.quoted "https://target.example/" ++ " rel="
  ++ Str.quoted "NoFollow" ++ ">Target</a>".

Definition capitalsLink : Link :=
  {| href := "https://target.example/"; anchor := "Target"; rel := "nofollow";
     isDoFollow := true; isSponsored := false; isUGC := false |}.

(** Only dofollow links are accepted. *)
Definition wantDofollow : Options :=
  {| opt_anchor := None; dofollow := true; exactUrl := None |}.

(** A site that answers every request with a redirect to its front page. *)
Definition looping : World -> string -> NetReply :=
  fun _ _ => NetResponse 302 (Some "https://a.example/") EmptyString.

(** A page whose only link goes to another site, with the target domain in
    its query string. *)
Definition foreign : string :=
  "<a href=" ++ Str.quoted "https://other.example/?ref=target.example" ++ ">Other</a>".

Definition foreignLink : Link :=
  {| href := "https://other.example/?ref=target.example"; anchor := "Other";
     rel := EmptyString; isDoFollow := true; isSponsored := false; isUGC := false |}.

End MorePages.

Module MSpec.
Import Js Verify.

(** The links to the target meet the constraints that are set, each
    constraint by some link: there is a link to the target; a dofollow one
    if dofollow is required; one whose anchor text contains the required
    text, whatever the case of the letters; one with the required href. *)
Definition Meets (links : list Link) (options : Options) : Prop :=
  links <> []
  /\ (dofollow options = true -> exists l, In l links /\ isDoFollow l = true)
  /\ (forall a, opt_anchor options = Some a -> a <> EmptyString ->
        exists l, In l links /\ anchorMatches a l = true)
  /\ (forall u, exactUrl options = Some u -> u <> EmptyString ->
        exists l, In l links /\ href l = u).

End MSpec.

Module CSpec.

(** [s] up to its first [c], all of [s] where it has none. *)
Fixpoint upTo (c : ascii) (s : string) : string :=
  match s with
  | EmptyString => EmptyString
  | String x s' => if Ascii.eqb x c then EmptyString else String x (upTo c s')
  end.

(** [s] holds neither ['='] nor a double quote. *)
Definition plainValue (s : string) : Prop :=
  VSpec.every (Str.non (Str.lit "=")) s = true
  /\ VSpec.every (Str.non (Str.lit Str.dquote)) s = true.

End CSpec.

Module QSpec.
Import Js Query.


(** The four things a candidate can have going for it: the state of the
    requester, another city, the same or a related industry, a domain
    authority of 30 or more. *)
Definition criteria (requester candidate : Site) : list bool :=
  [ (state requester =? state candidate)%string;
    negb (city requester =? city candidate)%string;
    (industry requester =? industry candidate)%string
    || truthy_bool (Config.isRelatedIndustry (industry requester) (industry candidate));
    num_ge (da candidate) 30 ].

Definition met (requester candidate : Site) : nat :=
  List.length (filter (fun b : bool => b) (criteria requester candidate)).

Definition plumberLA : Site :=
  {| url := "https://plumber.example"; name := "Plumber"; city := "Los Angeles";
     state := "CA"; industry := "plumbing"; da := None |}.

Definition rooferSD : Site :=
  {| url := "https://roofer.example"; name := "Roofer"; city := "San Diego";
     state := "CA"; industry := "roofing"; da := Some 10 |}.

End QSpec.

Module HSpec.
Import Hex.

(** An element of a [Uint8Array]. *)
Definition isByte (b : Z) : Prop := 0 <= b < 256.

(** [s] holds no line terminator. *)
Definition noLineBreak (s : string) : Prop :=
  VSpec.every (Str.non isLineTerminator) s = true.

(** The byte that [parsePrivateKey] and [hexToBytes] store for a chunk. *)
Definition byteOf (chunk : string) : Z := toUint8 (parseInt16 chunk).

(** The last character of a text of odd length, as a chunk. *)
Fixpoint lastOdd (s : string) : list string :=
  match s with
  | String a (String b s') => lastOdd s'
  | String a EmptyString => [String a EmptyString]
  | EmptyString => []
  end.

(** What the round trip needs of the two digits of a byte: they read
    back as the byte, neither is a line terminator, and the first is not
    the letter n. *)
Definition byteChecks (b : Z) : bool :=
  let d1 := hexDigit (b / 16) in
  let d2 := hexDigit (b mod 16) in
  match parseInt16 (String d1 (String d2 EmptyString)) with
  | Some n => n =? b
  | None => false
  end
  && negb (isLineTerminator d1) && negb (isLineTerminator d2)
  && negb (Ascii.eqb d1 "n").

(** A key of four bytes. *)
Definition sampleKey : list Z := [0; 171; 9; 255].

End HSpec.

Module DmSpec.
Import Js Nostr Dm.

(** The relays that direct messages use. *)
Definition firstThree : list string :=
  [ "wss://relay.damus.io"; "wss://nos.lol"; "wss://relay.nostr.band" ].

(** What [readDMs] knows of a message from its event: the identifier, the
    sender in both notations, the time of the event and its date. *)
Definition header (event : Event) (from date : string) : Obj :=
  [ ("id", VStr (id event)); ("from", VStr from); ("fromHex", VStr (pubkey event));
    ("timestamp", VNum (created_at event)); ("date", VStr date) ].

(** The messages built from the events, in the order of the events. *)
Definition built (npubEncode : string -> Settled string)
    (decrypt : list Z -> string -> string -> Settled string)
    (parse : string -> Settled Obj) (toISOString : Z -> Settled string)
    (key : list Z) (events : list Event) : list Obj :=
  flat_map
    (fun event =>
       match envelope npubEncode decrypt parse toISOString key event with
       | Resolved message => [message]
       | Rejected _ => []
       end)
    events.

(** The time a message is sorted by, where it is a number. *)
Definition stamp (toNumber : Value -> option Z) (m : Obj) : Z :=
  match timestampOf toNumber m with
  | Some n => n
  | None => 0
  end.

(** One of the messages of [MessageTypes]. *)
Definition isAbnMessage (m : Obj) : Prop :=
  exists iso,
    (exists a b, m = MessageTypes.inquiry iso a b)
    \/ (exists a b, m = MessageTypes.counter iso a b)
    \/ (exists a, m = MessageTypes.accept iso a)
    \/ (exists a b, m = MessageTypes.paid iso a b)
    \/ (exists a b, m = MessageTypes.placed iso a b)
    \/ (exists a b, m = MessageTypes.verified iso a b).

(** A world for examples: keys and texts are passed on as they are,
    every relay but the first accepts, and only numbers convert to
    numbers. *)
Definition plainKey : Settled (list Z) := Resolved [1; 2; 3].
Definition plainPub (key : list Z) : Settled string := Resolved "me".
Definition plainCode (s : string) : Settled string := Resolved s.
Definition plainCrypt (key : list Z) (pubkey text : string) : Settled string :=
  Resolved text.
Definition plainSign (kind created_at : Z) (tags : list (list string))
    (content : string) (key : list Z) : Event :=
  {| id := EmptyString; pubkey := "me"; kind := kind; created_at := created_at;
     tags := tags; content := content |}.
Definition plainText (m : Obj) : string := "{}".
Definition plainDate (ms : Z) : Settled string := Resolved "date".
Definition notFirst (url : string) (event : Event) : bool :=
  negb (url =? "wss://relay.damus.io")%string.
Definition numbersOnly (v : Value) : option Z :=
  match v with
  | VNum n => Some n
  | _ => None
  end.

(** Two events, the older first; every text parses to the same payload. *)
Definition older : Event :=
  {| id := "e1"; pubkey := "alice"; kind := 4; created_at := 100; tags := [];
     content := "c1" |}.
Definition newer : Event :=
  {| id := "e2"; pubkey := "bob"; kind := 4; created_at := 200; tags := [];
     content := "c2" |}.
Definition twoEvents (relays : list string) (filter : DmFilter) : list Event :=
  [older; newer].
Definition parsesTo (payload : Obj) (text : string) : Settled Obj := Resolved payload.
Definition noOptions : ReadOptions := {| opt_since := None; opt_from := None |}.

(** The payload of an accepted deal, as [MessageTypes.accept] makes it,
    and the two messages read when both events carry it. *)
Definition samplePayload : Obj :=
  MessageTypes.accept "2024-05-01T00:00:00.000Z" (VStr "lnbc40u").
Definition sampleMessages : list Obj :=
  [ spread (header older "alice" "date") samplePayload;
    spread (header newer "bob" "date") samplePayload ].

End DmSpec.

Module ESpec.
Import Js Dm Exec.

(** The steps of a deal, in their order. *)
Definition canonical : list string :=
  [ "inquiry_sent"; "payment_sent"; "payment_confirmed"; "invoice_sent";
    "link_verified"; "deal_complete" ].

(** The options [executeDeal] verifies the link with. *)
Definition checkOptions (deal : DealConfig) : Verify.Options :=
  {| Verify.opt_anchor := None;
     Verify.dofollow := truthy_bool (requireDofollow deal);
     Verify.exactUrl := None |}.

(** A buyer who pays an invoice and then has the link verified. *)
Definition buying : DealConfig :=
  {| inquiry := None; partner := "npub1seller"; bidId := VStr "bid-1";
     invoice := Some "lnbc40u"; role := Some "buyer";
     linkDetails := VOther; sats := None;
     verifyUrl := Some "https://seller.example/partners";
     targetDomain := Some "buyer.example"; requireDofollow := None |}.

(** A world for examples: the payment goes through, and every check of a
    link fails. *)
Definition noTime (t : list Op) : string := "2024-05-01T00:00:00.000Z".
Definition paysAll (t : list Op) (bolt11 : string) : Settled Payment :=
  Resolved {| preimage := VStr "preimage" |}.
Definition invoicesAll (t : list Op) (sats : Z) (dealId : Value) : Settled Invoice :=
  Resolved {| paymentRequest := VStr "lnbc"; paymentHash := VStr "hash" |}.
Definition failsAll (t : list Op) (pageUrl targetDomain : string)
    (options : Verify.Options) : Verify.Result :=
  VSpec.noLinks pageUrl targetDomain EmptyString.
(** Messages go through, or none does. *)
Definition delivers (t : list Op) (npub : string) (message : Obj) : option string :=
  None.
Definition offline (t : list Op) (npub : string) (message : Obj) : option string :=
  Some "Failed to publish to any relay".

End ESpec.

Module SSpec.
Import Js Nostr Query Sites.

(** The sites kept by the state of the filters. *)
Definition inState (filters : SiteFilters) (sites : list Listed) : list Listed :=
  match filters_state filters with
  | Some st =>
      if (st =? EmptyString)%string then sites
      else filter (fun s => (state (l_site s) =? st)%string) sites
  | None => sites
  end.

(** The authority a match is listed by. *)
Definition authorityOf (m : Match) : Z :=
  match da (site m) with
  | Some d => d
  | None => 0
  end.

(** A world for examples: three registrations, read as three sites of
    California. *)
Definition registration (n : Z) : Event :=
  {| id := Str.ofZ n; pubkey := "k"; kind := SITE_REGISTRATION; created_at := n;
     tags := []; content := Str.ofZ n |}.

Definition held (store : list Event) (filter : Filter) : list Event := store.

Definition siteOf (n : Z) : Site :=
  {| url := "https://site" ++ Str.ofZ n ++ ".example"; name := "Site " ++ Str.ofZ n;
     city := "City " ++ Str.ofZ n; state := "CA"; industry := "plumbing";
     da := if n =? 0 then None else Some n |}.

Definition reads (e : Event) : Settled Listed :=
  Resolved {| l_site := siteOf (created_at e); l_npub := Dm.VStr "npub1" |}.

Definition stringsSlice (v : Dm.Value) : option string :=
  match v with
  | Dm.VStr _ => None
  | _ => Some "site.npub.slice is not a function"
  end.

Definition anyState : SiteFilters :=
  {| filters_industry := Some "plumbing"; filters_state := None |}.

(** Four registrations, as the relays return them. *)
Definition fourSites : list Event := map registration [0; 45; 10; 35].

Definition requester : Site :=
  {| url := "https://me.example"; name := "Me"; city := "Here"; state := "CA";
     industry := "plumbing"; da := Some 20 |}.

End SSpec.

Module RSpec.
Import Js Nostr Register.

(** A property that is set, to a text that is not empty. *)
Definition present (value : option string) : Prop :=
  exists s, value = Some s /\ s <> EmptyString.

(** A registration that tells all five of name, url, city, state and
    industry. *)
Definition complete (site : SiteInput) : Prop :=
  Forall (fun field => present (snd field)) (required site).

(** A relay that accepts nothing. *)
Definition refuses (url : string) (event : Event) : bool := false.

Definition plumber : SiteInput :=
  {| s_name := Some "Example Plumbing Co"; s_url := Some "https://example-plumbing.com";
     s_city := Some "San Diego"; s_state := Some "CA"; s_industry := Some "plumbing";
     s_type := None; s_da := Some 0; s_wantLinks := None; s_canOffer := None |}.

End RSpec.

(* ================================================================== *)
(** * Properties of the stable sort *)

Section SortFacts.
Context {A : Type} (cmp : A -> A -> Z) (key : A -> Z).
(** The comparator orders by decreasing [key]. *)
Hypothesis cmp_key : forall x y, (0 <? cmp x y) = (key x <? key y).

Lemma insert_perm : forall x l, Permutation (Js.insert cmp x l) (x :: l).
Proof.
  intros x l; induction l as [|y l IH]; simpl.
  - apply Permutation_refl.
  - destruct (0 <? cmp x y).
    + eapply perm_trans; [apply perm_skip, IH | apply perm_swap].
    + apply Permutation_refl.
Qed.

Lemma sort_perm : forall l, Permutation (Js.sort cmp l) l.
Proof.
  induction l as [|x l IH]; simpl.
  - constructor.
  - eapply perm_trans; [apply insert_perm | apply perm_skip, IH].
Qed.

Lemma insert_sorted : forall x l,
  StronglySorted (Spec.desc key) l -> StronglySorted (Spec.desc key) (Js.insert cmp x l).
Proof.
  intros x l; induction l as [|y l IH]; simpl; intros Hs.
  - repeat constructor.
  - inversion Hs as [|? ? Hl Hy]; subst.
    rewrite cmp_key. destruct (key x <? key y) eqn:E.
    + apply Z.ltb_lt in E. constructor; [auto|].
      apply Forall_forall. intros z Hz.
      apply (Permutation_in _ (insert_perm x l)) in Hz.
      destruct Hz as [<-|Hz]; [unfold Spec.desc; lia|].
      rewrite Forall_forall in Hy. auto.
    + apply Z.ltb_ge in E. constructor; [assumption|].
      constructor; [exact E|].
      eapply Forall_impl; [|exact Hy]. unfold Spec.desc. intros; lia.
Qed.

Lemma sort_sorted : forall l, StronglySorted (Spec.desc key) (Js.sort cmp l).
Proof.
  induction l as [|x l IH]; simpl.
  - constructor.
  - apply insert_sorted, IH.
Qed.

(** Stability: the elements of one key keep their order. *)
Lemma insert_stable : forall k x l,
  filter (fun a => key a =? k) (Js.insert cmp x l)
  = filter (fun a => key a =? k) (x :: l).
Proof.
  intros k x l; induction l as [|y l IH]; [reflexivity|].
  simpl Js.insert. rewrite cmp_key.
  destruct (key x <? key y) eqn:E; [|reflexivity].
  apply Z.ltb_lt in E.
  change (filter (fun a => key a =? k) (y :: Js.insert cmp x l))
    with (if key y =? k then y :: filter (fun a => key a =? k) (Js.insert cmp x l)
          else filter (fun a => key a =? k) (Js.insert cmp x l)).
  rewrite IH. simpl.
  destruct (key y =? k) eqn:Ey, (key x =? k) eqn:Ex; try reflexivity.
  apply Z.eqb_eq in Ey, Ex. lia.
Qed.

Lemma sort_stable : forall k l,
  filter (fun a => key a =? k) (Js.sort cmp l) = filter (fun a => key a =? k) l.
Proof.
  intros k l; induction l as [|x l IH]; [reflexivity|].
  simpl Js.sort. rewrite insert_stable. simpl. rewrite IH. reflexivity.
Qed.


End SortFacts.

(* ================================================================== *)
(** * The matching engine *)

Section MatchingEngine.
Import Query Spec.








Lemma score_terms : forall yourSite site,
  score yourSite site =
    (if (state yourSite =? state site)%string then 30 else 0)
    + (if negb (city yourSite =? city site)%string then 20 else 0)
    + (if (industry yourSite =? industry site)%string then 25
       else if Js.truthy_bool (Config.isRelatedIndustry (industry yourSite) (industry site))
            then 20 else 0)
    + (if Js.num_ge (da site) 30 then 15 else 0)
    + (if Js.num_ge (da site) 40 then 10 else 0).
Proof.
  intros yourSite site. unfold score.
  destruct (state yourSite =? state site)%string,
           (city yourSite =? city site)%string,
           (industry yourSite =? industry site)%string,
           (Js.truthy_bool (Config.isRelatedIndustry (industry yourSite) (industry site))),
           (Js.num_ge (da site) 30), (Js.num_ge (da site) 40); reflexivity.
Qed.





Lemma cmp_matchScore : forall x y : Match,
  (0 <? matchScore y - matchScore x) = (matchScore x <? matchScore y).
Proof.
  intros x y. destruct (Z.ltb_spec (matchScore x) (matchScore y));
    [apply Z.ltb_lt | apply Z.ltb_ge]; lia.
Qed.

Lemma filter_map_comm : forall {A B} (f : A -> B) (p : B -> bool) l,
  filter p (map f l) = map f (filter (fun a => p (f a)) l).
Proof.
  intros A B f p l; induction l as [|a l IH]; simpl; [reflexivity|].
  destruct (p (f a)); simpl; now rewrite IH.
Qed.

Lemma filter_filter : forall {A} (p q : A -> bool) l,
  filter p (filter q l) = filter (fun a => q a && p a) l.
Proof.
  intros A p q l; induction l as [|a l IH]; simpl; [reflexivity|].
  destruct (q a); simpl; [destruct (p a)|]; now rewrite IH.
Qed.

(** [findMatches] sorts the annotated candidates that are kept. *)
Lemma findMatches_sort : forall yourSite allSites,
  findMatches yourSite allSites
  = Js.sort (fun a b => matchScore b - matchScore a)
      (map (annotate yourSite) (kept yourSite allSites)).
Proof.
  intros y l. unfold findMatches, kept. f_equal.
  rewrite filter_map_comm, filter_filter. reflexivity.
Qed.

Lemma findMatches_annotated : forall yourSite allSites m,
  In m (findMatches yourSite allSites) ->
  In (site m) allSites /\ matchScore m = score yourSite (site m).
Proof.
  intros y l m H. rewrite findMatches_sort in H.
  apply (Permutation_in _ (sort_perm _ _)) in H.
  apply in_map_iff in H. destruct H as [s [<- Hs]].
  apply filter_In in Hs. simpl. tauto.
Qed.

End MatchingEngine.



(* ================================================================== *)
(** * Patterns: what a match tells about the text *)

Section PatternFacts.
Import VSpec.

Lemma append_assoc : forall a b c : string, ((a ++ b) ++ c = a ++ (b ++ c))%string.
Proof.
  induction a as [|x a IH]; intros b c; simpl; [reflexivity | now rewrite IH].
Qed.

Lemma append_nil_r : forall a : string, (a ++ EmptyString)%string = a.
Proof. induction a as [|x a IH]; simpl; [reflexivity | now rewrite IH]. Qed.

Lemma concat_cons : forall (x : string) l,
  String.concat EmptyString (x :: l) = (x ++ String.concat EmptyString l)%string.
Proof.
  intros x l. destruct l; simpl; [now rewrite append_nil_r | reflexivity].
Qed.

Lemma star_sound : forall (R : Type) p (k : string -> option R) s seg r,
  Str.star p k s = Some (seg, r) ->
  exists rest, s = (seg ++ rest)%string /\ every p seg = true /\ k rest = Some r.
Proof.
  intros R p k s; induction s as [|c s IH]; intros seg r H; simpl in H.
  - destruct (k EmptyString) as [r'|] eqn:K; simpl in H; [|discriminate].
    injection H as <- <-. exists EmptyString. auto.
  - destruct (p c) eqn:P.
    + destruct (Str.star p k s) as [[seg' r']|] eqn:S.
      * injection H as <- <-. destruct (IH _ _ eq_refl) as [rest [-> [E K]]].
        exists rest. simpl. rewrite P, E. auto.
      * destruct (k (String c s)) as [r'|] eqn:K; simpl in H; [|discriminate].
        injection H as <- <-. exists (String c s). auto.
    + destruct (k (String c s)) as [r'|] eqn:K; simpl in H; [|discriminate].
      injection H as <- <-. exists (String c s). auto.
Qed.

(** A match splits the text into the pieces its items matched. *)
Lemma run_sound : forall r s segs rest,
  Str.run r s = Some (segs, rest) ->
  s = (String.concat EmptyString segs ++ rest)%string /\ Forall2 Matches r segs.
Proof.
  induction r as [|i r IH]; intros s segs rest H; simpl in H.
  - injection H as <- <-. split; [reflexivity | constructor].
  - destruct i as [p|p|p].
    + destruct s as [|c s]; [discriminate|].
      destruct (p c) eqn:P; [|discriminate].
      destruct (Str.run r s) as [[segs' rest']|] eqn:Rn; simpl in H; [|discriminate].
      injection H as <- <-. destruct (IH _ _ _ Rn) as [-> F]. split.
      * rewrite concat_cons. reflexivity.
      * constructor; [now constructor | exact F].
    + destruct (Str.star p (Str.run r) s) as [[seg [segs' rest']]|] eqn:S;
        simpl in H; [|discriminate].
      injection H as <- <-.
      destruct (star_sound _ _ _ _ _ _ S) as [rest0 [-> [E K]]].
      destruct (IH _ _ _ K) as [-> F]. split.
      * rewrite concat_cons, append_assoc. reflexivity.
      * constructor; [now constructor | exact F].
    + destruct s as [|c s]; [discriminate|].
      destruct (p c) eqn:P; [|discriminate].
      destruct (Str.star p (Str.run r) s) as [[seg [segs' rest']]|] eqn:S;
        simpl in H; [|discriminate].
      injection H as <- <-.
      destruct (star_sound _ _ _ _ _ _ S) as [rest0 [-> [E K]]].
      destruct (IH _ _ _ K) as [-> F]. split.
      * rewrite concat_cons, append_assoc. reflexivity.
      * constructor; [now constructor | exact F].
Qed.

(** Every match of the loop is a match somewhere in the text. *)
Lemma execAll_sound : forall r s skip segs,
  In segs (Str.execAll r s skip) ->
  exists pre post,
    s = (pre ++ String.concat EmptyString segs ++ post)%string
    /\ Forall2 Matches r segs.
Proof.
  intros r s; induction s as [|c s IH]; intros skip segs H.
  - destruct skip; simpl in H; [|contradiction].
    destruct (Str.run r EmptyString) as [[segs' rest]|] eqn:Rn; [|contradiction].
    destruct H as [<-|[]]. destruct (run_sound _ _ _ _ Rn) as [E F].
    exists EmptyString, rest. auto.
  - assert (Hrec : forall k, In segs (Str.execAll r s k) ->
              exists pre post,
                String c s = (pre ++ String.concat EmptyString segs ++ post)%string
                /\ Forall2 Matches r segs).
    { intros k Hk. destruct (IH _ _ Hk) as [pre [post [-> F]]].
      exists (String c pre), post. auto. }
    destruct skip; simpl in H; [|eauto].
    destruct (Str.run r (String c s)) as [[segs' rest]|] eqn:Rn; [|eauto].
    destruct H as [<-|H]; [|eauto].
    destruct (run_sound _ _ _ _ Rn) as [E F].
    exists EmptyString, rest. auto.
Qed.

Lemma search_sound : forall r s segs,
  Str.search r s = Some segs ->
  exists pre post,
    s = (pre ++ String.concat EmptyString segs ++ post)%string
    /\ Forall2 Matches r segs.
Proof.
  intros r s; induction s as [|c s IH]; intros segs H; simpl in H.
  - destruct (Str.run r EmptyString) as [[segs' rest]|] eqn:Rn; [|discriminate].
    injection H as <-. destruct (run_sound _ _ _ _ Rn) as [E F].
    exists EmptyString, rest. auto.
  - destruct (Str.run r (String c s)) as [[segs' rest]|] eqn:Rn.
    + injection H as <-. destruct (run_sound _ _ _ _ Rn) as [E F].
      exists EmptyString, rest. auto.
    + destruct (IH _ H) as [pre [post [-> F]]].
      exists (String c pre), post. auto.
Qed.

End PatternFacts.

(* ================================================================== *)
(** * Link extraction *)

Section TrimFacts.
Import VSpec.




End TrimFacts.

Section LinkFacts.
Import VSpec Verify.

Lemma lit_eq : forall c x, Str.lit c x = true -> x = c.
Proof. intros c x H. apply Ascii.eqb_eq in H. now subst. Qed.

Lemma ci_lower : forall c x, Str.ci c x = true -> Str.lowerChar x = c.
Proof. intros c x H. now apply Ascii.eqb_eq in H. Qed.

Ltac invert_matches :=
  repeat match goal with
         | H : Forall2 Matches (_ :: _) _ |- _ => inversion H; clear H; subst
         | H : Forall2 Matches [] _ |- _ => inversion H; clear H; subst
         | H : Matches (Str.One _) _ |- _ => inversion H; clear H; subst
         | H : Matches (Str.Many0 _) _ |- _ => inversion H; clear H; subst
         | H : Matches (Str.Many1 _) _ |- _ => inversion H; clear H; subst
         | H : Str.lit _ _ = true |- _ => apply lit_eq in H; subst
         | H : Str.ci _ _ = true |- _ => apply ci_lower in H
         end.

(** The pieces of a match of [linkRegex] make an anchor element. *)
Lemma markup_of_pieces :
  forall pre post a1 w ws attrs1 h r e f ws1 ws2 q1 v value q2 attrs2 body a2,
    Str.lowerChar a1 = "a"%char ->
    Str.isSpace w = true -> every Str.isSpace ws = true ->
    every (Str.non (Str.lit ">")) attrs1 = true ->
    Str.lowerChar h = "h"%char -> Str.lowerChar r = "r"%char ->
    Str.lowerChar e = "e"%char -> Str.lowerChar f = "f"%char ->
    every Str.isSpace ws1 = true -> every Str.isSpace ws2 = true ->
    Str.isQuote q1 = true ->
    Str.non Str.isQuote v = true -> every (Str.non Str.isQuote) value = true ->
    Str.isQuote q2 = true ->
    every (Str.non (Str.lit ">")) attrs2 = true ->
    every (Str.non (Str.lit "<")) body = true ->
    Str.lowerChar a2 = "a"%char ->
    AnchorMarkup
      (pre ++
       String.concat EmptyString
         [ "<"; String a1 EmptyString; String w ws; attrs1;
           String h EmptyString; String r EmptyString; String e EmptyString;
           String f EmptyString; ws1; "="; ws2; String q1 EmptyString;
           String v value; String q2 EmptyString; attrs2; ">"; body;
           "<"; "/"; String a2 EmptyString; ">" ] ++ post)
      (String v value) body.
Proof.
  intros pre post a1 w ws attrs1 h r e f ws1 ws2 q1 v value q2 attrs2 body a2
    Ha1 Hw Hws Hattrs1 Hh Hr He Hf Hws1 Hws2 Hq1 Hv Hvalue Hq2 Hattrs2 Hbody Ha2.
  unfold AnchorMarkup.
  exists pre, (String "<" (String a1 EmptyString)), (String w ws), attrs1,
    (String h (String r (String e (String f EmptyString)))), ws1, ws2, q1, q2,
    attrs2, (String "<" (String "/" (String a2 ">"))), post.
  repeat split; try assumption; try discriminate.
  - repeat rewrite concat_cons. simpl. repeat (rewrite ?append_assoc; simpl).
    reflexivity.
  - simpl. rewrite Ha1. reflexivity.
  - simpl. rewrite Hw, Hws. reflexivity.
  - simpl. rewrite Hh, Hr, He, Hf. reflexivity.
  - simpl. rewrite Hv, Hvalue. reflexivity.
  - simpl. rewrite Ha2. reflexivity.
Qed.

(** Every link record comes from an anchor element with a quoted href and a
    body without ['<']. *)
Lemma extractLinks_markup : forall html l,
  In l (extractLinks html) ->
  exists value body,
    AnchorMarkup html value body
    /\ href l = Str.trim value /\ anchor l = Str.trim body.
Proof.
  intros html l H. unfold extractLinks in H.
  apply in_map_iff in H. destruct H as [segs [<- H]].
  apply execAll_sound in H. destruct H as [pre [post [-> F]]].
  unfold linkRegex in F. invert_matches.
  do 2 eexists. split; [apply markup_of_pieces; eassumption|].
  split; reflexivity.
Qed.


End LinkFacts.

(* ================================================================== *)
(** * Anchors that wrap markup *)

Section NestedFacts.
Import VSpec Verify.






Lemma toLowerCase_length : forall s,
  String.length (Str.toLowerCase s) = String.length s.
Proof. induction s as [|c s IH]; simpl; [reflexivity | now rewrite IH]. Qed.

Lemma lowerChar_lt : forall c, Str.lowerChar c = "<"%char -> c = "<"%char.
Proof.
  intros c. destruct c as [[|] [|] [|] [|] [|] [|] [|] [|]]; vm_compute;
    intros H; try reflexivity; discriminate H.
Qed.




End NestedFacts.

(* ================================================================== *)
(** * Fetching and verifying *)

Section VerifyFacts.
Import Js VSpec Verify.
Variable net : World -> string -> NetReply.
Variable clock : World -> string.
Variable urlHref : string -> string -> option string.
Variable urlHostname : string -> string -> option string.

Local Abbreviation fetchPage := (Verify.fetchPage net urlHref).
Local Abbreviation verifyBacklink := (Verify.verifyBacklink net clock urlHref urlHostname).
Local Abbreviation batchLoop := (Verify.batchLoop net clock urlHref urlHostname).
Local Abbreviation batchVerify := (Verify.batchVerify net clock urlHref urlHostname).
Local Abbreviation Terminal := (VSpec.Terminal net urlHref).

Lemma redirects_spec : forall r,
  redirects r =
  match r with
  | NetResponse statusCode location _ =>
      if (300 <=? statusCode) && (statusCode <? 400) && truthy_str location
      then Some (match location with Some l => l | None => EmptyString end)
      else None
  | _ => None
  end.
Proof.
  intros [m| |sc [loc|] body]; simpl; try reflexivity.
  now rewrite andb_false_r.
Qed.

(** One unfolding of [fetchPage]: the reply is followed when it redirects,
    and settles the promise when it does not. *)
Lemma fetchPage_step : forall fuel url w,
  fetchPage (S fuel) url w =
  match redirects (net w url) with
  | Some loc =>
      match (if Str.startsWith loc "http" then Some loc else urlHref loc url) with
      | Some next => fetchPage fuel next (w ++ [Request url])%list
      | None => None
      end
  | None => Some (outcome (net w url), (w ++ [Request url])%list)
  end.
Proof.
  intros fuel url w. rewrite redirects_spec. simpl.
  destruct (net w url) as [m| |sc loc body]; try reflexivity.
  destruct ((300 <=? sc) && (sc <? 400) && truthy_str loc); [reflexivity|].
  unfold outcome, failure. destruct (sc =? 200); reflexivity.
Qed.


(** A fetch settles exactly on the terminal reply of its redirect chain. *)
Lemma fetchPage_terminal : forall fuel url w r w',
  fetchPage fuel url w = Some (r, w') ->
  exists reply, Terminal url w reply w' /\ r = outcome reply.
Proof.
  induction fuel as [|fuel IH]; intros url w r w' H; [discriminate|].
  rewrite fetchPage_step in H.
  destruct (redirects (net w url)) as [loc|] eqn:R.
  - destruct (if Str.startsWith loc "http" then Some loc else urlHref loc url)
      as [next|] eqn:N; [|discriminate].
    destruct (IH _ _ _ _ H) as [reply [T ->]].
    exists reply. split; [|reflexivity]. eapply terminal_follow; eassumption.
  - injection H as <- <-. exists (net w url). split; [|reflexivity].
    now apply terminal_reply.
Qed.

Lemma terminal_fetchPage : forall url w reply w',
  Terminal url w reply w' ->
  exists fuel0, forall fuel, (fuel0 <= fuel)%nat ->
    fetchPage fuel url w = Some (outcome reply, w').
Proof.
  intros url w reply w' T;
    induction T as [url w R|url w loc next reply w' R N T [fuel0 IH]].
  - exists 1%nat. intros fuel Hle. destruct fuel as [|fuel]; [lia|].
    rewrite fetchPage_step, R. reflexivity.
  - exists (S fuel0). intros fuel Hle. destruct fuel as [|fuel]; [lia|].
    rewrite fetchPage_step, R, N. apply IH. lia.
Qed.

(** A fetch adds to the world its own requests. *)
Lemma fetchPage_trace : forall fuel url w r w',
  fetchPage fuel url w = Some (r, w') ->
  exists t, w' = (w ++ t)%list /\ FetchTrace url t.
Proof.
  induction fuel as [|fuel IH]; intros url w r w' H; [discriminate|].
  rewrite fetchPage_step in H.
  destruct (redirects (net w url)) as [loc|].
  - destruct (if Str.startsWith loc "http" then Some loc else urlHref loc url)
      as [next|]; [|discriminate].
    destruct (IH _ _ _ _ H) as [t [-> [redirected ->]]].
    exists (Request url :: Request next :: map Request redirected).
    split; [now rewrite <- List.app_assoc|].
    now exists (next :: redirected).
  - injection H as <- <-. exists [Request url]. split; [reflexivity|].
    now exists [].
Qed.

Lemma verify_pending : forall fuel pageUrl targetDomain options w,
  fetchPage fuel pageUrl w = None ->
  verifyBacklink fuel pageUrl targetDomain options w = None.
Proof.
  intros fuel p t o w H. unfold Verify.verifyBacklink, try_catch, bind.
  rewrite H. reflexivity.
Qed.

Lemma verify_rejected : forall fuel pageUrl targetDomain options w e w',
  fetchPage fuel pageUrl w = Some (Rejected e, w') ->
  verifyBacklink fuel pageUrl targetDomain options w
  = Some (Resolved (fetchFailed pageUrl targetDomain e (clock w')), w').
Proof.
  intros fuel p t o w e w' H. unfold Verify.verifyBacklink, try_catch, bind.
  rewrite H. reflexivity.
Qed.

Lemma find_filter : forall {A} (p : A -> bool) l, find p l = hd_error (filter p l).
Proof.
  intros A p l; induction l as [|a l IH]; simpl; [reflexivity|].
  destruct (p a); [reflexivity | exact IH].
Qed.

Lemma verify_resolved : forall fuel pageUrl targetDomain options w html w',
  fetchPage fuel pageUrl w = Some (Resolved html, w') ->
  exists res,
    verifyBacklink fuel pageUrl targetDomain options w = Some (Resolved res, w')
    /\ Verify.pageUrl res = pageUrl /\ Verify.targetDomain res = targetDomain
    /\ error res = None /\ checkedAt res = clock w'
    /\ (filter (pointsTo urlHostname pageUrl targetDomain) (extractLinks html) = [] ->
        res = noLinks pageUrl targetDomain (clock w'))
    /\ (verified res = true ->
        bestMatch res
        = find (selects urlHostname pageUrl targetDomain options) (extractLinks html)
        /\ bestMatch res <> None
        /\ linksFound res
           = Some (filter (pointsTo urlHostname pageUrl targetDomain) (extractLinks html))).
Proof.
  intros fuel p t o w html w' H. unfold Verify.verifyBacklink, try_catch, bind.
  rewrite H.
  assert (Hsel : find (selects urlHostname p t o) (extractLinks html)
                 = hd_error (if dofollow o
                             then filter isDoFollow
                                    (filter (pointsTo urlHostname p t) (extractLinks html))
                             else filter (pointsTo urlHostname p t) (extractLinks html))).
  { rewrite find_filter. unfold selects. destruct (dofollow o).
    - now rewrite filter_filter.
    - f_equal. apply filter_ext. intros a. now rewrite andb_true_r. }
  destruct (filter (pointsTo urlHostname p t) (extractLinks html)) as [|first rest] eqn:M.
  - eexists. split; [reflexivity|]. simpl. repeat split; try reflexivity; discriminate.
  - set (ml := first :: rest) in *.
    destruct (dofollow o && Nat.eqb (List.length (filter isDoFollow ml)) 0) eqn:D.
    { eexists. split; [reflexivity|]. simpl. repeat split; try reflexivity; discriminate. }
    match goal with
    | |- context [if ?c then _ else _] => destruct c
    end.
    { eexists. split; [reflexivity|]. simpl. repeat split; try reflexivity; discriminate. }
    match goal with
    | |- context [if ?c then _ else _] => destruct c
    end.
    { eexists. split; [reflexivity|]. simpl. repeat split; try reflexivity; discriminate. }
    eexists. split; [reflexivity|].
    cbn [verified Verify.pageUrl Verify.targetDomain linksFound bestMatch error
         message checkedAt].
    repeat split; try reflexivity; try discriminate.
    rewrite Hsel. destruct (dofollow o); [|reflexivity].
    destruct (filter isDoFollow ml); [discriminate D | reflexivity].
Qed.





(** ** The batch *)








End VerifyFacts.

(* ================================================================== *)
(** * The link verifier: the claims *)

Lemma pointsTo_href : forall urlHostname pageUrl targetDomain l,
  Str.includes (Verify.href l) targetDomain = true ->
  Verify.pointsTo urlHostname pageUrl targetDomain l = true.
Proof.
  intros u p t l H. unfold Verify.pointsTo.
  destruct (u (Verify.href l) p); rewrite H; [apply orb_true_r | reflexivity].
Qed.

Lemma twoLinks_links :
  Verify.extractLinks Pages.twoLinks = [Pages.firstLink; Pages.secondLink].
Proof. vm_compute. reflexivity. Qed.

(** What [bestMatch] is: the first link to the target, or the first
    dofollow one when dofollow is required.  It is the first link that
    satisfies all the active constraints when neither an anchor text nor an
    exact href is required. *)
Lemma bestMatch_selected :
  forall net clock urlHref urlHostname fuel pageUrl targetDomain options w html w',
    Verify.fetchPage net urlHref fuel pageUrl w = Some (Js.Resolved html, w') ->
    exists res,
      Verify.verifyBacklink net clock urlHref urlHostname fuel pageUrl targetDomain
        options w = Some (Js.Resolved res, w')
      /\ (Verify.verified res = true ->
          Verify.bestMatch res
          = find (VSpec.selects urlHostname pageUrl targetDomain options)
              (Verify.extractLinks html))
      /\ (Js.truthy_str (Verify.opt_anchor options) = false ->
          Js.truthy_str (Verify.exactUrl options) = false ->
          forall l,
            VSpec.satisfiesAll urlHostname pageUrl targetDomain options l
            = VSpec.selects urlHostname pageUrl targetDomain options l).
Proof.
  intros net clock urlHref u fuel p t o w html w' F.
  destruct (verify_resolved net clock urlHref u fuel p t o w html w' F)
    as [res [V [_ [_ [_ [_ [_ B]]]]]]].
  exists res. split; [exact V|]. split; [intros Hv; now apply B|].
  intros Ha He l. unfold VSpec.satisfiesAll, VSpec.selects.
  destruct (Verify.opt_anchor o) as [a|], (Verify.exactUrl o) as [x|];
    simpl in Ha, He;
    try (apply negb_false_iff in Ha; rewrite Ha);
    try (apply negb_false_iff in He; rewrite He);
    now rewrite !andb_true_r.
Qed.

(** C2 (the code departs from the specification): on a page with two links to the
    target, anchors "first" and "second", and the anchor text "second"
    required, the verification succeeds and [bestMatch] is the first link,
    which does not satisfy the anchor constraint; the first link that
    satisfies all the active constraints is the second one. *)
Theorem C2_bestMatch_ignores_anchor : forall clock urlHref urlHostname,
  let pageUrl := "https://blog.example/post" in
  let targetDomain := "target.example" in
  exists res w',
    Verify.verifyBacklink (Pages.serves Pages.twoLinks) clock urlHref urlHostname
      1 pageUrl targetDomain Pages.wantSecond []
    = Some (Js.Resolved res, w')
    /\ Verify.verified res = true
    /\ Verify.bestMatch res = Some Pages.firstLink
    /\ VSpec.satisfiesAll urlHostname pageUrl targetDomain Pages.wantSecond
         Pages.firstLink = false
    /\ find (VSpec.satisfiesAll urlHostname pageUrl targetDomain Pages.wantSecond)
         (Verify.extractLinks Pages.twoLinks)
       = Some Pages.secondLink.
Proof.
  intros clock urlHref u pageUrl targetDomain.
  assert (P1 : Verify.pointsTo u pageUrl targetDomain Pages.firstLink = true)
    by (apply pointsTo_href; vm_compute; reflexivity).
  assert (P2 : Verify.pointsTo u pageUrl targetDomain Pages.secondLink = true)
    by (apply pointsTo_href; vm_compute; reflexivity).
  do 2 eexists. split; [|split; [|split; [|split]]].
  - unfold Verify.verifyBacklink, Verify.try_catch, Verify.bind.
    change (Verify.fetchPage (Pages.serves Pages.twoLinks) urlHref 1 pageUrl [])
      with (Some (Js.Resolved Pages.twoLinks, [Verify.Request pageUrl])).
    cbv beta iota zeta. rewrite twoLinks_links.
    cbn [filter]. rewrite P1, P2. reflexivity.
  - reflexivity.
  - reflexivity.
  - unfold VSpec.satisfiesAll. rewrite P1. reflexivity.
  - rewrite twoLinks_links. unfold VSpec.satisfiesAll. cbn [find].
    rewrite P1, P2. reflexivity.
Qed.


(** A page that redirects to a missing page: the verification resolves to
    the failure of the terminal status, after two requests. *)
Lemma redirected_failure : forall clock urlHostname options,
  VSpec.Terminal Pages.moved Pages.onSite "https://a.example/old" []
    (Verify.NetResponse 404 None "Not Found")
    [Verify.Request "https://a.example/old"; Verify.Request "https://a.example/new"]
  /\ Verify.verifyBacklink Pages.moved clock Pages.onSite urlHostname 2
       "https://a.example/old" "target.example" options []
     = Some (Js.Resolved
               (VSpec.fetchFailed "https://a.example/old" "target.example" "HTTP 404"
                  (clock [Verify.Request "https://a.example/old";
                          Verify.Request "https://a.example/new"])),
             [Verify.Request "https://a.example/old";
              Verify.Request "https://a.example/new"])
  /\ Verify.verifyBacklink Pages.moved clock Pages.onSite urlHostname 1
       "https://a.example/old" "target.example" options []
     = None.
Proof.
  intros clock u o. split; [|split].
  - eapply VSpec.terminal_follow; [reflexivity | reflexivity |].
    apply (VSpec.terminal_reply Pages.moved Pages.onSite "https://a.example/new"
             [Verify.Request "https://a.example/old"]).
    reflexivity.
  - apply verify_rejected. reflexivity.
  - apply verify_pending. reflexivity.
Qed.



(** A batch whose first page is missing: the first result reports the
    failure, and the second check is verified all the same. *)
Lemma batch_after_failure : forall clock urlHref urlHostname,
  exists r1 r2 w',
    Verify.batchVerify Pages.missingThenLinked clock urlHref urlHostname 1
      Pages.twoChecks []
    = Some (Js.Resolved [r1; r2], w')
    /\ Verify.verified r1 = false
    /\ Verify.message r1 = "Failed to fetch page: HTTP 404"
    /\ Verify.verified r2 = true
    /\ Verify.bestMatch r2 = Some Pages.firstLink
    /\ w' = [ Verify.Request "https://a.example/gone"; Verify.Sleep 500;
              Verify.Request "https://b.example/partners"; Verify.Sleep 500 ].
Proof.
  intros clock urlHref u.
  assert (P1 : forall p, Verify.pointsTo u p "target.example" Pages.firstLink = true)
    by (intros p; apply pointsTo_href; vm_compute; reflexivity).
  assert (P2 : forall p, Verify.pointsTo u p "target.example" Pages.secondLink = true)
    by (intros p; apply pointsTo_href; vm_compute; reflexivity).
  do 3 eexists. split; [|repeat split].
  - unfold Verify.batchVerify, Pages.twoChecks, Verify.batchLoop.
    unfold Verify.bind at 1.
    rewrite (verify_rejected _ clock urlHref u 1 _ _ _ [] "HTTP 404"
               [Verify.Request "https://a.example/gone"]) by reflexivity.
    unfold Verify.bind at 1, Verify.emit. unfold Verify.bind at 1.
    unfold Verify.verifyBacklink, Verify.try_catch. unfold Verify.bind at 1.
    match goal with
    | |- context [Verify.fetchPage ?n ?h 1 ?p ?w] =>
        change (Verify.fetchPage n h 1 p w)
          with (Some (Js.Resolved Pages.twoLinks, (w ++ [Verify.Request p])%list))
    end.
    cbv beta iota zeta. rewrite twoLinks_links.
    cbn [filter]. rewrite P1, P2.
    cbn -[Str.ofNat]. reflexivity.
  - reflexivity.
  - reflexivity.
  - reflexivity.
  - reflexivity.
Qed.


(* ================================================================== *)
(** * [parseInt] reads back the decimal notation of an integer *)

Section ParseIntFacts.
Import ParseInt.

Lemma digits_of_lu : forall d e,
  digits 10 (NilEmpty.string_of_uint d) (Some (Unsigned.of_lu e))
  = Some (Unsigned.of_lu (Decimal.revapp d e)).
Proof.
  induction d as [|d IH|d IH|d IH|d IH|d IH|d IH|d IH|d IH|d IH|d IH]; intros e;
    [reflexivity|..];
    cbn [NilEmpty.string_of_uint digits Decimal.revapp];
    match goal with
    | |- context [digitVal 10 ?c] =>
        let v := eval vm_compute in (digitVal 10 c) in
        change (digitVal 10 c) with v
    end;
    cbv beta iota; rewrite <- IH; do 2 f_equal;
    rewrite (Unsigned.of_lu_eqn (_ e)); cbn [Unsigned.hd Unsigned.tl]; lia.
Qed.

Lemma digits_of_uint : forall d,
  d <> Decimal.Nil ->
  digits 10 (NilEmpty.string_of_uint d) None = Some (Pos.of_uint d).
Proof.
  intros d Hd. rewrite Unsigned.of_uint_alt. unfold Decimal.rev.
  destruct d; [contradiction|..];
    cbn [NilEmpty.string_of_uint digits Decimal.revapp];
    match goal with
    | |- context [digitVal 10 ?c] =>
        let v := eval vm_compute in (digitVal 10 c) in
        change (digitVal 10 c) with v
    end;
    cbv beta iota; rewrite <- digits_of_lu; reflexivity.
Qed.

(** On decimal digits, [parseInt] is the value of the digits. *)
Lemma parseInt_uint : forall d,
  d <> Decimal.Nil ->
  parseInt (Some (NilEmpty.string_of_uint d)) = Some (Z.of_N (Pos.of_uint d)).
Proof.
  intros d Hd.
  assert (E : parseInt (Some (NilEmpty.string_of_uint d))
              = option_map (fun n => 1 * Z.of_N n)
                  (digits 10 (NilEmpty.string_of_uint d) None)).
  { destruct d as [|d|d|d|d|d|d|d|d|d|d]; [contradiction|..]; destruct d; reflexivity. }
  rewrite E, (digits_of_uint d Hd). cbn [option_map]. f_equal; lia.
Qed.

Lemma parseInt_neg_uint : forall d,
  d <> Decimal.Nil ->
  parseInt (Some (String "-" (NilEmpty.string_of_uint d)))
  = Some (- Z.of_N (Pos.of_uint d)).
Proof.
  intros d Hd.
  assert (E : parseInt (Some (String "-" (NilEmpty.string_of_uint d)))
              = option_map (fun n => -1 * Z.of_N n)
                  (digits 10 (NilEmpty.string_of_uint d) None)).
  { destruct d as [|d|d|d|d|d|d|d|d|d|d]; [contradiction|..]; destruct d; reflexivity. }
  rewrite E, (digits_of_uint d Hd). cbn [option_map]. f_equal; lia.
Qed.

(** [parseInt(String(n)) = n]. *)
Lemma parseInt_ofZ : forall n, parseInt (Some (Str.ofZ n)) = Some n.
Proof.
  intros [|p|p]; unfold Str.ofZ, Z.to_int, NilEmpty.string_of_int.
  - reflexivity.
  - rewrite parseInt_uint by apply DecimalPos.Unsigned.to_uint_nonnil.
    now rewrite DecimalPos.Unsigned.of_to.
  - rewrite parseInt_neg_uint by apply DecimalPos.Unsigned.to_uint_nonnil.
    now rewrite DecimalPos.Unsigned.of_to.
Qed.

End ParseIntFacts.

(* ================================================================== *)
(** * Bids: expiry and validation *)

Section BidFacts.
Import Js Nostr Watch BSpec.







End BidFacts.





(** The bids that [postBid] publishes carry the expiry timestamp it
    computed, whenever signing keeps the tags. *)
Lemma postBid_hasExpiry :
  forall nowMs key finalizeEvent stringify bid log a,
    (forall k c t co ky, Nostr.tags (finalizeEvent k c t co ky) = t) ->
    In a (snd (Bid.postBid nowMs (Js.Resolved key) finalizeEvent stringify bid log)) ->
    In a log
    \/ BSpec.hasExpiry (Bid.event a)
         (nowMs / 1000
          + 86400 * (if Js.truthy_num (Bid.expiryDays bid)
                     then match Bid.expiryDays bid with Some d => d | None => 7 end
                     else 7)).
Proof.
  intros nowMs key fe st bid log a Hfe H. unfold Bid.postBid in H. cbn [snd] in H.
  apply in_app_or in H. destruct H as [H|H]; [now left | right].
  apply in_map_iff in H. destruct H as [u [<- _]].
  cbn [Bid.event]. unfold BSpec.hasExpiry. rewrite Hfe.
  eexists. split; [reflexivity|]. apply parseInt_ofZ.
Qed.

Section CreateBidFacts.
Import Js Bid BSpec.

Lemma truthy_str_false : forall o,
  truthy_str o = false <-> (o = None \/ o = Some EmptyString).
Proof.
  intros [s|]; simpl.
  - rewrite negb_false_iff, String.eqb_eq. split.
    + intros ->. now right.
    + intros [H|[= ->]]; [discriminate | reflexivity].
  - split; [now left | reflexivity].
Qed.

Lemma truthy_num_false : forall o,
  truthy_num o = false <-> (o = None \/ o = Some 0).
Proof.
  intros [n|]; simpl.
  - rewrite negb_false_iff, Z.eqb_eq. split.
    + intros ->. now right.
    + intros [H|[= ->]]; [discriminate | reflexivity].
  - split; [now left | reflexivity].
Qed.

(** The type passes the first check exactly when it is one of the two. *)
Lemma type_check : forall o,
  negb (truthy_str o)
  || negb (match o with
           | Some t => Js.includes ["seeking"; "offering"] t
           | None => false
           end) = false
  <-> (o = Some "seeking" \/ o = Some "offering").
Proof.
  intros [t|]; simpl.
  - rewrite orb_false_iff, !negb_false_iff, orb_false_r, orb_true_iff, !String.eqb_eq.
    split.
    + intros [_ [->| ->]]; auto.
    + intros [[= ->]|[= ->]]; split; auto.
  - split; [discriminate | intros [H|H]; discriminate].
Qed.

Lemma seeking_check : forall o,
  match o with Some t => (t =? "seeking")%string | None => false end = true
  <-> o = Some "seeking".
Proof.
  intros [t|]; [rewrite String.eqb_eq|]; split; try congruence; discriminate.
Qed.

End CreateBidFacts.

(** C6, as the specification states it, fails: a seeking bid that offers -5
    sats lacks a positive offer, and [createBid] publishes it. *)
Lemma C6_counterexample :
  ~ (forall nowMs privKey finalizeEvent stringify bid log,
        Bid.type bid = Some "seeking" ->
        BSpec.lacksPositiveSats bid ->
        exists e,
          Abn.createBid nowMs privKey finalizeEvent stringify bid log
          = (Js.Rejected e, log)).
Proof.
  intros H.
  destruct (H 0 (Js.Resolved "k") BSpec.plainEvent BSpec.noContent
              BSpec.negativeOffer [] eq_refl) as [e E].
  - intros [n [[= <-] Hn]]. lia.
  - vm_compute in E. discriminate.
Qed.

(** C6, amended: [createBid] rejects, with nothing published, every bid
    whose type is neither [seeking] nor [offering], every bid whose industry
    is missing or empty, and every seeking bid whose [sats] is missing or
    zero; every other bid is handed to [postBid]. *)
Theorem C6_createBid_validation :
  forall nowMs privKey finalizeEvent stringify bid log,
    (BSpec.Refused bid ->
     exists e,
       Abn.createBid nowMs privKey finalizeEvent stringify bid log
       = (Js.Rejected e, log))
    /\ (~ BSpec.Refused bid ->
        Abn.createBid nowMs privKey finalizeEvent stringify bid log
        = Bid.postBid nowMs privKey finalizeEvent stringify bid log).
Proof.
  intros nowMs pk fe st bid log. unfold Abn.createBid, BSpec.Refused.
  pose proof (type_check (Bid.type bid)) as T.
  pose proof (truthy_str_false (Bid.industry bid)) as I.
  pose proof (truthy_num_false (Bid.sats bid)) as S.
  pose proof (seeking_check (Bid.type bid)) as K.
  destruct (negb (Js.truthy_str (Bid.type bid))
            || negb (match Bid.type bid with
                     | Some t => Js.includes ["seeking"; "offering"] t
                     | None => false
                     end)) eqn:ET.
  { split; [intros _; eexists; reflexivity|].
    intros H. exfalso. apply H. left. intros H'. apply T in H'. discriminate. }
  destruct (Js.truthy_str (Bid.industry bid)) eqn:EI; cbn [negb].
  2:{ split; [intros _; eexists; reflexivity|].
      intros H. exfalso. apply H. right. left. now apply I. }
  destruct (Js.truthy_num (Bid.sats bid)) eqn:ES; cbn [negb andb].
  { split; [|reflexivity].
    intros [H|[H|[_ H]]]; exfalso.
    - apply H. now apply T.
    - apply I in H. discriminate.
    - apply S in H. discriminate. }
  destruct (match Bid.type bid with
            | Some t => (t =? "seeking")%string
            | None => false
            end) eqn:EK.
  { split; [intros _; eexists; reflexivity|].
    intros H. exfalso. apply H. right. right. split; [now apply K | now apply S]. }
  split; [|reflexivity].
  intros [H|[H|[H _]]]; exfalso.
  - apply H. now apply T.
  - apply I in H. discriminate.
  - apply K in H. congruence.
Qed.

(** A seeking bid that offers 5000 sats is published on every relay. *)
Lemma createBid_goodOffer :
  exists event,
    Abn.createBid 1699000000000 (Js.Resolved "k") BSpec.plainEvent BSpec.noContent
      BSpec.goodOffer []
    = (Js.Resolved tt, map (fun url => Bid.mkAttempt url event) Nostr.RELAYS)
    /\ BSpec.hasExpiry event (1699000000 + 7 * 86400).
Proof.
  eexists. split; [reflexivity|].
  eexists. split; [reflexivity|]. vm_compute. reflexivity.
Qed.

(* ================================================================== *)
(** * The negotiation state machine *)

(** C5: a message that is not a valid transition from the current status of
    a deal is appended to its message log and leaves its status unchanged;
    an [accept] received while the deal is already [ACCEPTED] is such a
    message. *)
Theorem C5_out_of_turn_message_logged :
  forall d m,
    Deal.transition (Deal.status d) (Deal.Msg m) = None ->
    Deal.status (Deal.step d (Deal.Msg m)) = Deal.status d
    /\ Deal.messageLog (Deal.step d (Deal.Msg m)) = (Deal.messageLog d ++ [m])%list
    /\ (forall ts ref,
          Deal.transition Deal.ACCEPTED (Deal.Msg (Deal.mkMessage ts (Deal.accept ref)))
          = None).
Proof.
  intros d m H. unfold Deal.step. rewrite H. cbn [Deal.status Deal.messageLog].
  repeat split.
Qed.

(** C5, at a second [accept] for the deal that was accepted. *)
Lemma C5_witness :
  Deal.status DSpec.accepted = Deal.ACCEPTED
  /\ Deal.status (Deal.step DSpec.accepted (Deal.Msg DSpec.acceptAgain))
     = Deal.status DSpec.accepted
  /\ Deal.messageLog (Deal.step DSpec.accepted (Deal.Msg DSpec.acceptAgain))
     = (Deal.messageLog DSpec.accepted ++ [DSpec.acceptAgain])%list.
Proof.
  split; [reflexivity|].
  split; apply (C5_out_of_turn_message_logged DSpec.accepted DSpec.acceptAgain);
    reflexivity.
Defined.

(** The walk of the specification: a deal is opened by an inquiry; after
    the acceptance, payment, [paid] and [placed], a failed verification ends
    in [FAILED] and keeps the reason; a new [placed] message re-enters
    [VERIFYING], and a successful verification ends in [COMPLETED]. *)
Lemma deal_walk :
  Deal.create "npub-buyer" "npub-seller"
    (Deal.mkMessage 1 (Deal.inquiry "bid-1" "Interested in a link"))
  = Some DSpec.opened
  /\ (let failed := Deal.run DSpec.accepted DSpec.toFailedCheck in
      Deal.status failed = Deal.FAILED
      /\ Deal.verificationReason failed = Some "No links found to target domain"
      /\ Deal.status (Deal.step failed (DSpec.msg 8 (Deal.placed "u" "p")))
         = Deal.VERIFYING
      /\ Deal.status (Deal.run failed DSpec.retry) = Deal.COMPLETED
      /\ List.length (Deal.messageLog (Deal.run failed DSpec.retry)) = 6%nat).
Proof. vm_compute. repeat split. Qed.

(** The status of a deal never changes on an event that is not a valid
    transition, and a completed deal stays completed. *)
Lemma step_invalid_status : forall d e,
  Deal.transition (Deal.status d) e = None ->
  Deal.status (Deal.step d e) = Deal.status d.
Proof. intros d e H. unfold Deal.step. now rewrite H. Qed.

Lemma completed_final : forall d e,
  Deal.status d = Deal.COMPLETED -> Deal.status (Deal.step d e) = Deal.COMPLETED.
Proof.
  intros d e H. rewrite step_invalid_status; [exact H|]. rewrite H.
  destruct e as [m| | | |]; reflexivity.
Qed.

(* ================================================================== *)
(** * Link extraction: what is found, and in which order *)

Section MatcherComplete.
Import VSpec.

Lemma star_complete : forall (R : Type) p (k : string -> option R) seg rest r,
  every p seg = true -> k rest = Some r ->
  exists seg' r', Str.star p k (seg ++ rest) = Some (seg', r').
Proof.
  intros R p k seg; induction seg as [|c seg IH]; intros rest r E K.
  - simpl. destruct rest as [|c rest]; simpl.
    + rewrite K. simpl. eauto.
    + destruct (p c).
      * destruct (Str.star p k rest) as [[seg' r']|]; [eauto|].
        rewrite K. simpl. eauto.
      * rewrite K. simpl. eauto.
  - simpl in E. apply andb_true_iff in E. destruct E as [Pc E].
    simpl. rewrite Pc. destruct (IH rest r E K) as [seg' [r' S]].
    rewrite S. eauto.
Qed.

(** Where a text splits into pieces that the items match, the matcher
    finds a match. *)
Lemma run_complete : forall r segs,
  Forall2 Matches r segs ->
  forall rest, exists segs' rest',
    Str.run r (String.concat EmptyString segs ++ rest) = Some (segs', rest').
Proof.
  intros r segs F; induction F as [|i seg r segs M F IH]; intros rest.
  - simpl. eauto.
  - rewrite concat_cons, append_assoc.
    destruct (IH rest) as [segs1 [rest1 R1]].
    inversion M as [p c Pc|p s E|p c s Pc E]; subst; simpl.
    + rewrite Pc, R1. simpl. eauto.
    + destruct (star_complete _ p (Str.run r) seg _ _ E R1) as [seg' [[s1 r1] S]].
      rewrite S. simpl. eauto.
    + rewrite Pc.
      destruct (star_complete _ p (Str.run r) s _ _ E R1) as [seg' [[s1 r1] S]].
      rewrite S. simpl. eauto.
Qed.

Lemma execAll_complete : forall r pre segs post,
  Forall2 Matches r segs ->
  Str.execAll r (pre ++ String.concat EmptyString segs ++ post) 0 <> [].
Proof.
  intros r pre; induction pre as [|c pre IH]; intros segs post F.
  - simpl append. destruct (run_complete r segs F post) as [segs' [rest' R]].
    destruct (String.concat EmptyString segs ++ post)%string; simpl; rewrite R;
      discriminate.
  - simpl. destruct (Str.run r _) as [[segs' rest']|]; [discriminate|].
    now apply IH.
Qed.

End MatcherComplete.

Section MarkupFound.
Import VSpec Verify.

Lemma lowerChar_slash : forall c, Str.lowerChar c = "/"%char -> c = "/"%char.
Proof.
  intros c. destruct c as [[|] [|] [|] [|] [|] [|] [|] [|]]; vm_compute;
    intros H; try reflexivity; discriminate H.
Qed.

Lemma lowerChar_gt : forall c, Str.lowerChar c = ">"%char -> c = ">"%char.
Proof.
  intros c. destruct c as [[|] [|] [|] [|] [|] [|] [|] [|]]; vm_compute;
    intros H; try reflexivity; discriminate H.
Qed.

Lemma ci_of_lower : forall c x, Str.lowerChar x = c -> Str.ci c x = true.
Proof. intros c x H. unfold Str.ci. rewrite H. apply Ascii.eqb_refl. Qed.

(** The pieces of an anchor element, as the pattern reads them. *)
Lemma pieces_of_markup : forall html value body,
  AnchorMarkup html value body ->
  exists pre segs post,
    html = (pre ++ String.concat EmptyString segs ++ post)%string
    /\ Forall2 Matches linkRegex segs.
Proof.
  intros html value body
    (pre & opening & ws & attrs1 & hrefWord & ws1 & ws2 & q1 & q2 & attrs2
     & closing & post
     & E & Hop & Hws0 & Hws & Hattrs1 & Hhref & Hws1 & Hws2 & Hq1 & Hq2 & Hv0 & Hv
     & Hattrs2 & Hbody & Hclosing).
  destruct opening as [|o1 [|o2 [|o3 opening]]]; try discriminate Hop.
  simpl in Hop. injection Hop as Ho1 Ho2. apply lowerChar_lt in Ho1. subst o1.
  destruct ws as [|w ws]; [contradiction|].
  simpl in Hws. apply andb_true_iff in Hws. destruct Hws as [Hw Hws].
  destruct hrefWord as [|h [|r [|e [|f [|x hrefWord]]]]]; try discriminate Hhref.
  simpl in Hhref. injection Hhref as Hh Hr He Hf.
  destruct value as [|v value]; [contradiction|].
  simpl in Hv. apply andb_true_iff in Hv. destruct Hv as [Hv Hvalue].
  destruct closing as [|c1 [|c2 [|c3 [|c4 [|c5 closing]]]]]; try discriminate Hclosing.
  simpl in Hclosing. injection Hclosing as Hc1 Hc2 Hc3 Hc4.
  apply lowerChar_lt in Hc1. apply lowerChar_slash in Hc2. apply lowerChar_gt in Hc4.
  subst c1 c2 c4.
  exists pre,
    [ "<"; String o2 EmptyString; String w ws; attrs1;
      String h EmptyString; String r EmptyString; String e EmptyString;
      String f EmptyString; ws1; "="; ws2; String q1 EmptyString;
      String v value; String q2 EmptyString; attrs2; ">"; body;
      "<"; "/"; String c3 EmptyString; ">" ], post.
  split.
  - rewrite E. repeat rewrite concat_cons. simpl.
    repeat (rewrite ?append_assoc; simpl). reflexivity.
  - unfold linkRegex.
    repeat (apply Forall2_cons || apply Forall2_nil);
      try (apply matches_one; first [reflexivity | now apply ci_of_lower | assumption]);
      try (apply matches_many0; assumption);
      try (apply matches_many1; assumption).
Qed.

End MarkupFound.

(** X1: [extractLinks] finds at least one link exactly in the pages that
    contain an anchor element with a quoted href and a body without ['<']. *)
Theorem extractLinks_finds_markup : forall html,
  Verify.extractLinks html <> []
  <-> exists value body, VSpec.AnchorMarkup html value body.
Proof.
  intros html. split.
  - intros H. destruct (Verify.extractLinks html) as [|l ls] eqn:E; [contradiction|].
    destruct (extractLinks_markup html l) as [value [body [M _]]].
    + rewrite E. now left.
    + eauto.
  - intros [value [body M]].
    destruct (pieces_of_markup _ _ _ M) as [pre [segs [post [-> F]]]].
    unfold Verify.extractLinks. intros H. apply map_eq_nil in H.
    exact (execAll_complete _ _ _ _ F H).
Qed.

Section MatchOrder.
Import VSpec LSpec Verify.

Lemma length_append : forall a b : string,
  String.length (a ++ b) = (String.length a + String.length b)%nat.
Proof. induction a as [|c a IH]; intros b; simpl; [reflexivity | now rewrite IH]. Qed.

Lemma matchLength_concat : forall segs,
  Str.matchLength segs = String.length (String.concat EmptyString segs).
Proof.
  induction segs as [|seg segs IH]; [reflexivity|].
  rewrite concat_cons, length_append. simpl. now rewrite IH.
Qed.

Lemma dropStr_append : forall a b, dropStr (String.length a) (a ++ b) = b.
Proof. induction a as [|c a IH]; intros b; simpl; [reflexivity | apply IH]. Qed.

Lemma inOrder_later : forall ms c s, InOrder ms s -> InOrder ms (String c s).
Proof.
  intros [|m ms] c s H; [exact I|].
  destruct H as [pre [post [-> H]]]. exists (String c pre), post. auto.
Qed.

(** The matches of the loop lie one after the other in the text: a match
    starts where the previous one ended, or later. *)
Lemma execAll_in_order : forall p r s skip,
  InOrder (map (String.concat EmptyString) (Str.execAll (Str.One p :: r) s skip))
    (dropStr skip s).
Proof.
  intros p r s; induction s as [|c s IH]; intros skip.
  - destruct skip; exact I.
  - destruct skip as [|skip]; [|apply IH].
    cbn [dropStr Str.execAll].
    destruct (Str.run (Str.One p :: r) (String c s)) as [[segs rest]|] eqn:R.
    + destruct (run_sound _ _ _ _ R) as [E F].
      cbn [map InOrder]. exists EmptyString, rest. split; [exact E|].
      inversion F as [|i seg r' segs' M F']; subst.
      inversion M; subst.
      rewrite concat_cons in E. simpl in E. injection E as _ E.
      specialize (IH (pred (Str.matchLength (String c0 EmptyString :: segs')))).
      assert (L : pred (Str.matchLength (String c0 EmptyString :: segs'))
                  = String.length (String.concat EmptyString segs')).
      { rewrite matchLength_concat, concat_cons. reflexivity. }
      rewrite L in *. rewrite E in IH at 2. rewrite dropStr_append in IH. exact IH.
    + apply inOrder_later. apply (IH 0%nat).
Qed.

Ltac invert_pieces :=
  repeat match goal with
         | H : Forall2 Matches (_ :: _) _ |- _ => inversion H; clear H; subst
         | H : Forall2 Matches [] _ |- _ => inversion H; clear H; subst
         | H : Matches (Str.One _) _ |- _ => inversion H; clear H; subst
         | H : Matches (Str.Many0 _) _ |- _ => inversion H; clear H; subst
         | H : Matches (Str.Many1 _) _ |- _ => inversion H; clear H; subst
         | H : Str.lit _ _ = true |- _ => apply lit_eq in H; subst
         | H : Str.ci _ _ = true |- _ => apply ci_lower in H
         end.

Lemma match_is_markup : forall segs,
  Forall2 Matches linkRegex segs ->
  exists value body,
    AnchorMarkup (String.concat EmptyString segs) value body
    /\ href (linkOfMatch segs) = Str.trim value
    /\ anchor (linkOfMatch segs) = Str.trim body.
Proof.
  intros segs F. unfold linkRegex in F. invert_pieces.
  do 2 eexists. split; [|split; reflexivity].
  match goal with
  | |- AnchorMarkup ?t _ _ =>
      replace t with (EmptyString ++ t ++ EmptyString)%string
        by (change (EmptyString ++ t ++ EmptyString)%string
              with (t ++ EmptyString)%string; apply append_nil_r)
  end.
  apply markup_of_pieces; eassumption.
Qed.

Lemma Forall2_map_In : forall {A B C} (R : B -> C -> Prop) (f : A -> B) (g : A -> C) l,
  (forall x, In x l -> R (f x) (g x)) -> Forall2 R (map f l) (map g l).
Proof.
  intros A B C R f g l; induction l as [|x l IH]; intros H; simpl; constructor.
  - apply H. now left.
  - apply IH. intros y Hy. apply H. now right.
Qed.

End MatchOrder.

(** X2: the link records of a page come, one to one and in page order, from
    stretches of the page that do not overlap, each an anchor element with
    a quoted href and a body without ['<']. *)
Theorem extractLinks_in_page_order : forall html,
  exists texts,
    LSpec.InOrder texts html
    /\ Forall2
         (fun t l =>
            exists value body,
              VSpec.AnchorMarkup t value body
              /\ Verify.href l = Str.trim value /\ Verify.anchor l = Str.trim body)
         texts (Verify.extractLinks html).
Proof.
  intros html.
  exists (map (String.concat EmptyString) (Str.execAll Verify.linkRegex html 0)).
  split.
  - apply (execAll_in_order _ _ html 0).
  - unfold Verify.extractLinks. apply Forall2_map_In.
    intros segs H. apply execAll_sound in H. destruct H as [_ [_ [_ F]]].
    now apply match_is_markup.
Qed.

Section RecordFacts.
Import VSpec LSpec Verify.

Lemma trimEnd_idem : forall s, Str.trimEnd (Str.trimEnd s) = Str.trimEnd s.
Proof.
  induction s as [|c s IH]; [reflexivity|].
  simpl. destruct (Str.trimEnd s) as [|c' t] eqn:E.
  - destruct (Str.isSpace c) eqn:Sp; [reflexivity|]. simpl. now rewrite Sp.
  - change (Str.trimEnd (String c (String c' t)))
      with (match Str.trimEnd (String c' t) with
            | EmptyString => if Str.isSpace c then EmptyString else String c EmptyString
            | u => String c u
            end).
    rewrite IH. reflexivity.
Qed.

Lemma trimStart_clean : forall s, startsClean (Str.trimStart s).
Proof.
  induction s as [|c s IH]; simpl; [exact I|].
  destruct (Str.isSpace c) eqn:Sp; [exact IH | exact Sp].
Qed.

Lemma trimStart_of_clean : forall s, startsClean s -> Str.trimStart s = s.
Proof. intros [|c s] H; simpl; [reflexivity|]. simpl in H. now rewrite H. Qed.

Lemma trimEnd_clean : forall s, startsClean s -> startsClean (Str.trimEnd s).
Proof.
  intros [|c s] H; simpl; [exact I|]. simpl in H.
  destruct (Str.trimEnd s); [rewrite H|]; exact H.
Qed.

Lemma trim_idem : forall s, Str.trim (Str.trim s) = Str.trim s.
Proof.
  intros s. unfold Str.trim.
  rewrite (trimStart_of_clean (Str.trimEnd (Str.trimStart s))).
  - apply trimEnd_idem.
  - apply trimEnd_clean, trimStart_clean.
Qed.

Lemma lowerChar_idem : forall c, Str.lowerChar (Str.lowerChar c) = Str.lowerChar c.
Proof. intros c. destruct c as [[|] [|] [|] [|] [|] [|] [|] [|]]; reflexivity. Qed.

Lemma toLowerCase_idem : forall s, Str.toLowerCase (Str.toLowerCase s) = Str.toLowerCase s.
Proof.
  induction s as [|c s IH]; simpl; [reflexivity|]. now rewrite lowerChar_idem, IH.
Qed.

Lemma prefix_lower : forall t s,
  String.prefix t s = true ->
  String.prefix (Str.toLowerCase t) (Str.toLowerCase s) = true.
Proof.
  induction t as [|a t IH]; intros s H; [destruct s; reflexivity|].
  destruct s as [|b s]; [discriminate|]. simpl in H. simpl.
  destruct (ascii_dec a b) as [->|]; [|discriminate].
  destruct (ascii_dec (Str.lowerChar b) (Str.lowerChar b)); [|contradiction].
  now apply IH.
Qed.

Lemma includes_lower : forall s t,
  Str.includes s t = true ->
  Str.includes (Str.toLowerCase s) (Str.toLowerCase t) = true.
Proof.
  induction s as [|c s IH]; intros t H; simpl in H; simpl.
  - rewrite orb_false_r in H. rewrite orb_false_r.
    apply (prefix_lower t EmptyString H).
  - apply orb_true_iff in H. apply orb_true_iff. destruct H as [H|H].
    + left. apply (prefix_lower t (String c s) H).
    + right. now apply IH.
Qed.

End RecordFacts.

(** X3: every link record has a trimmed href and anchor text and a
    lower-case [rel]; a record flagged nofollow, sponsored or ugc has the
    word in its [rel].  The converse fails, because the flags are read from
    the attribute as written: a link with rel="NoFollow" is recorded as
    dofollow, and a page that carries only this link passes a verification
    that requires a dofollow link. *)
Theorem link_record_invariants :
  (forall html l,
      In l (Verify.extractLinks html) ->
      Str.trim (Verify.href l) = Verify.href l
      /\ Str.trim (Verify.anchor l) = Verify.anchor l
      /\ Str.toLowerCase (Verify.rel l) = Verify.rel l
      /\ (Verify.isDoFollow l = false -> Str.includes (Verify.rel l) "nofollow" = true)
      /\ (Verify.isSponsored l = true -> Str.includes (Verify.rel l) "sponsored" = true)
      /\ (Verify.isUGC l = true -> Str.includes (Verify.rel l) "ugc" = true))
  /\ Verify.extractLinks MorePages.capitals = [MorePages.capitalsLink]
  /\ (forall clock urlHref urlHostname pageUrl,
        exists res w',
          Verify.verifyBacklink (Pages.serves MorePages.capitals) clock urlHref urlHostname
            1 pageUrl "target.example" MorePages.wantDofollow []
          = Some (Js.Resolved res, w')
          /\ Verify.verified res = true
          /\ Verify.bestMatch res = Some MorePages.capitalsLink).
Proof.
  split; [|split].
  - intros html l H. unfold Verify.extractLinks in H.
    apply in_map_iff in H. destruct H as [segs [<- _]].
    unfold Verify.linkOfMatch.
    cbn [Verify.href Verify.anchor Verify.rel Verify.isDoFollow Verify.isSponsored
         Verify.isUGC].
    repeat split.
    + apply trim_idem.
    + apply trim_idem.
    + apply toLowerCase_idem.
    + intros H. apply negb_false_iff in H.
      apply (includes_lower _ "nofollow" H).
    + intros H. apply (includes_lower _ "sponsored" H).
    + intros H. apply (includes_lower _ "ugc" H).
  - vm_compute. reflexivity.
  - intros clock urlHref u pageUrl.
    assert (E : Verify.extractLinks MorePages.capitals = [MorePages.capitalsLink])
      by (vm_compute; reflexivity).
    assert (P : Verify.pointsTo u pageUrl "target.example" MorePages.capitalsLink = true)
      by (apply pointsTo_href; vm_compute; reflexivity).
    do 2 eexists. split; [|split].
    + unfold Verify.verifyBacklink, Verify.try_catch, Verify.bind.
      change (Verify.fetchPage (Pages.serves MorePages.capitals) urlHref 1 pageUrl [])
        with (Some (Js.Resolved MorePages.capitals, [Verify.Request pageUrl])).
      cbv beta iota zeta. rewrite E. cbn [filter]. rewrite P. reflexivity.
    + reflexivity.
    + reflexivity.
Qed.

(* ================================================================== *)
(** * The verdict of a verification *)

Section VerdictFacts.
Import Js VSpec MSpec Verify.
Variable net : World -> string -> NetReply.
Variable clock : World -> string.
Variable urlHref : string -> string -> option string.
Variable urlHostname : string -> string -> option string.

Lemma filter_none_length : forall {A} (p : A -> bool) l,
  Nat.eqb (List.length (filter p l)) 0 = true <-> (forall x, In x l -> p x = false).
Proof.
  intros A p l. split.
  - intros H x Hx. destruct (filter p l) as [|y ys] eqn:E; [|discriminate].
    destruct (p x) eqn:Px; [|reflexivity].
    assert (In x (filter p l)) by (apply filter_In; auto).
    rewrite E in H0. contradiction.
  - intros H. destruct (filter p l) as [|y ys] eqn:E; [reflexivity|].
    assert (Hy : In y (filter p l)) by (rewrite E; now left).
    apply filter_In in Hy. destruct Hy as [Hy Py]. rewrite (H y Hy) in Py. discriminate.
Qed.

Lemma existsb_false_iff : forall {A} (p : A -> bool) l,
  existsb p l = false <-> (forall x, In x l -> p x = false).
Proof.
  intros A p l. split.
  - intros H x Hx. destruct (p x) eqn:Px; [|reflexivity].
    assert (existsb p l = true) by (apply existsb_exists; eauto). congruence.
  - intros H. destruct (existsb p l) eqn:E; [|reflexivity].
    apply existsb_exists in E. destruct E as [x [Hx Px]]. rewrite (H x Hx) in Px.
    discriminate.
Qed.

(** X4: once the page is fetched, the verification succeeds exactly when
    the links to the target meet every constraint that is set, each
    constraint by some link to the target, not necessarily the same one.
    Whenever there are links to the target, the result reports all of them,
    on success and on failure.  Without any, the message says so; when
    dofollow is required and all of them are nofollow, the message says
    that, whatever the other constraints. *)
Theorem verifyBacklink_verdict : forall fuel pageUrl targetDomain options w html w',
  Verify.fetchPage net urlHref fuel pageUrl w = Some (Resolved html, w') ->
  let matching := filter (pointsTo urlHostname pageUrl targetDomain) (extractLinks html) in
  exists res,
    Verify.verifyBacklink net clock urlHref urlHostname fuel pageUrl targetDomain
      options w = Some (Resolved res, w')
    /\ (verified res = true <-> Meets matching options)
    /\ (matching <> [] -> linksFound res = Some matching)
    /\ (matching = [] -> message res = "No links found to target domain")
    /\ (matching <> [] -> dofollow options = true ->
        (forall l, In l matching -> isDoFollow l = false) ->
        message res = "Links found but all are nofollow").
Proof.
  intros fuel p t o w html w' F matching.
  unfold Verify.verifyBacklink, try_catch, bind. rewrite F. fold matching.
  destruct matching as [|first rest] eqn:M.
  - eexists. split; [reflexivity|].
    cbn [verified linksFound message]. unfold Meets.
    split; [|split; [|split]].
    + split; [discriminate|]. intros [H _]. contradiction.
    + intros H. contradiction.
    + reflexivity.
    + intros H. contradiction.
  - set (ml := first :: rest) in *.
    assert (Hne : ml <> []) by discriminate.
    destruct (dofollow o && Nat.eqb (List.length (filter isDoFollow ml)) 0) eqn:D.
    { apply andb_true_iff in D. destruct D as [Do D].
      pose proof (proj1 (filter_none_length _ _) D) as N.
      eexists. split; [reflexivity|].
      cbn [verified linksFound message]. unfold Meets.
      split; [|split; [|split]].
      - split; [discriminate|].
        intros (_ & H & _). destruct (H Do) as [l [Hl Dl]]. rewrite (N l Hl) in Dl.
        discriminate.
      - reflexivity.
      - discriminate.
      - reflexivity. }
    assert (Hdo : dofollow o = true -> exists l, In l ml /\ isDoFollow l = true).
    { intros Do. rewrite Do in D. cbn [andb] in D.
      destruct (filter isDoFollow ml) as [|l ls] eqn:E; [discriminate|].
      exists l. apply filter_In. rewrite E. now left. }
    assert (Hnot : dofollow o = true -> ~ (forall l, In l ml -> isDoFollow l = false)).
    { intros Do H. destruct (Hdo Do) as [l [Hl Dl]]. rewrite (H l Hl) in Dl.
      discriminate. }
    destruct (truthy_str (opt_anchor o)
              && negb (existsb
                         (anchorMatches
                            (match opt_anchor o with Some a => a | None => EmptyString end))
                         ml)) eqn:A.
    { apply andb_true_iff in A. destruct A as [Ta A]. apply negb_true_iff in A.
      destruct (opt_anchor o) as [a|] eqn:Oa; [|discriminate].
      simpl in Ta. apply negb_true_iff, String.eqb_neq in Ta.
      eexists. split; [reflexivity|].
      cbn [verified linksFound message]. unfold Meets.
      split; [|split; [|split]].
      - split; [discriminate|].
        intros (_ & _ & H & _). destruct (H a Oa Ta) as [l [Hl Al]].
        rewrite (proj1 (existsb_false_iff _ _) A l Hl) in Al. discriminate.
      - reflexivity.
      - discriminate.
      - intros _ Do H. exfalso. exact (Hnot Do H). }
    assert (Han : forall a, opt_anchor o = Some a -> a <> EmptyString ->
                    exists l, In l ml /\ anchorMatches a l = true).
    { intros a Oa Na. rewrite Oa in A. cbn [truthy_str] in A.
      apply String.eqb_neq in Na. rewrite Na in A. cbn [negb andb] in A.
      apply negb_false_iff, existsb_exists in A. exact A. }
    destruct (truthy_str (exactUrl o)
              && negb (existsb
                         (fun l => match exactUrl o with
                                   | Some u => (href l =? u)%string
                                   | None => false
                                   end) ml)) eqn:X.
    { apply andb_true_iff in X. destruct X as [Tx X]. apply negb_true_iff in X.
      destruct (exactUrl o) as [u|] eqn:Ou; [|discriminate].
      simpl in Tx. apply negb_true_iff, String.eqb_neq in Tx.
      eexists. split; [reflexivity|].
      cbn [verified linksFound message]. unfold Meets.
      split; [|split; [|split]].
      - split; [discriminate|].
        intros (_ & _ & _ & H). destruct (H u Ou Tx) as [l [Hl Ul]].
        pose proof (proj1 (existsb_false_iff _ _) X l Hl) as Xl. simpl in Xl.
        apply String.eqb_neq in Xl. contradiction.
      - reflexivity.
      - discriminate.
      - intros _ Do H. exfalso. exact (Hnot Do H). }
    assert (Hex : forall u, exactUrl o = Some u -> u <> EmptyString ->
                    exists l, In l ml /\ href l = u).
    { intros u Ou Nu. rewrite Ou in X. cbn [truthy_str] in X.
      apply String.eqb_neq in Nu. rewrite Nu in X. cbn [negb andb] in X.
      apply negb_false_iff, existsb_exists in X. destruct X as [l [Hl E]].
      exists l. split; [exact Hl|]. now apply String.eqb_eq. }
    eexists. split; [reflexivity|].
    cbn [verified linksFound message]. unfold Meets.
    split; [|split; [|split]].
    + split; [intros _|reflexivity]. repeat split; assumption.
    + reflexivity.
    + discriminate.
    + intros _ Do H. exfalso. exact (Hnot Do H).
Qed.

End VerdictFacts.

Lemma verifyBacklink_verdict_witness :
  let matching :=
    filter (Verify.pointsTo (fun _ _ => None) "https://blog.example/post" "target.example")
      (Verify.extractLinks Pages.twoLinks) in
  exists res,
    Verify.verifyBacklink (Pages.serves Pages.twoLinks) (fun _ => EmptyString)
      Pages.onSite (fun _ _ => None) 1 "https://blog.example/post" "target.example"
      Pages.wantSecond []
    = Some (Js.Resolved res, [Verify.Request "https://blog.example/post"])
    /\ (Verify.verified res = true <-> MSpec.Meets matching Pages.wantSecond)
    /\ (matching <> [] -> Verify.linksFound res = Some matching)
    /\ (matching = [] -> Verify.message res = "No links found to target domain")
    /\ (matching <> [] -> Verify.dofollow Pages.wantSecond = true ->
        (forall l, In l matching -> Verify.isDoFollow l = false) ->
        Verify.message res = "Links found but all are nofollow").
Proof.
  exact (verifyBacklink_verdict (Pages.serves Pages.twoLinks) (fun _ => EmptyString)
           Pages.onSite (fun _ _ => None) 1 "https://blog.example/post"
           "target.example" Pages.wantSecond [] Pages.twoLinks
           [Verify.Request "https://blog.example/post"] eq_refl).
Defined.

(* ================================================================== *)
(** * Fetching: redirects without limit *)

(** X5: a fetch settles exactly when the chain of redirects that starts at
    its URL ends in a reply that is no redirect, and it settles to the
    outcome of that reply, with the requests of the chain as its effects;
    it resolves, to the body, only when that last reply has status 200:
    any other status, 204 or 304 sent without location included, rejects. *)
Theorem fetchPage_settles_on_terminal_reply : forall net urlHref url w r w',
  ((exists fuel, Verify.fetchPage net urlHref fuel url w = Some (r, w'))
   <-> (exists reply, VSpec.Terminal net urlHref url w reply w' /\ r = VSpec.outcome reply))
  /\ (forall fuel html,
        Verify.fetchPage net urlHref fuel url w = Some (Js.Resolved html, w') ->
        exists location,
          VSpec.Terminal net urlHref url w (Verify.NetResponse 200 location html) w')
  /\ (forall reply, VSpec.Terminal net urlHref url w reply w' ->
        exists t, w' = (w ++ t)%list /\ VSpec.FetchTrace url t).
Proof.
  intros net urlHref url w r w'. split; [split|split].
  - intros [fuel F]. eapply fetchPage_terminal; eassumption.
  - intros [reply [T ->]].
    destruct (terminal_fetchPage _ _ _ _ _ _ T) as [fuel0 F].
    exists fuel0. apply F. apply Nat.le_refl.
  - intros fuel html F.
    destruct (fetchPage_terminal _ _ _ _ _ _ _ F) as [reply [T E]].
    destruct reply as [m| |sc loc body]; unfold VSpec.outcome, VSpec.failure in E;
      try discriminate.
    destruct (Z.eqb_spec sc 200) as [->|]; [|discriminate].
    injection E as ->. exists loc. exact T.
  - intros reply T.
    destruct (terminal_fetchPage _ _ _ _ _ _ T) as [fuel0 F].
    eapply fetchPage_trace. apply (F fuel0). apply Nat.le_refl.
Qed.

(** X6: there is no limit on redirects.  Where every reply is a redirect
    that can be followed, a fetch is never settled, however many requests
    are made; neither is a verification, nor a batch that has a check. *)
Theorem fetchPage_endless_redirects : forall net clock urlHref urlHostname,
  (forall w url, exists loc next,
      VSpec.redirects (net w url) = Some loc
      /\ (if Str.startsWith loc "http" then Some loc else urlHref loc url) = Some next) ->
  forall fuel url w,
    Verify.fetchPage net urlHref fuel url w = None
    /\ (forall targetDomain options,
          Verify.verifyBacklink net clock urlHref urlHostname fuel url targetDomain
            options w = None)
    /\ (forall c checks,
          Verify.batchVerify net clock urlHref urlHostname fuel (c :: checks) w = None).
Proof.
  intros net clock urlHref u H.
  assert (F : forall fuel url w, Verify.fetchPage net urlHref fuel url w = None).
  { induction fuel as [|fuel IH]; intros url w; [reflexivity|].
    rewrite fetchPage_step. destruct (H w url) as [loc [next [R N]]].
    rewrite R, N. apply IH. }
  intros fuel url w. split; [apply F|]. split.
  - intros t o. apply verify_pending. apply F.
  - intros c checks. unfold Verify.batchVerify. simpl. unfold Verify.bind at 1.
    rewrite (verify_pending _ _ _ _ _ _ _ _ _ (F fuel (Verify.check_pageUrl c) w)).
    reflexivity.
Qed.

Lemma fetchPage_endless_redirects_witness :
  Verify.fetchPage MorePages.looping Pages.onSite 1000 "https://a.example/partners" []
  = None
  /\ (forall targetDomain options,
        Verify.verifyBacklink MorePages.looping (fun _ => EmptyString) Pages.onSite
          (fun _ _ => None) 1000 "https://a.example/partners" targetDomain options []
        = None)
  /\ (forall c checks,
        Verify.batchVerify MorePages.looping (fun _ => EmptyString) Pages.onSite
          (fun _ _ => None) 1000 (c :: checks) [] = None).
Proof.
  apply (fetchPage_endless_redirects MorePages.looping (fun _ => EmptyString)
           Pages.onSite (fun _ _ => None)).
  intros w url. exists "https://a.example/", "https://a.example/".
  split; reflexivity.
Defined.

(* ================================================================== *)
(** * The target domain is looked for as a piece of text *)

(** X18: a link counts as a link to the target as soon as its href holds
    the target domain somewhere, as a piece of text: with no further
    constraint, the verification succeeds on any page with such a link,
    whatever site the link goes to, and reports it among the links found. *)
Theorem link_holding_domain_verifies :
  forall net clock urlHref urlHostname fuel pageUrl targetDomain options w html w' l,
    Verify.fetchPage net urlHref fuel pageUrl w = Some (Js.Resolved html, w') ->
    In l (Verify.extractLinks html) ->
    Str.includes (Verify.href l) targetDomain = true ->
    Verify.dofollow options = false ->
    Js.truthy_str (Verify.opt_anchor options) = false ->
    Js.truthy_str (Verify.exactUrl options) = false ->
    exists res found,
      Verify.verifyBacklink net clock urlHref urlHostname fuel pageUrl targetDomain
        options w = Some (Js.Resolved res, w')
      /\ Verify.verified res = true
      /\ Verify.linksFound res = Some found /\ In l found
      /\ Verify.bestMatch res = hd_error found.
Proof.
  intros net clock urlHref u fuel p t o w html w' l F Hl Hi Hd Ha He.
  unfold Verify.verifyBacklink, Verify.try_catch, Verify.bind. rewrite F.
  assert (M : In l (filter (Verify.pointsTo u p t) (Verify.extractLinks html))).
  { apply filter_In. split; [exact Hl|]. now apply pointsTo_href. }
  destruct (filter (Verify.pointsTo u p t) (Verify.extractLinks html))
    as [|first rest]; [contradiction|].
  rewrite Hd, Ha, He. cbn [andb].
  do 2 eexists. split; [reflexivity|]. cbn.
  split; [reflexivity|]. split; [reflexivity|]. split; [exact M | reflexivity].
Qed.

Lemma link_holding_domain_verifies_witness :
  exists res found,
    Verify.verifyBacklink (Pages.serves MorePages.foreign) (fun _ => EmptyString)
      Pages.onSite (fun _ _ => Some "other.example") 1 "https://blog.example/post"
      "target.example" Pages.noOptions []
    = Some (Js.Resolved res, [Verify.Request "https://blog.example/post"])
    /\ Verify.verified res = true
    /\ Verify.linksFound res = Some found /\ In MorePages.foreignLink found
    /\ Verify.bestMatch res = hd_error found.
Proof.
  apply (link_holding_domain_verifies (Pages.serves MorePages.foreign)
           (fun _ => EmptyString) Pages.onSite (fun _ _ => Some "other.example") 1
           "https://blog.example/post" "target.example" Pages.noOptions []
           MorePages.foreign [Verify.Request "https://blog.example/post"]
           MorePages.foreignLink).
  - reflexivity.
  - vm_compute. left. reflexivity.
  - vm_compute. reflexivity.
  - reflexivity.
  - reflexivity.
  - reflexivity.
Defined.

(* ================================================================== *)
(** * The command line of the verifier *)

Section CliFacts.
Import VSpec CSpec Cli.

Lemma split_cons : forall sep s, exists piece pieces, split sep s = piece :: pieces.
Proof.
  intros sep s; induction s as [|c s [piece [pieces IH]]]; simpl; [eauto|].
  destruct (Ascii.eqb c sep); [eauto|]. rewrite IH. eauto.
Qed.

Lemma split_hd : forall sep s, hd_error (split sep s) = Some (upTo sep s).
Proof.
  intros sep s; induction s as [|c s IH]; simpl; [reflexivity|].
  destruct (Ascii.eqb c sep); [reflexivity|].
  destruct (split sep s) as [|piece pieces]; simpl in *; [discriminate|].
  now injection IH as ->.
Qed.

Lemma split_after : forall sep pre v,
  every (Str.non (Str.lit sep)) pre = true ->
  split sep (pre ++ String sep v) = pre :: split sep v.
Proof.
  intros sep pre v; induction pre as [|c pre IH]; simpl; intros E.
  - now rewrite Ascii.eqb_refl.
  - apply andb_true_iff in E. destruct E as [Hc E].
    unfold Str.non, Str.lit in Hc. apply negb_true_iff in Hc.
    rewrite Ascii.eqb_sym in Hc. rewrite Hc, (IH E). reflexivity.
Qed.

Lemma prefix_split : forall t s, String.prefix t s = true -> exists v, s = (t ++ v)%string.
Proof.
  induction t as [|c t IH]; intros s H.
  - exists s. reflexivity.
  - destruct s as [|d s]; simpl in H; [discriminate|].
    destruct (Ascii.ascii_dec c d) as [->|]; [|discriminate].
    destruct (IH s H) as [v ->]. exists v. reflexivity.
Qed.

Lemma prefix_nil : forall s, String.prefix EmptyString s = true.
Proof. intros s; destruct s; reflexivity. Qed.

(** The value of a flag [name=v]: [v] up to its first ['='], without its
    double quotes. *)
Lemma flagValue_named : forall name v,
  every (Str.non (Str.lit "=")) name = true ->
  flagValue (name ++ String "=" v) = Some (removeQuotes (upTo "=" v)).
Proof.
  intros name v E. unfold flagValue. rewrite (split_after _ _ _ E).
  change (nth_error (name :: split "=" v) 1) with (hd_error (split "=" v)).
  now rewrite split_hd.
Qed.

Lemma readFlag_total : forall options flag, exists options', readFlag options flag = Some options'.
Proof.
  intros o flag. unfold readFlag.
  set (o1 := if (flag =? "--dofollow")%string then _ else o). clearbody o1.
  assert (V : forall name, every (Str.non (Str.lit "=")) name = true ->
                Str.startsWith flag (name ++ "=") = true ->
                exists v, flagValue flag = Some v).
  { intros name E P. unfold Str.startsWith in P.
    destruct (prefix_split _ _ P) as [v ->].
    rewrite append_assoc. simpl. rewrite (flagValue_named _ _ E). eauto. }
  destruct (Str.startsWith flag "--anchor=") eqn:A.
  - destruct (V "--anchor" eq_refl A) as [v ->].
    destruct (Str.startsWith flag "--exact=") eqn:X; [|eauto].
    eauto.
  - destruct (Str.startsWith flag "--exact=") eqn:X; [|eauto].
    destruct (V "--exact" eq_refl X) as [v ->]. eauto.
Qed.

Lemma readFlags_total : forall flags options,
  exists options', readFlags options flags = Some options'.
Proof.
  induction flags as [|flag flags IH]; intros o; simpl; [eauto|].
  destruct (readFlag_total o flag) as [o' ->]. apply IH.
Qed.

Lemma upTo_length : forall c s, (String.length (upTo c s) <= String.length s)%nat.
Proof.
  intros c s; induction s as [|x s IH]; simpl; [lia|].
  destruct (Ascii.eqb x c); simpl; lia.
Qed.

Lemma upTo_all : forall c s,
  String.length (upTo c s) = String.length s -> every (Str.non (Str.lit c)) s = true.
Proof.
  intros c s; induction s as [|x s IH]; simpl; intros L; [reflexivity|].
  unfold Str.non at 1, Str.lit at 1. rewrite Ascii.eqb_sym.
  destruct (Ascii.eqb x c); simpl in *; [discriminate|].
  apply IH. lia.
Qed.

Lemma upTo_none : forall c s, every (Str.non (Str.lit c)) s = true -> upTo c s = s.
Proof.
  intros c s; induction s as [|x s IH]; simpl; intros E; [reflexivity|].
  apply andb_true_iff in E. destruct E as [Hx E].
  unfold Str.non, Str.lit in Hx. apply negb_true_iff in Hx.
  rewrite Ascii.eqb_sym in Hx. rewrite Hx, (IH E). reflexivity.
Qed.

Lemma removeQuotes_length : forall s,
  (String.length (removeQuotes s) <= String.length s)%nat.
Proof.
  induction s as [|x s IH]; simpl; [lia|].
  destruct (Ascii.eqb x Str.dquote); simpl; lia.
Qed.

Lemma removeQuotes_all : forall s,
  String.length (removeQuotes s) = String.length s ->
  every (Str.non (Str.lit Str.dquote)) s = true.
Proof.
  induction s as [|x s IH]; simpl; intros L; [reflexivity|].
  unfold Str.non at 1, Str.lit at 1. rewrite Ascii.eqb_sym.
  pose proof (removeQuotes_length s).
  destruct (Ascii.eqb x Str.dquote); simpl in *; [lia|].
  apply IH. lia.
Qed.

Lemma removeQuotes_none : forall s,
  every (Str.non (Str.lit Str.dquote)) s = true -> removeQuotes s = s.
Proof.
  induction s as [|x s IH]; simpl; intros E; [reflexivity|].
  apply andb_true_iff in E. destruct E as [Hx E].
  unfold Str.non, Str.lit in Hx. apply negb_true_iff in Hx.
  rewrite Ascii.eqb_sym in Hx. rewrite Hx, (IH E). reflexivity.
Qed.

(** A value comes through as given exactly when it is plain. *)
Lemma value_kept : forall v, removeQuotes (upTo "=" v) = v <-> plainValue v.
Proof.
  intros v. unfold plainValue. split.
  - intros E.
    assert (L : String.length (upTo "=" v) = String.length v).
    { pose proof (upTo_length "=" v). pose proof (removeQuotes_length (upTo "=" v)).
      rewrite E in H0. lia. }
    pose proof (upTo_all _ _ L) as N. rewrite (upTo_none _ _ N) in E.
    split; [exact N|]. apply removeQuotes_all. now rewrite E.
  - intros [N Q]. rewrite (upTo_none _ _ N). now apply removeQuotes_none.
Qed.

End CliFacts.

(** X7: reading the flags of the command line never throws, and a flag
    [--exact=v] or [--anchor=v] sets the constraint to [v] cut at its first
    ['='] and stripped of its double quotes; so the constraint is the
    value that was given exactly when that value holds neither ['='] nor
    a double quote: a URL with a query string is not passed on whole. *)
Theorem cli_flag_values :
  (forall flags, exists options, Cli.cliOptions flags = Some options)
  /\ (forall v, exists options,
        Cli.cliOptions [("--exact=" ++ v)%string] = Some options
        /\ Verify.exactUrl options = Some (Cli.removeQuotes (CSpec.upTo "=" v))
        /\ (Verify.exactUrl options = Some v <-> CSpec.plainValue v)
        /\ Verify.opt_anchor options = None /\ Verify.dofollow options = false)
  /\ (forall v, exists options,
        Cli.cliOptions [("--anchor=" ++ v)%string] = Some options
        /\ Verify.opt_anchor options = Some (Cli.removeQuotes (CSpec.upTo "=" v))
        /\ (Verify.opt_anchor options = Some v <-> CSpec.plainValue v)
        /\ Verify.exactUrl options = None /\ Verify.dofollow options = false).
Proof.
  split; [|split].
  - intros flags. apply readFlags_total.
  - intros v. eexists. split; [|split; [|split; [|split]]].
    + unfold Cli.cliOptions, Cli.readFlags, Cli.readFlag.
      change ("--exact=" ++ v)%string with ("--exact" ++ String "=" v)%string.
      rewrite (flagValue_named "--exact" v eq_refl). simpl.
      unfold Str.startsWith. rewrite prefix_nil. reflexivity.
    + reflexivity.
    + cbn [Verify.exactUrl]. rewrite <- value_kept.
      split; [now intros [= ->] | now intros ->].
    + reflexivity.
    + reflexivity.
  - intros v. eexists. split; [|split; [|split; [|split]]].
    + unfold Cli.cliOptions, Cli.readFlags, Cli.readFlag.
      change ("--anchor=" ++ v)%string with ("--anchor" ++ String "=" v)%string.
      rewrite (flagValue_named "--anchor" v eq_refl). simpl.
      unfold Str.startsWith. rewrite prefix_nil. reflexivity.
    + reflexivity.
    + cbn [Verify.opt_anchor]. rewrite <- value_kept.
      split; [now intros [= ->] | now intros ->].
    + reflexivity.
    + reflexivity.
Qed.

(* ================================================================== *)
(** * Matching: what a match has in common, and symmetry *)

(** X8: every match that [findMatches] returns scores between 35 and 100,
    and meets at least two of the four criteria (same state, another city,
    same or related industry, authority of 30 or more): no candidate is
    matched on one criterion alone, the same state (30 points) included. *)
Theorem matches_meet_two_criteria : forall requester candidates m,
  In m (Query.findMatches requester candidates) ->
  35 <= Query.matchScore m <= 100
  /\ (2 <= QSpec.met requester (Query.site m))%nat.
Proof.
  intros r l m H.
  assert (S : 30 < Query.matchScore m).
  { rewrite findMatches_sort in H.
    apply (Permutation_in _ (sort_perm _ _)) in H.
    apply in_map_iff in H. destruct H as [s [<- Hs]].
    unfold Spec.kept in Hs. apply filter_In in Hs. destruct Hs as [_ Hs].
    apply andb_true_iff in Hs. destruct Hs as [_ Hs]. now apply Z.ltb_lt in Hs. }
  destruct (findMatches_annotated _ _ _ H) as [_ E]. rewrite E in *. clear E H.
  revert S. rewrite score_terms. unfold QSpec.met, QSpec.criteria.
  generalize (Query.site m). intros c.
  assert (D : Js.num_ge (Query.da c) 40 = true -> Js.num_ge (Query.da c) 30 = true).
  { unfold Js.num_ge. destruct (Query.da c) as [d|]; [|discriminate].
    rewrite !Z.leb_le. lia. }
  destruct (Query.state r =? Query.state c)%string,
           (Query.city r =? Query.city c)%string,
           (Query.industry r =? Query.industry c)%string,
           (Js.truthy_bool
              (Config.isRelatedIndustry (Query.industry r) (Query.industry c))),
           (Js.num_ge (Query.da c) 30), (Js.num_ge (Query.da c) 40);
    simpl; intros S; try lia; try (specialize (D eq_refl); discriminate).
Qed.

Lemma matches_meet_two_criteria_witness :
  35 <= Query.matchScore (Query.mkMatch QSpec.rooferSD 70) <= 100
  /\ (2 <= QSpec.met QSpec.plumberLA
            (Query.site (Query.mkMatch QSpec.rooferSD 70)))%nat.
Proof.
  apply (matches_meet_two_criteria QSpec.plumberLA [QSpec.plumberLA; QSpec.rooferSD]).
  vm_compute. left. reflexivity.
Defined.

Section Symmetry.
Import Query.


End Symmetry.


(* ================================================================== *)
(** * Bids: from posting to querying *)



(** X14: expiry is for good.  The active bids at a later time are the
    active bids, at that later time, among those that were active before:
    a bid that has dropped out never comes back, and the order of the
    events is kept. *)
Theorem activeBids_shrink : forall events now later,
  now <= later ->
  Watch.activeBids events later = Watch.activeBids (Watch.activeBids events now) later
  /\ (forall e, In e (Watch.activeBids events later) -> In e (Watch.activeBids events now))
  /\ (List.length (Watch.activeBids events later)
      <= List.length (Watch.activeBids events now))%nat.
Proof.
  intros events now later Hle.
  assert (M : forall e, Watch.notExpired later e = true -> Watch.notExpired now e = true).
  { intros e. unfold Watch.notExpired.
    destruct (find Watch.isExpiryTag (Nostr.tags e)) as [t|]; [|reflexivity].
    destruct (ParseInt.parseInt (nth_error t 1)) as [expiry|]; [|discriminate].
    rewrite !Z.ltb_lt. lia. }
  assert (E : Watch.activeBids events later
              = Watch.activeBids (Watch.activeBids events now) later).
  { unfold Watch.activeBids. rewrite filter_filter.
    apply filter_ext_in. intros e _.
    destruct (Watch.notExpired later e) eqn:L.
    - now rewrite (M e L).
    - now rewrite andb_false_r. }
  split; [exact E|]. split.
  - intros e H. unfold Watch.activeBids in *. apply filter_In in H.
    apply filter_In. split; [tauto|]. apply M. tauto.
  - rewrite E. unfold Watch.activeBids at 1. apply filter_length_le.
Qed.

Lemma activeBids_shrink_witness :
  Watch.activeBids [BSpec.unlimited; BSpec.expiring] 1700000000
  = Watch.activeBids (Watch.activeBids [BSpec.unlimited; BSpec.expiring] 1699999999)
      1700000000
  /\ (forall e, In e (Watch.activeBids [BSpec.unlimited; BSpec.expiring] 1700000000) ->
        In e (Watch.activeBids [BSpec.unlimited; BSpec.expiring] 1699999999))
  /\ (List.length (Watch.activeBids [BSpec.unlimited; BSpec.expiring] 1700000000)
      <= List.length (Watch.activeBids [BSpec.unlimited; BSpec.expiring] 1699999999))%nat.
Proof.
  apply (activeBids_shrink [BSpec.unlimited; BSpec.expiring] 1699999999 1700000000).
  lia.
Defined.

(* ================================================================== *)
(** * Private keys in hexadecimal *)

Section HexFacts.
Import Js Hex HSpec VSpec.

Lemma bytes_checked : forallb byteChecks (map Z.of_nat (seq 0 256)) = true.
Proof. vm_compute. reflexivity. Qed.

Lemma byte_checks : forall b, isByte b -> byteChecks b = true.
Proof.
  intros b [Hlo Hhi].
  apply (proj1 (forallb_forall _ _) bytes_checked).
  apply in_map_iff. exists (Z.to_nat b). split; [lia|].
  apply in_seq. lia.
Qed.

Lemma byte_digits : forall b, isByte b ->
  let d1 := hexDigit (b / 16) in
  let d2 := hexDigit (b mod 16) in
  parseInt16 (String d1 (String d2 EmptyString)) = Some b
  /\ isLineTerminator d1 = false /\ isLineTerminator d2 = false
  /\ Ascii.eqb d1 "n" = false.
Proof.
  intros b Hb d1 d2. pose proof (byte_checks b Hb) as C.
  unfold byteChecks in C. fold d1 d2 in C.
  repeat (apply andb_true_iff in C; destruct C as [C ?]).
  repeat match goal with H : negb _ = true |- _ => apply negb_true_iff in H end.
  destruct (parseInt16 (String d1 (String d2 EmptyString))) as [n|]; [|discriminate].
  apply Z.eqb_eq in C. subst n. auto.
Qed.

Lemma chunks_toHex : forall bytes,
  Forall isByte bytes ->
  map byteOf (chunks (toHex bytes)) = bytes.
Proof.
  intros bytes H; induction H as [|b bytes Hb _ IH]; [reflexivity|].
  destruct (byte_digits b Hb) as [P [L1 [L2 _]]].
  cbn [toHex chunks]. rewrite L1, L2. cbn [map]. rewrite IH.
  unfold byteOf at 1. rewrite P. unfold toUint8, isByte in *.
  rewrite Z.mod_small by lia. reflexivity.
Qed.

Lemma hexToBytes_toHex : forall bytes,
  Forall isByte bytes -> hexToBytes (toHex bytes) = bytes.
Proof.
  intros bytes H; induction H as [|b bytes Hb _ IH]; [reflexivity|].
  destruct (byte_digits b Hb) as [P _].
  cbn [toHex hexToBytes]. rewrite IH, P. unfold toUint8, isByte in *.
  rewrite Z.mod_small by lia. reflexivity.
Qed.

Lemma toHex_not_nsec : forall bytes,
  Forall isByte bytes -> Str.startsWith (toHex bytes) "nsec" = false.
Proof.
  intros bytes H; destruct H as [|b bytes Hb _]; [reflexivity|].
  destruct (byte_digits b Hb) as [_ [_ [_ N]]].
  cbn [toHex]. unfold Str.startsWith. cbn [String.prefix].
  destruct (Ascii.ascii_dec "n" (hexDigit (b / 16))) as [E|]; [|reflexivity].
  rewrite <- E in N. discriminate.
Qed.

(** Two characters at a time. *)
Lemma string_pairs_ind : forall P : string -> Prop,
  P EmptyString ->
  (forall a, P (String a EmptyString)) ->
  (forall a b s, P s -> P (String a (String b s))) ->
  forall s, P s.
Proof.
  intros P H0 H1 H2.
  assert (G : forall s, P s /\ forall a, P (String a s)).
  { induction s as [|b s [IH1 IH2]]; split; auto. }
  intros s. apply G.
Qed.

Lemma chunks_pairs : forall key,
  noLineBreak key ->
  map byteOf (chunks key) = (hexToBytes key ++ map byteOf (lastOdd key))%list.
Proof.
  unfold noLineBreak.
  induction key as [|a|a b key IH] using string_pairs_ind; intros N.
  - reflexivity.
  - simpl in N. rewrite andb_true_r in N. unfold Str.non in N.
    apply negb_true_iff in N. cbn [chunks]. rewrite N. reflexivity.
  - cbn [every] in N. apply andb_true_iff in N. destruct N as [Na N].
    apply andb_true_iff in N. destruct N as [Nb N].
    unfold Str.non in Na, Nb. apply negb_true_iff in Na, Nb.
    cbn [chunks hexToBytes lastOdd]. rewrite Na, Nb. cbn [map app].
    rewrite (IH N). reflexivity.
Qed.

Lemma lastOdd_even : forall key,
  (Nat.even (String.length key) = true -> lastOdd key = [])
  /\ (Nat.even (String.length key) = false ->
      exists rest c, key = (rest ++ String c EmptyString)%string
                     /\ lastOdd key = [String c EmptyString]).
Proof.
  induction key as [|a|a b key [IH1 IH2]] using string_pairs_ind.
  - split; [reflexivity | discriminate].
  - split; [discriminate|]. intros _. exists EmptyString, a. split; reflexivity.
  - split.
    + intros E. apply IH1. exact E.
    + intros E. destruct (IH2 E) as [rest [c [-> L]]].
      exists (String a (String b rest)), c. split; [reflexivity | exact L].
Qed.

Lemma chunks_nil : forall key,
  chunks key = [] <-> every isLineTerminator key = true.
Proof.
  induction key as [|a key IH]; [simpl; tauto|].
  cbn [chunks every]. destruct (isLineTerminator a); simpl.
  - exact IH.
  - split; [|discriminate].
    destruct key as [|b key]; [discriminate|].
    destruct (isLineTerminator b); discriminate.
Qed.

Lemma byteOf_isByte : forall chunk, isByte (byteOf chunk).
Proof.
  intros chunk. unfold isByte, byteOf, toUint8.
  destruct (parseInt16 chunk) as [n|]; [|lia].
  apply Z.mod_pos_bound. lia.
Qed.

Lemma byteOf_not_hex : forall a rest,
  ParseInt.digitVal 16 a = None -> Str.isSpace a = false ->
  a <> "-"%char -> a <> "+"%char ->
  byteOf (String a rest) = 0.
Proof.
  intros a rest D S M P. unfold byteOf, parseInt16.
  cbn [Str.trimStart]. rewrite S.
  destruct (Ascii.eqb_spec a "-"); [contradiction|].
  destruct (Ascii.eqb_spec a "+"); [contradiction|].
  assert (Z0 : Ascii.eqb a "0" = false).
  { destruct (Ascii.eqb_spec a "0") as [->|]; [discriminate D | reflexivity]. }
  destruct rest as [|b rest]; cbn [ParseInt.digits]; rewrite ?Z0; simpl;
    rewrite D; reflexivity.
Qed.

End HexFacts.

(** X11: the hexadecimal form that keygen.js prints for a key is read back
    to the same bytes by [parsePrivateKey], and by [hexToBytes]: two
    lower-case digits for each byte, cut into chunks of two and read by
    [parseInt] in base 16. *)
Theorem hex_key_round_trip : forall decode bytes,
  bytes <> [] ->
  Forall HSpec.isByte bytes ->
  Hex.parsePrivateKey decode (Hex.toHex bytes) = Js.Resolved bytes
  /\ Hex.hexToBytes (Hex.toHex bytes) = bytes.
Proof.
  intros decode bytes Hne H. split; [|now apply hexToBytes_toHex].
  unfold Hex.parsePrivateKey. rewrite (toHex_not_nsec bytes H).
  pose proof (chunks_toHex bytes H) as C.
  change (fun b => Hex.toUint8 (Hex.parseInt16 b)) with HSpec.byteOf.
  destruct (Hex.chunks (Hex.toHex bytes)) as [|c cs].
  - simpl in C. congruence.
  - now rewrite C.
Qed.

Lemma hex_key_round_trip_witness :
  Hex.parsePrivateKey (fun _ => Js.Rejected "not bech32") (Hex.toHex HSpec.sampleKey)
  = Js.Resolved HSpec.sampleKey
  /\ Hex.hexToBytes (Hex.toHex HSpec.sampleKey) = HSpec.sampleKey.
Proof.
  apply (hex_key_round_trip (fun _ => Js.Rejected "not bech32") HSpec.sampleKey).
  - discriminate.
  - unfold HSpec.sampleKey, HSpec.isByte. repeat constructor; lia.
Defined.

(** X12: on a key that is not taken for an [nsec] and holds no line
    break, [parsePrivateKey] yields the bytes of [hexToBytes], followed, when
    the length of the key is odd, by one more byte for the last character
    alone, which [hexToBytes] drops; so the two decoders agree exactly on
    the keys of even length. *)
Theorem hex_decoders_agree : forall decode key,
  key <> EmptyString ->
  Str.startsWith key "nsec" = false ->
  HSpec.noLineBreak key ->
  Hex.parsePrivateKey decode key
  = Js.Resolved (Hex.hexToBytes key ++ map HSpec.byteOf (HSpec.lastOdd key))%list
  /\ (Nat.even (String.length key) = true ->
      Hex.parsePrivateKey decode key = Js.Resolved (Hex.hexToBytes key))
  /\ (Nat.even (String.length key) = false ->
      exists rest c,
        key = (rest ++ String c EmptyString)%string
        /\ Hex.parsePrivateKey decode key
           = Js.Resolved (Hex.hexToBytes key ++ [HSpec.byteOf (String c EmptyString)])%list).
Proof.
  intros decode key Hne Hn Hl.
  assert (E : Hex.parsePrivateKey decode key
              = Js.Resolved (Hex.hexToBytes key
                             ++ map HSpec.byteOf (HSpec.lastOdd key))%list).
  { unfold Hex.parsePrivateKey. rewrite Hn.
    change (fun b => Hex.toUint8 (Hex.parseInt16 b)) with HSpec.byteOf.
    rewrite <- (chunks_pairs key Hl).
    destruct (Hex.chunks key) as [|c cs] eqn:C; [|reflexivity].
    exfalso. apply chunks_nil in C. destruct key as [|a key]; [contradiction|].
    unfold HSpec.noLineBreak in Hl. cbn [VSpec.every] in *.
    apply andb_true_iff in C, Hl. destruct C as [C _], Hl as [Hl _].
    unfold Str.non in Hl. rewrite C in Hl. discriminate. }
  split; [exact E|]. destruct (lastOdd_even key) as [Ev Od]. split.
  - intros H. rewrite E, (Ev H). cbn [map]. now rewrite List.app_nil_r.
  - intros H. destruct (Od H) as [rest [c [K L]]].
    exists rest, c. split; [exact K|]. rewrite E, L. reflexivity.
Qed.

Lemma hex_decoders_agree_witness :
  Hex.parsePrivateKey (fun _ => Js.Rejected "not bech32") "abc"
  = Js.Resolved (Hex.hexToBytes "abc" ++ map HSpec.byteOf (HSpec.lastOdd "abc"))%list
  /\ (Nat.even (String.length "abc") = true ->
      Hex.parsePrivateKey (fun _ => Js.Rejected "not bech32") "abc"
      = Js.Resolved (Hex.hexToBytes "abc"))
  /\ (Nat.even (String.length "abc") = false ->
      exists rest c,
        "abc"%string = (rest ++ String c EmptyString)%string
        /\ Hex.parsePrivateKey (fun _ => Js.Rejected "not bech32") "abc"
           = Js.Resolved (Hex.hexToBytes "abc" ++ [HSpec.byteOf (String c EmptyString)])%list).
Proof.
  apply (hex_decoders_agree (fun _ => Js.Rejected "not bech32") "abc").
  - discriminate.
  - reflexivity.
  - reflexivity.
Defined.

(** X13: [parsePrivateKey] checks nothing of a key in hexadecimal.  A key
    that is not taken for an [nsec] is refused only when it holds nothing
    but line breaks, the empty key included; any other key yields bytes,
    each between 0 and 255, and a chunk that starts with a character that
    is no digit of base 16, no white space and no sign yields the byte 0. *)
Theorem parsePrivateKey_checks_nothing : forall decode key,
  Str.startsWith key "nsec" = false ->
  ((exists message, Hex.parsePrivateKey decode key = Js.Rejected message)
   <-> VSpec.every Hex.isLineTerminator key = true)
  /\ (VSpec.every Hex.isLineTerminator key = false ->
      exists bytes,
        Hex.parsePrivateKey decode key = Js.Resolved bytes
        /\ bytes <> [] /\ Forall HSpec.isByte bytes)
  /\ (forall a rest,
        ParseInt.digitVal 16 a = None -> Str.isSpace a = false ->
        a <> "-"%char -> a <> "+"%char ->
        HSpec.byteOf (String a rest) = 0).
Proof.
  intros decode key Hn.
  assert (B : forall l, Forall HSpec.isByte (map HSpec.byteOf l)).
  { intros l. apply Forall_forall. intros b Hb. apply in_map_iff in Hb.
    destruct Hb as [c [<- _]]. apply byteOf_isByte. }
  unfold Hex.parsePrivateKey. rewrite Hn.
  change (fun b => Hex.toUint8 (Hex.parseInt16 b)) with HSpec.byteOf.
  pose proof (chunks_nil key) as N.
  destruct (Hex.chunks key) as [|c cs] eqn:C.
  - split; [|split].
    + split; [intros _; now apply N | intros _; eauto].
    + intros E. rewrite (proj1 N eq_refl) in E. discriminate.
    + apply byteOf_not_hex.
  - split; [|split].
    + split; [intros [m E]; discriminate|].
      intros E. apply N in E. discriminate.
    + intros _. eexists. split; [reflexivity|]. split; [discriminate | apply B].
    + apply byteOf_not_hex.
Qed.

Lemma parsePrivateKey_checks_nothing_witness :
  ((exists message,
       Hex.parsePrivateKey (fun _ => Js.Rejected "not bech32") "zz" = Js.Rejected message)
   <-> VSpec.every Hex.isLineTerminator "zz" = true)
  /\ (VSpec.every Hex.isLineTerminator "zz" = false ->
      exists bytes,
        Hex.parsePrivateKey (fun _ => Js.Rejected "not bech32") "zz" = Js.Resolved bytes
        /\ bytes <> [] /\ Forall HSpec.isByte bytes)
  /\ (forall a rest,
        ParseInt.digitVal 16 a = None -> Str.isSpace a = false ->
        a <> "-"%char -> a <> "+"%char ->
        HSpec.byteOf (String a rest) = 0).
Proof.
  apply (parsePrivateKey_checks_nothing (fun _ => Js.Rejected "not bech32") "zz").
  reflexivity.
Defined.

(* ================================================================== *)
(** * Direct messages *)

Section SortMore.
Context {A : Type}.

(** Where no element is to go after another, the sort changes nothing. *)
Lemma sort_same : forall (cmp : A -> A -> Z) l,
  (forall x y, In x l -> In y l -> cmp x y <= 0) -> Js.sort cmp l = l.
Proof.
  intros cmp l; induction l as [|x l IH]; intros H; [reflexivity|].
  simpl. rewrite IH by (intros a b Ha Hb; apply H; now right).
  destruct l as [|y l]; [reflexivity|]. simpl.
  assert (C : cmp x y <= 0) by (apply H; [now left | right; now left]).
  destruct (Z.ltb_spec 0 (cmp x y)); [lia | reflexivity].
Qed.

Lemma insert_ext_in : forall (cmp cmp' : A -> A -> Z) x l,
  (forall y, In y l -> cmp x y = cmp' x y) -> Js.insert cmp x l = Js.insert cmp' x l.
Proof.
  intros cmp cmp' x l; induction l as [|y l IH]; intros H; [reflexivity|].
  simpl. rewrite (H y) by now left.
  rewrite IH by (intros z Hz; apply H; now right). reflexivity.
Qed.

(** The sort depends on the comparator only at the elements of the list. *)
Lemma sort_ext_in : forall (cmp cmp' : A -> A -> Z) l,
  (forall x y, In x l -> In y l -> cmp x y = cmp' x y) ->
  Js.sort cmp l = Js.sort cmp' l.
Proof.
  intros cmp cmp' l; induction l as [|x l IH]; intros H; [reflexivity|].
  simpl. rewrite IH by (intros a b Ha Hb; apply H; now right).
  apply insert_ext_in. intros y Hy. apply H; [now left | right].
  apply (Permutation_in _ (sort_perm cmp' l)). exact Hy.
Qed.

End SortMore.

Section ObjFacts.
Import Dm.

Lemma get_set : forall k k' v obj,
  get k (set k' v obj) = if (k' =? k)%string then Some v else get k obj.
Proof.
  intros k k' v obj; induction obj as [|[k0 v0] obj IH]; simpl.
  - reflexivity.
  - destruct (String.eqb_spec k0 k') as [->|N]; simpl.
    + destruct (k' =? k)%string; reflexivity.
    + rewrite IH. destruct (String.eqb_spec k0 k) as [->|]; [|reflexivity].
      destruct (String.eqb_spec k' k) as [->|]; [contradiction | reflexivity].
Qed.

Lemma get_app : forall k (a b : Obj),
  get k (a ++ b)%list = match get k a with Some v => Some v | None => get k b end.
Proof.
  intros k a b; induction a as [|[k0 v0] a IH]; simpl; [reflexivity|].
  destruct (k0 =? k)%string; [reflexivity | exact IH].
Qed.

(** A spread property is read from the spread object, the last of its
    name first; the others are those of the base. *)
Lemma get_spread : forall k more base,
  get k (spread base more)
  = match get k (List.rev more) with Some v => Some v | None => get k base end.
Proof.
  intros k more; induction more as [|[k0 v0] more IH]; intros base.
  - reflexivity.
  - unfold spread in *. cbn [fold_left fst snd List.rev]. rewrite IH, get_app, get_set.
    destruct (get k (List.rev more)); [reflexivity|]. simpl.
    destruct (k0 =? k)%string; reflexivity.
Qed.

End ObjFacts.

Section DmFacts.
Import Js Nostr Dm DmSpec.

Variable nowMs : Z.
Variable privKey : Settled (list Z).
Variable getPublicKey : list Z -> Settled string.
Variable decodeNpub : string -> Settled string.
Variable npubEncode : string -> Settled string.
Variable encrypt : list Z -> string -> string -> Settled string.
Variable decrypt : list Z -> string -> string -> Settled string.
Variable finalizeEvent : Z -> Z -> list (list string) -> string -> list Z -> Event.
Variable stringify : Obj -> string.
Variable parse : string -> Settled Obj.
Variable toISOString : Z -> Settled string.
Variable accepts : string -> Event -> bool.
Variable querySync : list string -> DmFilter -> list Event.
Variable toNumber : Value -> option Z.

Lemma collect_built : forall key events messages,
  collect npubEncode decrypt parse toISOString key events messages
  = (messages ++ built npubEncode decrypt parse toISOString key events)%list.
Proof.
  intros key events; induction events as [|e events IH]; intros messages; simpl.
  - now rewrite List.app_nil_r.
  - unfold built in *. simpl.
    destruct (envelope npubEncode decrypt parse toISOString key e) as [m|err].
    + rewrite IH, <- List.app_assoc. reflexivity.
    + apply IH.
Qed.

Lemma built_length : forall key events,
  (List.length (built npubEncode decrypt parse toISOString key events)
   <= List.length events)%nat.
Proof.
  intros key events; induction events as [|e events IH]; simpl; [lia|].
  unfold built in *. simpl.
  destruct (envelope npubEncode decrypt parse toISOString key e); simpl; lia.
Qed.

Lemma publish_spec : forall urls event success log,
  publish accepts urls event success log
  = (success + Z.of_nat (List.length (filter (fun url => accepts url event) urls)),
     (log ++ map (fun url => mkDelivery url event (accepts url event)) urls)%list).
Proof.
  induction urls as [|url urls IH]; intros event success log; simpl.
  - now rewrite Z.add_0_r, List.app_nil_r.
  - rewrite IH, <- List.app_assoc. destruct (accepts url event); simpl; f_equal; lia.
Qed.

(** What [readDMs] resolves to. *)
Lemma readDMs_resolved : forall options messages,
  readDMs nowMs privKey getPublicKey decodeNpub npubEncode decrypt parse toISOString
    querySync toNumber options = Resolved messages ->
  exists key pubkey filter,
    privKey = Resolved key /\ getPublicKey key = Resolved pubkey
    /\ f_kinds filter = [4] /\ f_p filter = [pubkey]
    /\ messages
       = Js.sort (byTimestamp toNumber)
           (built npubEncode decrypt parse toISOString key
              (querySync firstThree filter)).
Proof.
  intros options messages H. unfold readDMs in H.
  destruct privKey as [key|] eqn:K; [|discriminate].
  destruct (getPublicKey key) as [pubkey|] eqn:G; [|discriminate].
  exists key, pubkey.
  match type of H with
  | match ?a with _ => _ end = _ => destruct a as [[author|]|]
  end; try discriminate;
    injection H as <-; eexists; rewrite collect_built;
    (refine (conj _ (conj _ (conj _ (conj _ _))));
     [reflexivity | exact G | | | reflexivity]); reflexivity.
Qed.

(** X15: a direct message is offered to the first three relays of [RELAYS],
    in their order and to all three whichever accept it, and to no other
    relay; [sendDM] resolves, to the event it sent, exactly when one of the
    three accepted it, and is rejected with [Failed to publish to any
    relay] when none did.  A failure of the keys or of the encryption
    happens before any relay is tried. *)
Theorem sendDM_delivery : forall recipient message,
  let out := sendDM nowMs privKey getPublicKey decodeNpub encrypt finalizeEvent
               stringify accepts recipient message in
  (snd out = [] \/ map d_relay (snd out) = firstThree)
  /\ (forall d, In d (snd out) -> d_ok d = accepts (d_relay d) (d_event d))
  /\ (forall event,
        fst out = Resolved event
        <-> (snd out <> []
             /\ (forall d, In d (snd out) -> d_event d = event)
             /\ exists d, In d (snd out) /\ d_ok d = true))
  /\ (snd out <> [] -> (forall d, In d (snd out) -> d_ok d = false) ->
      fst out = Rejected "Failed to publish to any relay")
  /\ (snd out = [] -> exists e, fst out = Rejected e).
Proof.
  intros recipient message out. subst out. unfold sendDM.
  assert (Early : forall e : string,
            let out := (@Rejected Event e, @nil Delivery) in
            (snd out = [] \/ map d_relay (snd out) = firstThree)
            /\ (forall d, In d (snd out) -> d_ok d = accepts (d_relay d) (d_event d))
            /\ (forall event,
                  fst out = Resolved event
                  <-> (snd out <> []
                       /\ (forall d, In d (snd out) -> d_event d = event)
                       /\ exists d, In d (snd out) /\ d_ok d = true))
            /\ (snd out <> [] -> (forall d, In d (snd out) -> d_ok d = false) ->
                fst out = Rejected "Failed to publish to any relay")
            /\ (snd out = [] -> exists e, fst out = Rejected e)).
  { intros e out. subst out. cbn [fst snd]. split; [now left|].
    split; [intros d []|]. split.
    - intros event. split; [discriminate|]. intros [H _]. now contradiction H.
    - split; [intros H; now contradiction H | eauto]. }
  destruct privKey as [key|e]; [|apply Early].
  destruct (getPublicKey key) as [pubkey|e]; [|apply Early].
  destruct (parsePublicKey decodeNpub recipient) as [recipientHex|e]; [|apply Early].
  destruct (encrypt key recipientHex (stringify message)) as [ciphertext|e];
    [|apply Early].
  clear Early.
  set (event := finalizeEvent ENCRYPTED_DM (nowMs / 1000) [["p"; recipientHex]]
                  ciphertext key).
  change (firstn 3 RELAYS) with firstThree.
  rewrite publish_spec. cbn [app Z.add].
  set (log := map (fun url => mkDelivery url event (accepts url event)) firstThree).
  set (n := List.length (filter (fun url => accepts url event) firstThree)).
  assert (L : forall d, In d log ->
                d_event d = event /\ d_ok d = accepts (d_relay d) (d_event d)).
  { intros d Hd. apply in_map_iff in Hd. destruct Hd as [url [<- _]]. auto. }
  assert (Hne : log <> []) by discriminate.
  assert (N : n = 0%nat <-> forall d, In d log -> d_ok d = false).
  { unfold n. rewrite <- Nat.eqb_eq, filter_none_length. split.
    - intros H d Hd. apply in_map_iff in Hd. destruct Hd as [url [<- Hu]].
      apply H. exact Hu.
    - intros H url Hu.
      apply (H (mkDelivery url event (accepts url event))).
      apply in_map_iff. eauto. }
  destruct (Z.eqb_spec (Z.of_nat n) 0) as [Z0|Z0]; cbn [fst snd].
  - assert (F : forall d, In d log -> d_ok d = false) by (apply N; lia).
    split; [right; reflexivity|]. split; [intros d Hd; now apply L|]. split.
    + intros ev. split; [discriminate|].
      intros [_ [_ [d [Hd Ok]]]]. rewrite (F d Hd) in Ok. discriminate.
    + split; [reflexivity | intros H; now contradiction Hne].
  - split; [right; reflexivity|]. split; [intros d Hd; now apply L|]. split.
    + intros ev. split.
      * intros [= <-]. split; [exact Hne|]. split; [intros d Hd; now apply L|].
        destruct (existsb d_ok log) eqn:X.
        -- apply existsb_exists in X. exact X.
        -- exfalso. apply Z0.
           assert (n = 0%nat); [|lia]. apply N.
           apply (proj1 (existsb_false_iff _ _) X).
      * intros [_ [E _]]. f_equal.
        rewrite <- (E (mkDelivery "wss://relay.damus.io" event
                         (accepts "wss://relay.damus.io" event))); [reflexivity|].
        left. reflexivity.
    + split.
      * intros _ F. exfalso. apply Z0. assert (n = 0%nat); [|lia]. now apply N.
      * intros H. now contradiction Hne.
Qed.

(** X16: [readDMs] resolves to the messages that could be built from the
    events the three relays returned, one for each event that decrypts,
    parses and has a sender and a date that can be written, the others
    being skipped.  In a message, every property of the decrypted payload
    takes the place of the property of the same name that [readDMs]
    derived from the event: a payload that holds [from], [fromHex], [id],
    [timestamp] or [date] decides what the reader is shown for them. *)
Theorem readDMs_payload_overrides : forall options messages,
  readDMs nowMs privKey getPublicKey decodeNpub npubEncode decrypt parse toISOString
    querySync toNumber options = Resolved messages ->
  exists key me filter,
    privKey = Resolved key /\ getPublicKey key = Resolved me
    /\ f_kinds filter = [4] /\ f_p filter = [me]
    /\ (let events := querySync firstThree filter in
        Permutation messages (built npubEncode decrypt parse toISOString key events)
        /\ (List.length messages <= List.length events)%nat
        /\ (forall m, In m messages ->
              exists event,
                In event events
                /\ envelope npubEncode decrypt parse toISOString key event = Resolved m)
        /\ (forall event plaintext parsed from date,
              In event events ->
              decrypt key (pubkey event) (content event) = Resolved plaintext ->
              parse plaintext = Resolved parsed ->
              npubEncode (pubkey event) = Resolved from ->
              toISOString (created_at event * 1000) = Resolved date ->
              exists m,
                In m messages
                /\ forall k,
                     get k m = match get k (List.rev parsed) with
                               | Some v => Some v
                               | None => get k (header event from date)
                               end)).
Proof.
  intros options messages H.
  destruct (readDMs_resolved options messages H) as (key & me & f & K & G & Fk & Fp & ->).
  exists key, me, f. do 4 (split; [assumption|]).
  intros events.
  set (collected := built npubEncode decrypt parse toISOString key
                      (querySync firstThree f)).
  fold events. fold collected.
  assert (P : Permutation (Js.sort (byTimestamp toNumber) collected) collected)
    by apply sort_perm.
  split; [exact P|]. split; [|split].
  - rewrite (Permutation_length P). apply built_length.
  - intros m Hm. apply (Permutation_in _ P) in Hm.
    unfold collected, built in Hm. apply in_flat_map in Hm.
    destruct Hm as [event [He Hm]]. exists event. split; [exact He|].
    destruct (envelope npubEncode decrypt parse toISOString key event) as [m'|];
      [|contradiction].
    destruct Hm as [<-|[]]. reflexivity.
  - intros event plaintext parsed from date He D Pa Np Iso.
    exists (spread (header event from date) parsed). split.
    + apply (Permutation_in _ (Permutation_sym P)).
      unfold collected, built. apply in_flat_map. exists event. split; [exact He|].
      unfold envelope. rewrite D, Pa, Np, Iso. left. reflexivity.
    + intros k. apply get_spread.
Qed.

(** X17: the order of the messages of [readDMs].  Where the [timestamp] of
    every message converts to a number, the messages come newest first,
    those of one time in the order of the events.  Where none does, they
    come in the order of the events, whatever their times: the comparator
    yields [NaN], which the sort reads as no difference.  The second is
    the case of the messages of [MessageTypes]: their payload sets
    [timestamp] to an ISO string, which takes the place of the time of the
    event. *)
Theorem readDMs_order : forall options messages,
  readDMs nowMs privKey getPublicKey decodeNpub npubEncode decrypt parse toISOString
    querySync toNumber options = Resolved messages ->
  exists key dmFilter,
    privKey = Resolved key
    /\ (let collected :=
          built npubEncode decrypt parse toISOString key (querySync firstThree dmFilter) in
        ((forall m, In m collected -> timestampOf toNumber m <> None) ->
         StronglySorted (Spec.desc (stamp toNumber)) messages
         /\ forall k, filter (fun m => stamp toNumber m =? k) messages
                      = filter (fun m => stamp toNumber m =? k) collected)
        /\ ((forall m, In m collected -> timestampOf toNumber m = None) ->
            messages = collected)
        /\ (forall payload event from date,
              isAbnMessage payload ->
              exists iso,
                get "timestamp" (spread (header event from date) payload)
                = Some (VStr iso))).
Proof.
  intros options messages H.
  destruct (readDMs_resolved options messages H) as (key & me & f & K & _ & _ & _ & ->).
  exists key, f. split; [exact K|]. intros collected. split; [|split].
  - intros Hn.
    assert (E : Js.sort (byTimestamp toNumber) collected
                = Js.sort (fun a b => stamp toNumber b - stamp toNumber a) collected).
    { apply sort_ext_in. intros x y Hx Hy. unfold byTimestamp, stamp.
      destruct (timestampOf toNumber x) eqn:Ex; [|now contradiction (Hn x Hx)].
      destruct (timestampOf toNumber y) eqn:Ey; [|now contradiction (Hn y Hy)].
      reflexivity. }
    fold collected. rewrite E.
    assert (C : forall x y : Obj,
              (0 <? stamp toNumber y - stamp toNumber x)
              = (stamp toNumber x <? stamp toNumber y)).
    { intros x y. destruct (Z.ltb_spec (stamp toNumber x) (stamp toNumber y));
        [apply Z.ltb_lt | apply Z.ltb_ge]; lia. }
    split.
    + apply sort_sorted. exact C.
    + intros k. apply sort_stable. exact C.
  - intros Hn. apply sort_same. intros x y Hx Hy. unfold byTimestamp.
    rewrite (Hn x Hx). destruct (timestampOf toNumber y); lia.
  - intros payload event from date [iso Hp]. exists iso. rewrite get_spread.
    destruct Hp as [[a [b ->]]|[[a [b ->]]|[[a ->]|[[a [b ->]]|[[a [b ->]]|[a [b ->]]]]]]];
      reflexivity.
Qed.

End DmFacts.

Section DmExamples.
Import Js Nostr Dm DmSpec.

Lemma readDMs_payload_overrides_witness :
  exists key me filter,
    plainKey = Resolved key /\ plainPub key = Resolved me
    /\ f_kinds filter = [4] /\ f_p filter = [me]
    /\ (let events := twoEvents firstThree filter in
        Permutation sampleMessages
          (built plainCode plainCrypt (parsesTo samplePayload) plainDate key events)
        /\ (List.length sampleMessages <= List.length events)%nat
        /\ (forall m, In m sampleMessages ->
              exists event,
                In event events
                /\ envelope plainCode plainCrypt (parsesTo samplePayload) plainDate key
                     event = Resolved m)
        /\ (forall event plaintext parsed from date,
              In event events ->
              plainCrypt key (pubkey event) (content event) = Resolved plaintext ->
              parsesTo samplePayload plaintext = Resolved parsed ->
              plainCode (pubkey event) = Resolved from ->
              plainDate (created_at event * 1000) = Resolved date ->
              exists m,
                In m sampleMessages
                /\ forall k,
                     get k m = match get k (List.rev parsed) with
                               | Some v => Some v
                               | None => get k (header event from date)
                               end)).
Proof.
  apply (readDMs_payload_overrides 0 plainKey plainPub plainCode plainCode plainCrypt
           (parsesTo samplePayload) plainDate twoEvents numbersOnly noOptions
           sampleMessages).
  reflexivity.
Defined.

Lemma readDMs_order_witness :
  exists key dmFilter,
    plainKey = Resolved key
    /\ (let collected :=
          built plainCode plainCrypt (parsesTo samplePayload) plainDate key
            (twoEvents firstThree dmFilter) in
        ((forall m, In m collected -> timestampOf numbersOnly m <> None) ->
         StronglySorted (Spec.desc (stamp numbersOnly)) sampleMessages
         /\ forall k, filter (fun m => stamp numbersOnly m =? k) sampleMessages
                      = filter (fun m => stamp numbersOnly m =? k) collected)
        /\ ((forall m, In m collected -> timestampOf numbersOnly m = None) ->
            sampleMessages = collected)
        /\ (forall payload event from date,
              isAbnMessage payload ->
              exists iso,
                get "timestamp" (spread (header event from date) payload)
                = Some (VStr iso))).
Proof.
  apply (readDMs_order 0 plainKey plainPub plainCode plainCode plainCrypt
           (parsesTo samplePayload) plainDate twoEvents numbersOnly noOptions
           sampleMessages).
  reflexivity.
Defined.

End DmExamples.

(** The first relay is down, the other two accept: the message is sent. *)
Lemma sendDM_first_relay_down :
  exists event,
    Dm.sendDM 1700000000000 DmSpec.plainKey DmSpec.plainPub DmSpec.plainCode
      DmSpec.plainCrypt DmSpec.plainSign DmSpec.plainText DmSpec.notFirst
      "npub1partner" DmSpec.samplePayload
    = (Js.Resolved event,
       [ Dm.mkDelivery "wss://relay.damus.io" event false;
         Dm.mkDelivery "wss://nos.lol" event true;
         Dm.mkDelivery "wss://relay.nostr.band" event true ])
    /\ Nostr.kind event = 4
    /\ Nostr.tags event = [["p"; "npub1partner"]].
Proof. eexists. split; [reflexivity|]. split; reflexivity. Qed.


(* ================================================================== *)
(** * The steps of a deal *)

Section ExecFacts.
Import Js Dm Exec ESpec.

Variable isoNow : list Op -> string.
Variable dmError : list Op -> string -> Obj -> option string.
Variable pay : list Op -> string -> Settled Payment.
Variable makeInvoice : list Op -> Z -> Value -> Settled Invoice.
Variable verify : list Op -> string -> string -> Verify.Options -> Verify.Result.

Local Abbreviation run := (executeDeal isoNow dmError pay makeInvoice verify).

(** Splits the cases of [executeDeal]. *)
Ltac cases H :=
  repeat match type of H with
         | context [if ?c then _ else _] => destruct c eqn:?
         | context [match dmError ?t ?n ?m with _ => _ end] =>
             destruct (dmError t n m) eqn:?
         | context [match pay ?t ?b with _ => _ end] => destruct (pay t b) eqn:?
         | context [match makeInvoice ?t ?s ?d with _ => _ end] =>
             destruct (makeInvoice t s d) eqn:?
         end;
  cbn [fst snd app] in H.

(** X19: the steps that [executeDeal] reports when it resolves come in the
    order of the protocol, none twice.  A payment is reported together
    with its confirmation; an invoice is returned exactly when
    [invoice_sent] is reported, and then no link is verified; a
    verification is returned exactly when [link_verified] is reported,
    which is exactly when [deal_complete] is: the deal is reported
    complete whether the link was found or not.  The link is verified with
    the dofollow requirement of the deal and no other constraint, and the
    operations started before are still there, followed by the new ones. *)
Theorem executeDeal_steps : forall deal t out t',
  run deal t = (Resolved out, t') ->
  (exists keep, o_steps out = filter keep canonical)
  /\ (In "payment_sent" (o_steps out) <-> In "payment_confirmed" (o_steps out))
  /\ (In "invoice_sent" (o_steps out) <-> o_invoice out <> None)
  /\ (In "invoice_sent" (o_steps out) -> ~ In "link_verified" (o_steps out))
  /\ (In "link_verified" (o_steps out) <-> o_verification out <> None)
  /\ (In "link_verified" (o_steps out) <-> In "deal_complete" (o_steps out))
  /\ (forall v, o_verification out = Some v ->
        exists before,
          v = verify before (strOf (verifyUrl deal)) (strOf (targetDomain deal))
                (checkOptions deal))
  /\ (exists ops, t' = (t ++ ops)%list).
Proof.
  intros deal t out t' H.
  unfold executeDeal, bind, ret, send, payInvoice, createInvoice, sleep, verifyLink in H.
  cases H; try discriminate; injection H as <- <-;
    cbn [o_steps o_invoice o_verification app];
    (split;
     [match goal with
      | |- exists keep, ?s = _ => exists (fun x => Js.includes s x); vm_compute; reflexivity
      end|]);
    (split; [simpl; intuition congruence|]);
    (split; [simpl; intuition congruence|]);
    (split; [simpl; intuition congruence|]);
    (split; [simpl; intuition congruence|]);
    (split; [simpl; intuition congruence|]);
    (split;
     [intros v Hv; first [discriminate Hv | injection Hv as <-; eexists; reflexivity]|]);
    first [ exists []; now rewrite List.app_nil_r
          | repeat rewrite <- List.app_assoc; eexists; reflexivity ].
Qed.

(** X20: nothing is undone when a deal fails.  [executeDeal] is rejected
    with the error of the operation it started last, a message, a payment
    or an invoice, and the operations started before it stay as they are.
    So a buyer whose payment went through and whose confirmation message
    could not be sent gets a rejected promise: the payment is made, and
    no step is reported. *)
Theorem executeDeal_no_compensation : forall deal t,
  (forall e t',
      run deal t = (Rejected e, t') ->
      exists before op,
        t' = (before ++ [op])%list
        /\ (exists ops, before = (t ++ ops)%list)
        /\ match op with
           | SentDM npub message => dmError before npub message = Some e
           | Paid bolt11 => pay before bolt11 = Rejected e
           | Invoiced n dealId => makeInvoice before n dealId = Rejected e
           | _ => False
           end)
  /\ (forall payment e,
        truthy_str (inquiry deal) = false ->
        truthy_str (invoice deal) = true ->
        role deal = Some "buyer" ->
        pay t (strOf (invoice deal)) = Resolved payment ->
        let paid := (t ++ [Paid (strOf (invoice deal))])%list in
        let message :=
          MessageTypes.paid (isoNow paid) (preimage payment) (linkDetails deal) in
        dmError paid (partner deal) message = Some e ->
        run deal t = (Rejected e, (paid ++ [SentDM (partner deal) message])%list)).
Proof.
  intros deal t. split.
  - intros e t' H.
    unfold executeDeal, bind, ret, send, payInvoice, createInvoice, sleep, verifyLink in H.
    cases H; try discriminate; injection H as <- <-;
      do 2 eexists; (split; [reflexivity|]);
      (split;
       [first [ exists []; now rewrite List.app_nil_r
              | repeat rewrite <- List.app_assoc; eexists; reflexivity ]
       | assumption ]).
  - intros payment e Hi Hv Hr Hp paid message Hd.
    unfold executeDeal, bind, ret, send, payInvoice.
    rewrite Hi, Hv, Hr. cbn [andb String.eqb Ascii.eqb Bool.eqb fst snd].
    rewrite Hp. fold paid. fold message. rewrite Hd. reflexivity.
Qed.

End ExecFacts.

(** A buyer pays, and the link is not found: the deal is reported complete
    all the same. *)
Lemma executeDeal_steps_witness :
  exists out t',
    Exec.executeDeal ESpec.noTime ESpec.delivers ESpec.paysAll ESpec.invoicesAll
      ESpec.failsAll ESpec.buying [] = (Js.Resolved out, t')
    /\ Exec.o_steps out
       = ["payment_sent"; "payment_confirmed"; "link_verified"; "deal_complete"]
    /\ (exists v, Exec.o_verification out = Some v /\ Verify.verified v = false)
    /\ (In "link_verified" (Exec.o_steps out) <-> In "deal_complete" (Exec.o_steps out)).
Proof.
  do 2 eexists. split; [lazy; reflexivity|]. split; [reflexivity|].
  split; [eexists; split; reflexivity|].
  destruct (executeDeal_steps ESpec.noTime ESpec.delivers ESpec.paysAll
              ESpec.invoicesAll ESpec.failsAll ESpec.buying [] _ _ eq_refl)
    as (_ & _ & _ & _ & _ & H & _).
  exact H.
Defined.

(** The buyer of the example, when no message can be sent: the invoice is
    paid, and the promise is rejected. *)
Lemma executeDeal_paid_and_rejected :
  exists message,
    Exec.executeDeal ESpec.noTime ESpec.offline ESpec.paysAll ESpec.invoicesAll
      ESpec.failsAll ESpec.buying []
    = (Js.Rejected "Failed to publish to any relay",
       [Exec.Paid "lnbc40u"; Exec.SentDM "npub1seller" message])
    /\ Dm.get "type" message = Some (Dm.VStr "paid").
Proof. eexists. split; [lazy; reflexivity | reflexivity]. Qed.

(* ================================================================== *)
(** * Listing the sites, and finding partners *)

Section SitesFacts.
Import Js Nostr Query Sites SSpec.

Variable querySync : list Event -> Filter -> list Event.
Variable readSite : Event -> Settled Listed.
Variable sliceError : Dm.Value -> option string.

Lemma readAll_rejects : forall events e m,
  In e events -> readSite e = Rejected m ->
  exists m', readAll readSite events = Rejected m'.
Proof.
  induction events as [|x events IH]; intros e m He Hm; [contradiction|].
  simpl. destruct He as [->|He].
  - rewrite Hm. eauto.
  - destruct (readSite x); [|eauto].
    destruct (IH e m He Hm) as [m' ->]. eauto.
Qed.

Lemma readAll_resolved : forall events sites,
  readAll readSite events = Resolved sites ->
  Forall2 (fun e s => readSite e = Resolved s) events sites.
Proof.
  induction events as [|x events IH]; intros sites H; simpl in H.
  - injection H as <-. constructor.
  - destruct (readSite x) as [s|] eqn:R; [|discriminate].
    destruct (readAll readSite events) as [rest|]; [|discriminate].
    injection H as <-. constructor; [exact R | now apply IH].
Qed.

Lemma cmp_daOrZero : forall x y : Listed,
  (0 <? daOrZero y - daOrZero x) = (daOrZero x <? daOrZero y).
Proof.
  intros x y. destruct (Z.ltb_spec (daOrZero x) (daOrZero y));
    [apply Z.ltb_lt | apply Z.ltb_ge]; lia.
Qed.

(** What [querySites] resolves to. *)
Lemma querySites_resolved : forall filters store sites,
  querySites querySync readSite sliceError filters store = Resolved sites ->
  exists read,
    readAll readSite (querySync store (siteFilter filters)) = Resolved read
    /\ sites = Js.sort (fun a b => daOrZero b - daOrZero a) (inState filters read).
Proof.
  intros filters store sites H. unfold querySites in H.
  destruct (readAll readSite (querySync store (siteFilter filters))) as [read|];
    [|discriminate].
  exists read. split; [reflexivity|].
  assert (E : (if truthy_str (filters_state filters)
               then filter
                      (fun s => match filters_state filters with
                                | Some st => (state (l_site s) =? st)%string
                                | None => false
                                end) read
               else read) = inState filters read).
  { unfold inState, truthy_str. destruct (filters_state filters) as [st|]; [|reflexivity].
    destruct (st =? EmptyString)%string; reflexivity. }
  rewrite E in H.
  destruct (printSites sliceError _); [|discriminate]. now injection H as <-.
Qed.

Lemma sorted_filter : forall {A} (R : A -> A -> Prop) p l,
  StronglySorted R l -> StronglySorted R (filter p l).
Proof.
  intros A R p l H; induction H as [|a l H IH F]; simpl; [constructor|].
  destruct (p a); [|exact IH]. constructor; [exact IH|].
  apply Forall_forall. intros x Hx. apply filter_In in Hx.
  apply (proj1 (Forall_forall _ _) F). tauto.
Qed.

Lemma sorted_map : forall {A B} (R : A -> A -> Prop) (R' : B -> B -> Prop) (f : A -> B) l,
  (forall a b, R a b -> R' (f a) (f b)) ->
  StronglySorted R l -> StronglySorted R' (map f l).
Proof.
  intros A B R R' f l Hf H; induction H as [|a l H IH F]; simpl; constructor.
  - exact IH.
  - apply Forall_forall. intros y Hy. apply in_map_iff in Hy.
    destruct Hy as [x [<- Hx]]. apply Hf.
    apply (proj1 (Forall_forall _ _) F). exact Hx.
Qed.

(** X21: [querySites] is rejected as soon as one of the events returned
    cannot be read, whoever published it; when it resolves, every event
    was read, and the sites are those of the state asked for, if one is,
    by decreasing domain authority, a missing authority counting as 0, the
    sites of one authority in the order of the events. *)
Theorem querySites_result : forall filters store,
  let events := querySync store (siteFilter filters) in
  (forall e m, In e events -> readSite e = Rejected m ->
     exists m', querySites querySync readSite sliceError filters store = Rejected m')
  /\ (forall sites,
        querySites querySync readSite sliceError filters store = Resolved sites ->
        exists read,
          Forall2 (fun e s => readSite e = Resolved s) events read
          /\ Permutation sites (inState filters read)
          /\ StronglySorted (Spec.desc daOrZero) sites
          /\ (forall k, filter (fun s => daOrZero s =? k) sites
                        = filter (fun s => daOrZero s =? k) (inState filters read))
          /\ (forall st, filters_state filters = Some st -> st <> EmptyString ->
                forall s, In s sites -> state (l_site s) = st)).
Proof.
  intros filters store events. split.
  - intros e m He Hm. unfold querySites. fold events.
    destruct (readAll_rejects events e m He Hm) as [m' ->]. eauto.
  - intros sites H.
    destruct (querySites_resolved filters store sites H) as [read [R ->]].
    exists read. split; [now apply readAll_resolved|].
    split; [apply sort_perm|].
    split; [apply sort_sorted, cmp_daOrZero|].
    split; [intros k; apply sort_stable, cmp_daOrZero|].
    intros st Hst Hne s Hs.
    apply (Permutation_in _ (sort_perm _ _)) in Hs.
    unfold inState in Hs. rewrite Hst in Hs.
    apply String.eqb_neq in Hne. rewrite Hne in Hs.
    apply filter_In in Hs. destruct Hs as [_ Hs]. now apply String.eqb_eq in Hs.
Qed.

(** X22: the partners that [findExchangePartners] resolves to come by
    decreasing score, and those of one score by decreasing domain
    authority, a missing authority counting as 0: the matching keeps, among
    equal scores, the order in which [querySites] listed the sites. *)
Theorem findExchangePartners_order : forall yourSite filters store matches,
  findExchangePartners querySync readSite sliceError yourSite filters store
  = Resolved matches ->
  StronglySorted (Spec.desc matchScore) matches
  /\ (forall k,
        StronglySorted (Spec.desc authorityOf)
          (filter (fun m => matchScore m =? k) matches))
  /\ (forall m, In m matches ->
        url (site m) <> url yourSite /\ 30 < matchScore m
        /\ matchScore m = score yourSite (site m)).
Proof.
  intros y filters store matches H. unfold findExchangePartners in H.
  destruct (querySites querySync readSite sliceError filters store) as [sites|] eqn:Q;
    [|discriminate].
  injection H as <-.
  destruct (querySites_resolved filters store sites Q) as [read [_ S]].
  assert (Sorted : StronglySorted (Spec.desc daOrZero) sites).
  { rewrite S. apply sort_sorted, cmp_daOrZero. }
  rewrite findMatches_sort. split; [apply sort_sorted, cmp_matchScore|]. split.
  - intros k. rewrite (sort_stable _ matchScore cmp_matchScore).
    apply sorted_filter.
    apply (sorted_map (Spec.desc (fun s : Site => match da s with Some d => d | None => 0 end))).
    + intros a b Hab. exact Hab.
    + unfold Spec.kept. apply sorted_filter.
      apply (sorted_map (Spec.desc daOrZero)); [|exact Sorted].
      intros a b Hab. exact Hab.
  - intros m Hm. apply (Permutation_in _ (sort_perm _ _)) in Hm.
    apply in_map_iff in Hm. destruct Hm as [c [<- Hc]].
    unfold Spec.kept in Hc. apply filter_In in Hc. destruct Hc as [_ Hc].
    apply andb_true_iff in Hc. destruct Hc as [U Sc].
    apply negb_true_iff, String.eqb_neq in U. apply Z.ltb_lt in Sc.
    simpl. auto.
Qed.

End SitesFacts.

(** Four sites of authority 0, 45, 10 and 35, returned in this order: the
    two that score 75 are listed with the authority 10 before the
    authority 0. *)
Lemma findExchangePartners_order_witness :
  exists matches,
    Sites.findExchangePartners SSpec.held SSpec.reads SSpec.stringsSlice
      SSpec.requester SSpec.anyState SSpec.fourSites = Js.Resolved matches
    /\ map (fun m => (Query.matchScore m, SSpec.authorityOf m)) matches
       = [(100, 45); (90, 35); (75, 10); (75, 0)]
    /\ (forall k,
          StronglySorted (Spec.desc SSpec.authorityOf)
            (filter (fun m => Query.matchScore m =? k) matches)).
Proof.
  eexists. split; [vm_compute; reflexivity|]. split; [reflexivity|].
  apply (findExchangePartners_order SSpec.held SSpec.reads SSpec.stringsSlice
           SSpec.requester SSpec.anyState SSpec.fourSites).
  reflexivity.
Defined.

(* ================================================================== *)
(** * Registering a site *)

Section RegisterFacts.
Import Js Nostr Register RSpec.

Variable nowMs : Z.
Variable isoNow : string.
Variable privKey : Settled (list Z).
Variable finalizeEvent : Z -> Z -> list (list string) -> string -> list Z -> Event.
Variable stringify : Content -> string.
Variable accepts : string -> Event -> bool.

Lemma truthy_present : forall value, truthy_str value = true <-> present value.
Proof.
  intros [s|]; unfold present; simpl.
  - rewrite negb_true_iff, String.eqb_neq. split.
    + intros H. now exists s.
    + intros [s' [[= <-] H]]. exact H.
  - split; [discriminate | intros [s [H _]]; discriminate].
Qed.

Lemma checkRequired_none : forall fields,
  checkRequired fields = None <-> Forall (fun field => present (snd field)) fields.
Proof.
  induction fields as [|[field value] fields IH]; simpl.
  - split; [constructor | reflexivity].
  - destruct (truthy_str value) eqn:T; simpl.
    + rewrite IH. split.
      * intros H. constructor; [now apply truthy_present | exact H].
      * intros H. now inversion H.
    + split; [discriminate|]. intros H. inversion H as [|? ? P _]; subst.
      apply truthy_present in P. simpl in P. congruence.
Qed.

(** The error names the first field that is missing. *)
Lemma checkRequired_some : forall fields message,
  checkRequired fields = Some message ->
  exists i field value,
    nth_error fields i = Some (field, value)
    /\ ~ present value
    /\ (forall j f v, (j < i)%nat -> nth_error fields j = Some (f, v) -> present v)
    /\ message = ("Missing required field: " ++ field)%string.
Proof.
  induction fields as [|[field value] fields IH]; intros message H; [discriminate|].
  simpl in H. destruct (truthy_str value) eqn:T; simpl in H.
  - destruct (IH message H) as (i & f & v & N & P & B & E).
    exists (S i), f, v. split; [exact N|]. split; [exact P|]. split; [|exact E].
    intros [|j] f' v' Hj Hn.
    + injection Hn as <- <-. now apply truthy_present.
    + apply (B j f' v'); [lia | exact Hn].
  - injection H as <-. exists 0%nat, field, value. split; [reflexivity|]. split.
    + intros P. apply truthy_present in P. congruence.
    + split; [intros j f v Hj; lia | reflexivity].
Qed.

Lemma publish_all : forall urls event log,
  publish accepts urls event log
  = (log ++ map (fun url => Dm.mkDelivery url event (accepts url event)) urls)%list.
Proof.
  induction urls as [|url urls IH]; intros event log; simpl.
  - now rewrite List.app_nil_r.
  - rewrite IH, <- List.app_assoc. reflexivity.
Qed.

(** X23: [ABN.registerSite] refuses a site that lacks one of name, url,
    city, state and industry, or has it empty, with an error that names
    the first of them that is missing, before anything is published.  A
    complete site is offered, as one event, to every relay of [RELAYS] in
    order, and the promise resolves whatever the relays answer, also when
    none of them accepts the event.  In the content of the event, a domain
    authority of 0 is written as [null], like a missing one. *)
Theorem abnRegisterSite_outcome : forall site,
  let out := abnRegisterSite nowMs isoNow privKey finalizeEvent stringify accepts site in
  (~ complete site ->
     exists i field value,
       nth_error (required site) i = Some (field, value)
       /\ ~ present value
       /\ (forall j f v, (j < i)%nat -> nth_error (required site) j = Some (f, v) ->
             present v)
       /\ out = (Rejected ("Missing required field: " ++ field), []))
  /\ (complete site ->
      (forall e, privKey = Rejected e -> out = (Rejected e, []))
      /\ (forall key, privKey = Resolved key ->
            exists event,
              out = (Resolved tt,
                     map (fun url => Dm.mkDelivery url event (accepts url event))
                       RELAYS)))
  /\ (c_da (contentOf isoNow site) = None <-> s_da site = None \/ s_da site = Some 0).
Proof.
  intros site out. subst out. unfold abnRegisterSite. split; [|split].
  - intros Hn. destruct (checkRequired (required site)) as [message|] eqn:C.
    + destruct (checkRequired_some _ _ C) as (i & f & v & N & P & B & ->).
      exists i, f, v. auto.
    + exfalso. apply Hn. now apply checkRequired_none.
  - intros Hc. apply checkRequired_none in Hc. rewrite Hc. unfold registerSite. split.
    + intros e ->. reflexivity.
    + intros key ->. eexists. rewrite publish_all. reflexivity.
  - unfold contentOf. cbn [c_da]. destruct (s_da site) as [d|]; simpl.
    + destruct (Z.eqb_spec d 0) as [->|N]; simpl.
      * split; [auto | reflexivity].
      * split; [discriminate|]. intros [H|[= H]]; [discriminate | contradiction].
    + tauto.
Qed.

End RegisterFacts.

(** A complete site of authority 0, when every relay refuses the event:
    the registration resolves, with five refusals. *)
Lemma registerSite_without_relays :
  exists event,
    Register.abnRegisterSite 1700000000000 "2023-11-14T22:13:20.000Z"
      DmSpec.plainKey DmSpec.plainSign (fun _ => EmptyString) RSpec.refuses RSpec.plumber
    = (Js.Resolved tt, map (fun url => Dm.mkDelivery url event false) Nostr.RELAYS)
    /\ Register.c_da (Register.contentOf "2023-11-14T22:13:20.000Z" RSpec.plumber) = None.
Proof. eexists. split; reflexivity. Qed.
